(** * Store rating platform: storage layer and HTTP routes

    A shallow embedding of [shared/schema.ts], [server/storage.ts] and
    [server/routes.ts].  The PostgreSQL tables are lists of rows, every
    storage method is a function in a small state-and-error monad over the
    database, the express-session store is a finite map from session ids to
    session records, and every route is its chain of middlewares followed by
    its handler. *)

From Stdlib Require Import ZArith QArith Qround Qabs Lia Lqa Ascii.
From stdpp Require Import base decidable option list strings gmap pretty sorting.

Local Open Scope Z_scope.

(** ** Rows of the three tables (shared/schema.ts) *)

(** Timestamps are milliseconds since the epoch. *)
Definition Timestamp := Z.

(** [users]: [id] is the primary key, [email] is unique, [role] is a
    [varchar(20)] that is not null and defaults to ["normal"]. *)
Record User := mkUser {
  user_id : string;
  user_email : option string;
  user_firstName : option string;
  user_lastName : option string;
  user_profileImageUrl : option string;
  user_createdAt : option Timestamp;
  user_updatedAt : option Timestamp;
  user_name : option string;
  user_address : option string;
  user_password : option string;
  user_role : string
}.

(** [stores]: serial primary key, [ownerId] references [users.id]. *)
Record Store := mkStore {
  store_id : Z;
  store_name : string;
  store_email : string;
  store_address : string;
  store_ownerId : option string;
  store_createdAt : option Timestamp;
  store_updatedAt : option Timestamp
}.

(** [ratings]: serial primary key, [userId] references [users.id],
    [storeId] references [stores.id], unique on ([userId], [storeId]). *)
Record Rating := mkRating {
  rating_id : Z;
  rating_userId : string;
  rating_storeId : Z;
  rating_rating : Z;
  rating_createdAt : option Timestamp;
  rating_updatedAt : option Timestamp
}.

#[global] Instance User_eq_dec : EqDecision User.
Proof. solve_decision. Defined.
#[global] Instance Store_eq_dec : EqDecision Store.
Proof. solve_decision. Defined.
#[global] Instance Rating_eq_dec : EqDecision Rating.
Proof. solve_decision. Defined.

(** The database: the three tables and the two [serial] sequences. *)
Record Db := mkDb {
  users : list User;
  stores : list Store;
  ratings : list Rating;
  stores_id_seq : Z;
  ratings_id_seq : Z
}.

Definition empty_db : Db := mkDb [] [] [] 1 1.

(** ** JavaScript numbers and their way into an [integer] column *)

(** A JavaScript number is [NaN] ([None]) or a finite value, kept as an
    exact rational. *)
Definition number := option Q.

Definition num (z : Z) : number := Some (inject_Z z).

Definition is_integer (q : Q) : bool :=
  bool_decide (Qden (Qred q) = 1%positive).

(** What PostgreSQL accepts for an [integer] parameter: a whole number in
    the 32-bit range.  Anything else makes the statement fail. *)
Definition pg_int4 (n : number) : option Z :=
  match n with
  | Some q =>
      if is_integer q
      then let z := Qnum (Qred q) in
           if bool_decide (-2147483648 <= z <= 2147483647) then Some z else None
      else None
  | None => None
  end.

(** ** The storage monad *)

Inductive DbError :=
  | UniqueViolation
  | ForeignKeyViolation
  | InvalidTextRepresentation
  | StringDataRightTruncation
  | SequenceGeneratorLimitExceeded.

#[global] Instance DbError_eq_dec : EqDecision DbError.
Proof. solve_decision. Defined.

(** A storage method reads and writes the database and either returns a
    value or rejects with a database error. *)
Definition Storage (A : Type) : Type := Db -> Db * (DbError + A).

Definition sret {A} (a : A) : Storage A := fun db => (db, inr a).
Definition sthrow {A} (e : DbError) : Storage A := fun db => (db, inl e).
Definition sbind {A B} (m : Storage A) (k : A -> Storage B) : Storage B :=
  fun db =>
    match m db with
    | (db', inr a) => k a db'
    | (db', inl e) => (db', inl e)
    end.
Definition sget : Storage Db := fun db => (db, inr db).
Definition sput (db' : Db) : Storage unit := fun _ => (db', inr tt).

#[global] Instance Storage_ret : MRet Storage := @sret.
#[global] Instance Storage_bind : MBind Storage :=
  fun A B k m => sbind m k.

(** An [integer] parameter bound from a JavaScript number. *)
Definition bind_int4 (n : number) : Storage Z :=
  match pg_int4 n with
  | Some z => sret z
  | None => sthrow InvalidTextRepresentation
  end.

(** Strings are kept as their UTF-8 bytes.  A byte [10xxxxxx] continues a
    character; every other byte starts one. *)
Definition starts_char (c : ascii) : bool :=
  negb (bool_decide (128 <= nat_of_ascii c < 192)%nat).

(** [char_length]: the characters (code points) of a string, which is
    what PostgreSQL counts for [varchar(n)]. *)
Fixpoint char_length (s : string) : nat :=
  match s with
  | EmptyString => 0
  | String c s' => (if starts_char c then 1 else 0) + char_length s'
  end%nat.

(** The UTF-16 code units a character takes in a JavaScript string, by
    its first byte: two for a character of four bytes, one otherwise. *)
Definition utf16_units (c : ascii) : nat :=
  if starts_char c then (if bool_decide (240 <= nat_of_ascii c)%nat then 2 else 1)%nat
  else 0%nat.

(** [s.length] in JavaScript. *)
Fixpoint utf16_length (s : string) : nat :=
  match s with
  | EmptyString => 0
  | String c s' => utf16_units c + utf16_length s'
  end%nat.

(** The first [n] characters of a string, and what follows them. *)
Fixpoint split_chars (n : nat) (s : string) : string * string :=
  match s with
  | EmptyString => (EmptyString, EmptyString)
  | String c s' =>
      if starts_char c then
        match n with
        | O => (EmptyString, s)
        | S n' => let (kept, rest) := split_chars n' s' in (String c kept, rest)
        end
      else let (kept, rest) := split_chars n s' in (String c kept, rest)
  end.

Fixpoint all_spaces (s : string) : bool :=
  match s with
  | EmptyString => true
  | String c s' => bool_decide (c = " "%char) && all_spaces s'
  end.

(** A value assigned to a [varchar(n)] column: one of more than [n]
    characters is refused, unless all that follows the first [n] is
    spaces; the column stores the first [n] characters. *)
Definition varchar_ok (n : nat) (s : string) : bool :=
  all_spaces (split_chars n s).2.
Definition varchar_cut (n : nat) (s : string) : string :=
  (split_chars n s).1.
Definition varchar_opt_ok (n : nat) (s : option string) : bool :=
  from_option (varchar_ok n) true s.

(** ** Table updates *)

Definition with_users (us : list User) (db : Db) : Db :=
  mkDb us (stores db) (ratings db) (stores_id_seq db) (ratings_id_seq db).
Definition with_stores (ss : list Store) (db : Db) : Db :=
  mkDb (users db) ss (ratings db) (stores_id_seq db) (ratings_id_seq db).
Definition with_ratings (rs : list Rating) (db : Db) : Db :=
  mkDb (users db) (stores db) rs (stores_id_seq db) (ratings_id_seq db).

(** [nextval] on the sequence of a [serial] column.  The sequence is an
    [integer] one: once 2147483647 has been handed out, [nextval] raises.
    A sequence never rolls back: a value is consumed even when the
    statement fails later. *)
Definition serial_max : Z := 2147483647.

Definition nextval_stores : Storage Z := fun db =>
  if bool_decide (stores_id_seq db <= serial_max)
  then (mkDb (users db) (stores db) (ratings db) (stores_id_seq db + 1)
          (ratings_id_seq db),
        inr (stores_id_seq db))
  else (db, inl SequenceGeneratorLimitExceeded).
Definition nextval_ratings : Storage Z := fun db =>
  if bool_decide (ratings_id_seq db <= serial_max)
  then (mkDb (users db) (stores db) (ratings db) (stores_id_seq db)
          (ratings_id_seq db + 1),
        inr (ratings_id_seq db))
  else (db, inl SequenceGeneratorLimitExceeded).

(** Does some row satisfy [P]? *)
Definition exists_row {A} (P : A -> Prop) `{!forall x, Decision (P x)}
    (l : list A) : bool :=
  bool_decide (filter P l <> []).

(** The natural key of a rating. *)
Definition has_key (uid : string) (sid : Z) (r : Rating) : Prop :=
  rating_userId r = uid /\ rating_storeId r = sid.

#[global] Instance has_key_dec uid sid r : Decision (has_key uid sid r).
Proof. unfold has_key. apply _. Defined.

(** ** Inputs of the storage methods (the zod-inferred types) *)

Record InsertUser := mkInsertUser {
  iu_email : string;
  iu_name : string;
  iu_address : string;
  iu_password : string;
  iu_role : string
}.

(** [typeof users.$inferInsert]: only [id] is required.  A nullable
    column is left out ([None]), given as [null] ([Some None]) or given a
    value; [role] is left out or given a value. *)
Record UpsertUser := mkUpsertUser {
  uu_id : string;
  uu_email : option (option string);
  uu_firstName : option (option string);
  uu_lastName : option (option string);
  uu_profileImageUrl : option (option string);
  uu_createdAt : option (option Timestamp);
  uu_updatedAt : option (option Timestamp);
  uu_name : option (option string);
  uu_address : option (option string);
  uu_password : option (option string);
  uu_role : option string
}.

Record InsertStore := mkInsertStore {
  is_name : string;
  is_email : string;
  is_address : string;
  is_ownerId : option string
}.

(** [Partial<InsertStore>]: an absent field is left alone; [ownerId] can
    also be set to null. *)
Record PartialStore := mkPartialStore {
  ps_name : option string;
  ps_email : option string;
  ps_address : option string;
  ps_ownerId : option (option string)
}.

(** [InsertRating]: what [insertRatingSchema] lets through.  The two
    numeric fields are JavaScript numbers. *)
Record InsertRating := mkInsertRating {
  ir_userId : string;
  ir_storeId : Q;
  ir_rating : Q
}.

Record UserFilters := mkUserFilters {
  uf_role : option string;
  uf_search : option string
}.

Record StoreFilters := mkStoreFilters {
  sf_search : option string;
  sf_address : option string
}.

(** The user part joined to a rating: [Pick<User, 'id' | 'name' | 'email'>]. *)
Record UserView := mkUserView {
  uv_id : string;
  uv_name : option string;
  uv_email : option string
}.

Definition RatingWithUser : Type := Rating * UserView.

Record StoreStats := mkStoreStats {
  averageRating : Q;
  totalRatings : Z
}.

Record StoreWithRating := mkStoreWithRating {
  swr_store : Store;
  swr_averageRating : Q;
  swr_totalRatings : Z;
  swr_userRating : option Z
}.

Record DashboardStats := mkDashboardStats {
  totalUsers : Z;
  totalStores : Z;
  ds_totalRatings : Z
}.

(** What the clock and the random generator give one request. *)
Record Env := mkEnv {
  now : Timestamp;
  rnd : string
}.

(** ** SQL aggregates *)

Definition sum_ratings (rs : list Rating) : Z :=
  foldr (fun r acc => rating_rating r + acc) 0 rs.

(** A [numeric] keeps its digits in base 10000.  For a positive whole
    number, the position of its first base-10000 digit and that digit. *)
Fixpoint nbase_top (fuel : nat) (n : Z) : Z * Z :=
  match fuel with
  | O => (0, n)
  | S fuel' =>
      if n <? 10000 then (0, n)
      else let '(w, f) := nbase_top fuel' (n / 10000) in (w + 1, f)
  end.

Definition numeric_top (n : Z) : Z * Z :=
  nbase_top (Z.to_nat (Z.log2 (Z.abs n))) (Z.abs n).

(** The number of decimal places PostgreSQL gives the quotient of two
    whole numbers: enough for 16 significant digits, judged from the
    first base-10000 digits of the operands. *)
Definition select_div_scale (var1 var2 : Z) : Z :=
  let '(weight1, firstdigit1) := numeric_top var1 in
  let '(weight2, firstdigit2) := numeric_top var2 in
  let qweight := weight1 - weight2 - (if firstdigit1 <=? firstdigit2 then 1 else 0) in
  Z.min 1000 (Z.max 0 (16 - qweight * 4)).

(** [numeric] division of two whole numbers: the quotient at that many
    decimal places, rounded half away from zero. *)
Definition numeric_div (var1 var2 : Z) : Q :=
  let rscale := select_div_scale var1 var2 in
  let scaled := (2 * Z.abs var1 * 10 ^ rscale + Z.abs var2) / (2 * Z.abs var2) in
  Qmake (Z.sgn var1 * Z.sgn var2 * scaled) (Z.to_pos (10 ^ rscale)).

(** [AVG(rating)] over an [integer] column: NULL over no rows, else the
    [numeric] quotient of the sum by the count. *)
Definition sql_avg (rs : list Rating) : option Q :=
  match rs with
  | [] => None
  | _ :: _ => Some (numeric_div (sum_ratings rs) (Z.of_nat (length rs)))
  end.

(** [COUNT(id)]. *)
Definition sql_count {A} (rs : list A) : Z := Z.of_nat (length rs).

(** [COALESCE(x, 0)]. *)
Definition coalesce0 (x : option Q) : Q := default 0%Q x.

(** [2 ^ e] for a whole [e] of either sign. *)
Definition pow2 (e : Z) : Q :=
  match e with
  | Z0 => 1%Q
  | Zpos p => inject_Z (2 ^ Zpos p)
  | Zneg p => Qmake 1 (Z.to_pos (2 ^ Zpos p))
  end.

(** The binary exponent of a positive rational: [2 ^ e <= q < 2 ^ (e + 1)]. *)
Definition binade (q : Q) : Z :=
  let k := Z.log2 (Qnum q) - Z.log2 (Zpos (Qden q)) in
  if Qle_bool (pow2 k) q then k else k - 1.

Definition round_half_even (q : Q) : Z :=
  let f := Qfloor q in
  match Qcompare (q - inject_Z f) (1 # 2) with
  | Lt => f
  | Gt => f + 1
  | Eq => if Z.even f then f else f + 1
  end.

(** [Number(x)] on the decimal text the driver returns for a [numeric]:
    the nearest double, ties to even, as its exact value.  A double has
    53 significant bits and no exponent below -1022; the results of the
    aggregates here are far below the largest double. *)
Definition js_Number (q : Q) : Q :=
  if Qeq_bool q 0 then 0%Q
  else
    let a := Qabs q in
    let e := Z.max (binade a) (-1022) in
    let ulp := pow2 (e - 52) in
    ((if Qle_bool 0 q then 1 else -1) * (inject_Z (round_half_even (a / ulp)) * ulp))%Q.

(** [Number(x) || 0] on a numeric result: a zero (or NaN) falls through
    to the literal 0. *)
Definition number_or_0 (q : Q) : Q :=
  let x := js_Number q in if Qeq_bool x 0 then 0%Q else x.
Definition count_or_0 (z : Z) : Z := if bool_decide (z = 0) then 0 else z.

(** [ORDER BY created_at DESC]: PostgreSQL puts NULLs first there. *)
Definition created_desc (a b : option Timestamp) : Prop :=
  match a, b with
  | None, _ => True
  | Some _, None => False
  | Some x, Some y => y <= x
  end.

#[global] Instance created_desc_dec a b : Decision (created_desc a b).
Proof. destruct a, b; simpl; apply _. Defined.

(** ** DatabaseStorage (server/storage.ts) *)

Section DatabaseStorage.

(** bcrypt, the text pattern match of PostgreSQL and its collation
    order are used as given. *)
Variable bcrypt_hash : string -> string.
Variable bcrypt_compare : string -> string -> bool.
Variable ilike : string -> string -> bool.
Variable text_le : string -> string -> bool.

Definition getUser (id : string) : Storage (option User) :=
  db ← sget;
  mret (head (filter (fun u => user_id u = id) (users db))).

Definition with_name_role (name : option string) (role : string) (u : User) : User :=
  {| user_id := user_id u;
     user_email := user_email u;
     user_firstName := user_firstName u;
     user_lastName := user_lastName u;
     user_profileImageUrl := user_profileImageUrl u;
     user_createdAt := user_createdAt u;
     user_updatedAt := user_updatedAt u;
     user_name := name;
     user_address := user_address u;
     user_password := user_password u;
     user_role := role |}.

(** A row as the columns of [users] store it: [name] is a [varchar(60)],
    [role] a [varchar(20)]. *)
Definition users_row (row : User) : User :=
  with_name_role (varchar_cut 60 <$> user_name row) (varchar_cut 20 (user_role row)) row.

(** The checks of one [INSERT INTO users]: column widths, primary key,
    unique email. *)
Definition insert_user (row : User) : Storage User :=
  db ← sget;
  if negb (varchar_opt_ok 60 (user_name row) && varchar_ok 20 (user_role row))
  then sthrow StringDataRightTruncation
  else if exists_row (fun u => user_id u = user_id row) (users db)
  then sthrow UniqueViolation
  else if bool_decide (is_Some (user_email row))
          && exists_row (fun u => user_email u = user_email row) (users db)
  then sthrow UniqueViolation
  else
    _ ← sput (with_users (users db ++ [users_row row]) db);
    mret (users_row row).

(** The row [new] as it is stored in place of [old]: the columns that
    change go through the width of their type. *)
Definition users_update (old new : User) : User :=
  with_name_role
    (if bool_decide (user_name new = user_name old) then user_name new
     else varchar_cut 60 <$> user_name new)
    (if bool_decide (user_role new = user_role old) then user_role new
     else varchar_cut 20 (user_role new))
    new.

(** The row an [UPDATE users ... WHERE id = ...] leaves; the widths and
    the unique email are checked for the columns that change. *)
Definition update_user (id : string) (f : User -> User) : Storage (option User) :=
  db ← sget;
  match filter (fun u => user_id u = id) (users db) with
  | [] => mret None
  | u :: _ =>
      let u' := f u in
      if negb ((bool_decide (user_name u' = user_name u)
                || varchar_opt_ok 60 (user_name u'))
               && (bool_decide (user_role u' = user_role u)
                   || varchar_ok 20 (user_role u')))
      then sthrow StringDataRightTruncation
      else if bool_decide (is_Some (user_email u') /\ user_email u' <> user_email u)
              && exists_row (fun v => user_email v = user_email u' /\ user_id v <> id)
                   (users db)
      then sthrow UniqueViolation
      else
        _ ← sput (with_users
                    (map (fun v => if bool_decide (user_id v = id)
                                   then users_update v (f v) else v)
                         (users db)) db);
        mret (Some (users_update u u'))
  end.

(** A field of an upsert: left out, it keeps the old value of its column;
    given, also as [null], it replaces it. *)
Definition or_keep {A} (new : option A) (old : A) : A :=
  match new with Some a => a | None => old end.

(** [INSERT ... ON CONFLICT (id) DO UPDATE SET ...userData, updatedAt].
    A field that is absent from [userData] takes the column default on
    insert and is left alone on update; [updatedAt] is always set on
    update. *)
Definition upsertUser (userData : UpsertUser) (env : Env) : Storage (option User) :=
  db ← sget;
  if exists_row (fun u => user_id u = uu_id userData) (users db)
  then
    update_user (uu_id userData) (fun u =>
      {| user_id := uu_id userData;
         user_email := or_keep (uu_email userData) (user_email u);
         user_firstName := or_keep (uu_firstName userData) (user_firstName u);
         user_lastName := or_keep (uu_lastName userData) (user_lastName u);
         user_profileImageUrl :=
           or_keep (uu_profileImageUrl userData) (user_profileImageUrl u);
         user_createdAt := or_keep (uu_createdAt userData) (user_createdAt u);
         user_updatedAt := Some (now env);
         user_name := or_keep (uu_name userData) (user_name u);
         user_address := or_keep (uu_address userData) (user_address u);
         user_password := or_keep (uu_password userData) (user_password u);
         user_role := or_keep (uu_role userData) (user_role u) |})
  else
    u ← insert_user
      {| user_id := uu_id userData;
         user_email := or_keep (uu_email userData) None;
         user_firstName := or_keep (uu_firstName userData) None;
         user_lastName := or_keep (uu_lastName userData) None;
         user_profileImageUrl := or_keep (uu_profileImageUrl userData) None;
         user_createdAt := or_keep (uu_createdAt userData) (Some (now env));
         user_updatedAt := or_keep (uu_updatedAt userData) (Some (now env));
         user_name := or_keep (uu_name userData) None;
         user_address := or_keep (uu_address userData) None;
         user_password := or_keep (uu_password userData) None;
         user_role := or_keep (uu_role userData) "normal" |};
    mret (Some u).

(** The id is [local_${Date.now()}_${random}]. *)
Definition local_id (env : Env) : string :=
  "local_" +:+ pretty (now env) +:+ "_" +:+ rnd env.

Definition createLocalUser (userData : InsertUser) (env : Env) : Storage User :=
  let hashedPassword := bcrypt_hash (iu_password userData) in
  insert_user
    {| user_id := local_id env;
       user_email := Some (iu_email userData);
       user_firstName := None;
       user_lastName := None;
       user_profileImageUrl := None;
       user_createdAt := Some (now env);
       user_updatedAt := Some (now env);
       user_name := Some (iu_name userData);
       user_address := Some (iu_address userData);
       user_password := Some hashedPassword;
       user_role := iu_role userData |}.

Definition getUserByEmail (email : string) : Storage (option User) :=
  db ← sget;
  mret (head (filter (fun u => user_email u = Some email) (users db))).

(** A filter is applied when it is a non-empty string. *)
Definition truthy (s : option string) : option string :=
  match s with
  | Some x => if bool_decide (x = "") then None else Some x
  | None => None
  end.

Definition ilike_opt (col : option string) (pat : string) : bool :=
  from_option (fun c => ilike c pat) false col.

Definition user_matches (filters : UserFilters) (u : User) : bool :=
  match truthy (uf_role filters) with
  | Some r => bool_decide (user_role u = r)
  | None => true
  end
  &&
  match truthy (uf_search filters) with
  | Some s =>
      let pat := "%" +:+ s +:+ "%" in
      ilike_opt (user_name u) pat || ilike_opt (user_email u) pat
      || ilike_opt (user_address u) pat
  | None => true
  end.

(** [ORDER BY name ASC]: NULLs last. *)
Definition name_asc (a b : option string) : Prop :=
  match a, b with
  | _, None => True
  | None, Some _ => False
  | Some x, Some y => text_le x y
  end.

#[local] Instance name_asc_dec a b : Decision (name_asc a b).
Proof. destruct a, b; simpl; apply _. Defined.

Definition getAllUsers (filters : UserFilters) : Storage (list User) :=
  db ← sget;
  mret (merge_sort (fun a b => name_asc (user_name a) (user_name b))
          (filter (fun u => user_matches filters u) (users db))).

Definition set_role (role : string) (t : Timestamp) (u : User) : User :=
  {| user_id := user_id u;
     user_email := user_email u;
     user_firstName := user_firstName u;
     user_lastName := user_lastName u;
     user_profileImageUrl := user_profileImageUrl u;
     user_createdAt := user_createdAt u;
     user_updatedAt := Some t;
     user_name := user_name u;
     user_address := user_address u;
     user_password := user_password u;
     user_role := role |}.

Definition updateUserRole (id : string) (role : string) (env : Env)
    : Storage (option User) :=
  update_user id (set_role role (now env)).

(** [users.id] is referenced by [ratings.userId] and [stores.ownerId]
    with no [ON DELETE] action: a referenced user cannot be deleted. *)
Definition deleteUser (id : string) : Storage unit :=
  db ← sget;
  if exists_row (fun u => user_id u = id) (users db)
     && (exists_row (fun r => rating_userId r = id) (ratings db)
         || exists_row (fun s => store_ownerId s = Some id) (stores db))
  then sthrow ForeignKeyViolation
  else sput (with_users (filter (fun u => user_id u <> id) (users db)) db).

Definition set_password (hash : string) (t : Timestamp) (u : User) : User :=
  {| user_id := user_id u;
     user_email := user_email u;
     user_firstName := user_firstName u;
     user_lastName := user_lastName u;
     user_profileImageUrl := user_profileImageUrl u;
     user_createdAt := user_createdAt u;
     user_updatedAt := Some t;
     user_name := user_name u;
     user_address := user_address u;
     user_password := Some hash;
     user_role := user_role u |}.

(** [!user?.password]: no user, no password, or an empty password. *)
Definition stored_password (user : option User) : option string :=
  match user with
  | Some u => truthy (user_password u)
  | None => None
  end.

Definition updatePassword (userId currentPassword newPassword : string) (env : Env)
    : Storage bool :=
  user ← getUser userId;
  match stored_password user with
  | None => mret false
  | Some stored =>
      let isValid := bcrypt_compare currentPassword stored in
      if negb isValid then mret false
      else
        let hashedPassword := bcrypt_hash newPassword in
        _ ← update_user userId (set_password hashedPassword (now env));
        mret true
  end.

(** Store operations *)

(** [INSERT INTO stores].  An over-long name is refused when the
    statement is bound, before the sequence is asked for an id. *)
Definition createStore (storeData : InsertStore) (env : Env) : Storage Store :=
  if negb (varchar_ok 60 (is_name storeData))
  then sthrow StringDataRightTruncation
  else
  id ← nextval_stores;
  db ← sget;
  if exists_row (fun s => store_id s = id) (stores db)
  then sthrow UniqueViolation
  else
    match is_ownerId storeData with
    | Some o =>
        if exists_row (fun u => user_id u = o) (users db) then mret tt
        else sthrow ForeignKeyViolation
    | None => mret tt
    end ≫= fun _ =>
    let store :=
      {| store_id := id;
         store_name := varchar_cut 60 (is_name storeData);
         store_email := is_email storeData;
         store_address := is_address storeData;
         store_ownerId := is_ownerId storeData;
         store_createdAt := Some (now env);
         store_updatedAt := Some (now env) |} in
    _ ← sput (with_stores (stores db ++ [store]) db);
    mret store.

Definition ratings_of (db : Db) (storeId : Z) : list Rating :=
  filter (fun r => rating_storeId r = storeId) (ratings db).

Definition store_matches (filters : StoreFilters) (s : Store) : bool :=
  match truthy (sf_search filters) with
  | Some x => ilike (store_name s) ("%" +:+ x +:+ "%")
  | None => true
  end
  &&
  match truthy (sf_address filters) with
  | Some x => ilike (store_address s) ("%" +:+ x +:+ "%")
  | None => true
  end.

#[local] Instance text_le_dec a b : Decision (Is_true (text_le a b)).
Proof. apply _. Defined.

(** [stores LEFT JOIN ratings GROUP BY stores.id], then the [|| 0] map. *)
Definition getAllStores (filters : StoreFilters) : Storage (list StoreWithRating) :=
  db ← sget;
  let results :=
    merge_sort (fun a b => text_le (store_name a) (store_name b))
      (filter (fun s => store_matches filters s) (stores db)) in
  mret (map (fun s =>
          {| swr_store := s;
             swr_averageRating :=
               number_or_0 (coalesce0 (sql_avg (ratings_of db (store_id s))));
             swr_totalRatings :=
               count_or_0 (sql_count (ratings_of db (store_id s)));
             swr_userRating := None |}) results).

Definition getStoreById (id : number) : Storage (option Store) :=
  i ← bind_int4 id;
  db ← sget;
  mret (head (filter (fun s => store_id s = i) (stores db))).

Definition getStoresByOwner (ownerId : string) : Storage (list Store) :=
  db ← sget;
  mret (filter (fun s => store_ownerId s = Some ownerId) (stores db)).

Definition patch_store (p : PartialStore) (t : Timestamp) (s : Store) : Store :=
  {| store_id := store_id s;
     store_name := default (store_name s) (ps_name p);
     store_email := default (store_email s) (ps_email p);
     store_address := default (store_address s) (ps_address p);
     store_ownerId := default (store_ownerId s) (ps_ownerId p);
     store_createdAt := store_createdAt s;
     store_updatedAt := Some t |}.

(** The fields of an update as the columns of [stores] store them:
    [name] is a [varchar(60)]. *)
Definition stores_patch (p : PartialStore) : PartialStore :=
  {| ps_name := varchar_cut 60 <$> ps_name p;
     ps_email := ps_email p;
     ps_address := ps_address p;
     ps_ownerId := ps_ownerId p |}.

Definition updateStore (id : number) (storeData : PartialStore) (env : Env)
    : Storage (option Store) :=
  i ← bind_int4 id;
  db ← sget;
  match filter (fun s => store_id s = i) (stores db) with
  | [] => mret None
  | s :: _ =>
      if negb (from_option (varchar_ok 60) true (ps_name storeData))
      then sthrow StringDataRightTruncation
      else
        match ps_ownerId storeData with
        | Some (Some o) =>
            if exists_row (fun u => user_id u = o) (users db) then mret tt
            else sthrow ForeignKeyViolation
        | _ => mret tt
        end ≫= fun _ =>
        _ ← sput (with_stores
                    (map (fun s' => if bool_decide (store_id s' = i)
                                    then patch_store (stores_patch storeData) (now env) s'
                                    else s')
                         (stores db)) db);
        mret (Some (patch_store (stores_patch storeData) (now env) s))
  end.

(** [ratings.storeId] references [stores.id] with no [ON DELETE] action:
    a store that still has ratings cannot be deleted. *)
Definition deleteStore (id : number) : Storage unit :=
  i ← bind_int4 id;
  db ← sget;
  if exists_row (fun s => store_id s = i) (stores db)
     && exists_row (fun r => rating_storeId r = i) (ratings db)
  then sthrow ForeignKeyViolation
  else sput (with_stores (filter (fun s => store_id s <> i) (stores db)) db).

(** Rating operations *)

Definition set_rating (value : Z) (t : Timestamp) (r : Rating) : Rating :=
  {| rating_id := rating_id r;
     rating_userId := rating_userId r;
     rating_storeId := rating_storeId r;
     rating_rating := value;
     rating_createdAt := rating_createdAt r;
     rating_updatedAt := Some t |}.

(** What [DO UPDATE SET] does to a row: the conflicting one gets the new
    value and [updatedAt], every other row stays. *)
Definition upsert_row (uid : string) (sid value : Z) (t : Timestamp) (r : Rating)
    : Rating :=
  if bool_decide (has_key uid sid r) then set_rating value t r else r.

(** [INSERT ... ON CONFLICT (user_id, store_id) DO UPDATE SET rating,
    updated_at RETURNING *], one atomic statement. *)
Definition createOrUpdateRating (ratingData : InsertRating) (env : Env)
    : Storage Rating :=
  storeId ← bind_int4 (Some (ir_storeId ratingData));
  value ← bind_int4 (Some (ir_rating ratingData));
  id ← nextval_ratings;
  db ← sget;
  match filter (has_key (ir_userId ratingData) storeId) (ratings db) with
  | r :: _ =>
      _ ← sput (with_ratings
                  (map (upsert_row (ir_userId ratingData) storeId value (now env))
                       (ratings db)) db);
      mret (set_rating value (now env) r)
  | [] =>
      if exists_row (fun r => rating_id r = id) (ratings db)
      then sthrow UniqueViolation
      else if negb (exists_row (fun u => user_id u = ir_userId ratingData) (users db)
                    && exists_row (fun s => store_id s = storeId) (stores db))
      then sthrow ForeignKeyViolation
      else
        let rating :=
          {| rating_id := id;
             rating_userId := ir_userId ratingData;
             rating_storeId := storeId;
             rating_rating := value;
             rating_createdAt := Some (now env);
             rating_updatedAt := Some (now env) |} in
        _ ← sput (with_ratings (ratings db ++ [rating]) db);
        mret rating
  end.

Definition view_of (u : User) : UserView :=
  {| uv_id := user_id u; uv_name := user_name u; uv_email := user_email u |}.

(** [ratings INNER JOIN users], newest first. *)
Definition getRatingsByStore (storeId : number) : Storage (list RatingWithUser) :=
  i ← bind_int4 storeId;
  db ← sget;
  let joined :=
    r ← ratings_of db i;
    u ← filter (fun u => user_id u = rating_userId r) (users db);
    [(r, view_of u)] in
  mret (merge_sort
          (fun a b => created_desc (rating_createdAt (a.1)) (rating_createdAt (b.1)))
          joined).

Definition getUserRatingForStore (userId : string) (storeId : number)
    : Storage (option Rating) :=
  i ← bind_int4 storeId;
  db ← sget;
  mret (head (filter (has_key userId i) (ratings db))).

Definition getStoreStats (storeId : number) : Storage StoreStats :=
  i ← bind_int4 storeId;
  db ← sget;
  let rows := ratings_of db i in
  mret {| averageRating := number_or_0 (coalesce0 (sql_avg rows));
          totalRatings := count_or_0 (sql_count rows) |}.

Definition getDashboardStats : Storage DashboardStats :=
  db ← sget;
  mret {| totalUsers := count_or_0 (sql_count (users db));
          totalStores := count_or_0 (sql_count (stores db));
          ds_totalRatings := count_or_0 (sql_count (ratings db)) |}.

End DatabaseStorage.

(** ** Request bodies and the zod schemas (shared/schema.ts) *)

(** A JSON value of a request body; arrays and objects are not told apart. *)
Inductive JVal :=
  | JNull
  | JBool (b : bool)
  | JNum (q : Q)
  | JStr (s : string)
  | JObject.

(** A request body is a JSON object: a finite map from keys to values. *)
Abbreviation Body := (gmap string JVal).

(** A [ZodError]: the messages of its issues. *)
Definition ZodError := list string.

Definition received (v : option JVal) : string :=
  match v with
  | None => "undefined"
  | Some JNull => "null"
  | Some (JBool _) => "boolean"
  | Some (JNum _) => "number"
  | Some (JStr _) => "string"
  | Some JObject => "object"
  end.

Definition invalid_type (expected : string) (v : option JVal) : ZodError :=
  match v with
  | None => ["Required"]
  | Some _ => ["Expected " +:+ expected +:+ ", received " +:+ received v]
  end.

(** One refinement of a value: its message when the test fails. *)
Definition check {A} (test : A -> bool) (message : string) (a : A) : ZodError :=
  if test a then [] else [message].

(** [z.string()] followed by refinements. *)
Definition z_string (checks : list (string -> ZodError)) (v : option JVal)
    : ZodError + string :=
  match v with
  | Some (JStr s) =>
      match concat (map (fun c => c s) checks) with
      | [] => inr s
      | issues => inl issues
      end
  | _ => inl (invalid_type "string" v)
  end.

(** [z.number()] followed by refinements. *)
Definition z_number (checks : list (Q -> ZodError)) (v : option JVal)
    : ZodError + Q :=
  match v with
  | Some (JNum q) =>
      match concat (map (fun c => c q) checks) with
      | [] => inr q
      | issues => inl issues
      end
  | _ => inl (invalid_type "number" v)
  end.

(** [z.enum([...])]. *)
Definition z_enum (values : list string) (v : option JVal) : ZodError + string :=
  match v with
  | Some (JStr s) =>
      if bool_decide (s ∈ values) then inr s else inl ["Invalid enum value"]
  | _ => inl (invalid_type "enum" v)
  end.

(** A nullable, optional string column. *)
Definition z_string_nullish (v : option JVal) : ZodError + option string :=
  match v with
  | None | Some JNull => inr None
  | Some (JStr s) => inr (Some s)
  | _ => inl (invalid_type "string" v)
  end.

(** [schema.optional()]. *)
Definition z_optional {A} (schema : option JVal -> ZodError + A) (v : option JVal)
    : ZodError + option A :=
  match v with
  | None => inr None
  | Some _ => match schema v with inr a => inr (Some a) | inl e => inl e end
  end.

Definition issues {A} (r : ZodError + A) : ZodError :=
  match r with inl e => e | inr _ => [] end.

(** [.min(n)] and [.max(n)] on a string compare its [length], in UTF-16
    code units. *)
Definition min_length (n : nat) (s : string) : bool :=
  bool_decide (n <= utf16_length s)%nat.
Definition max_length (n : nat) (s : string) : bool :=
  bool_decide (utf16_length s <= n)%nat.

(** [/[A-Z]/]. *)
Definition is_upper (c : ascii) : bool :=
  bool_decide (65 <= nat_of_ascii c <= 90)%nat.
Definition has_uppercase (s : string) : bool :=
  existsb is_upper (String.list_ascii_of_string s).

(** The class of the second password pattern; code 34 is the double quote. *)
Definition special_chars : list ascii :=
  ascii_of_nat 34 :: String.list_ascii_of_string "!@#$%^&*(),.?:{}|<>".
Definition has_special (s : string) : bool :=
  existsb (fun c => bool_decide (c ∈ special_chars)) (String.list_ascii_of_string s).

Definition password_checks : list (string -> ZodError) :=
  [ check (min_length 8) "Password must be at least 8 characters";
    check (max_length 16) "Password must not exceed 16 characters";
    check has_uppercase "Password must contain at least one uppercase letter";
    check has_special "Password must contain at least one special character" ].

Definition roles_enum : list string := ["admin"; "normal"; "store_owner"].

Record UpdatePassword := mkUpdatePassword {
  up_currentPassword : string;
  up_newPassword : string
}.

Section Schemas.

(** The email pattern of zod is used as given. *)
Variable zod_email : string -> bool.

Definition insertUserSchema (body : Body) : ZodError + InsertUser :=
  let email := z_string [check zod_email "Invalid email format"] (body !! "email") in
  let name :=
    z_string [ check (min_length 20) "Name must be at least 20 characters";
               check (max_length 60) "Name must not exceed 60 characters" ]
             (body !! "name") in
  let address :=
    z_string [check (max_length 400) "Address must not exceed 400 characters"]
             (body !! "address") in
  let password := z_string password_checks (body !! "password") in
  let role := z_enum roles_enum (body !! "role") in
  match email, name, address, password, role with
  | inr e, inr n, inr a, inr p, inr r =>
      inr {| iu_email := e; iu_name := n; iu_address := a;
             iu_password := p; iu_role := r |}
  | _, _, _, _, _ =>
      inl (issues email ++ issues name ++ issues address
           ++ issues password ++ issues role)
  end.

Definition store_name_schema :=
  z_string [ check (min_length 1) "Store name is required";
             check (max_length 60) "Store name must not exceed 60 characters" ].
Definition store_email_schema :=
  z_string [check zod_email "Invalid email format"].
Definition store_address_schema :=
  z_string [check (max_length 400) "Address must not exceed 400 characters"].

Definition insertStoreSchema (body : Body) : ZodError + InsertStore :=
  let name := store_name_schema (body !! "name") in
  let email := store_email_schema (body !! "email") in
  let address := store_address_schema (body !! "address") in
  let ownerId := z_string_nullish (body !! "ownerId") in
  match name, email, address, ownerId with
  | inr n, inr e, inr a, inr o =>
      inr {| is_name := n; is_email := e; is_address := a; is_ownerId := o |}
  | _, _, _, _ =>
      inl (issues name ++ issues email ++ issues address ++ issues ownerId)
  end.

(** [insertStoreSchema.partial()]: a present [ownerId] may still be null. *)
Definition insertStoreSchema_partial (body : Body) : ZodError + PartialStore :=
  let name := z_optional store_name_schema (body !! "name") in
  let email := z_optional store_email_schema (body !! "email") in
  let address := z_optional store_address_schema (body !! "address") in
  let ownerId := z_optional z_string_nullish (body !! "ownerId") in
  match name, email, address, ownerId with
  | inr n, inr e, inr a, inr o =>
      inr {| ps_name := n; ps_email := e; ps_address := a; ps_ownerId := o |}
  | _, _, _, _ =>
      inl (issues name ++ issues email ++ issues address ++ issues ownerId)
  end.

(** What [createInsertSchema] makes of an [integer] column: a whole
    number in the 32-bit range. *)
Definition int4_checks : list (Q -> ZodError) :=
  [ check (fun q => Qle_bool (inject_Z (-2147483648)) q)
      "Number must be greater than or equal to -2147483648";
    check (fun q => Qle_bool q (inject_Z 2147483647))
      "Number must be less than or equal to 2147483647";
    check is_integer "Expected integer, received float" ].

(** [storeId] keeps the schema of its [integer] column; [rating] is
    replaced by [z.number().min(1).max(5)]: a number, not asked to be
    whole. *)
Definition insertRatingSchema (body : Body) : ZodError + InsertRating :=
  let userId := z_string [] (body !! "userId") in
  let storeId := z_number int4_checks (body !! "storeId") in
  let rating :=
    z_number [ check (fun q => Qle_bool 1 q) "Rating must be at least 1";
               check (fun q => Qle_bool q 5) "Rating must not exceed 5" ]
             (body !! "rating") in
  match userId, storeId, rating with
  | inr u, inr s, inr r =>
      inr {| ir_userId := u; ir_storeId := s; ir_rating := r |}
  | _, _, _ => inl (issues userId ++ issues storeId ++ issues rating)
  end.

Definition updatePasswordSchema (body : Body) : ZodError + UpdatePassword :=
  let currentPassword :=
    z_string [check (min_length 1) "Current password is required"]
             (body !! "currentPassword") in
  let newPassword := z_string password_checks (body !! "newPassword") in
  match currentPassword, newPassword with
  | inr c, inr n => inr {| up_currentPassword := c; up_newPassword := n |}
  | _, _ => inl (issues currentPassword ++ issues newPassword)
  end.

End Schemas.

(** ** Sessions, requests and responses (server/routes.ts) *)


(** What the handlers keep in [req.session].  The store drops a session
    [cookie_maxAge] after the request that last touched it; the state has
    no clock of its own, so what it says of a later request on a session
    is said of a request inside that time. *)
Record Session := mkSession {
  session_userId : option string;
  session_userRole : option string
}.

Definition empty_session : Session := mkSession None None.

(** The state of the server: the database and the session store, keyed by
    session id. *)
Record World := mkWorld {
  db : Db;
  sessions : gmap string Session
}.

Definition empty_world : World := mkWorld empty_db ∅.

Inductive Request :=
  | PostLogin (body : Body)
  | PostLogout
  | GetAuthUser
  | PostRegister (body : Body)
  | PutPassword (body : Body)
  | GetAdminStats
  | GetAdminUsers (role search : option string)
  | PostAdminUsers (body : Body)
  | PutAdminUserRole (id : string) (body : Body)
  | DeleteAdminUser (id : string)
  | GetStores (search address : option string)
  | PostAdminStores (body : Body)
  | PutAdminStore (id : number) (body : Body)
  | DeleteAdminStore (id : number)
  | PostRatings (body : Body)
  | GetOwnerStores
  | GetOwnerRatings (storeId : number).

(** The JSON a handler sends. *)
Inductive Payload :=
  | PMessage (message : string)
  | PValidation (errors : ZodError)
  | PUserSummary (id : string) (name email : option string) (role : string)
  | PAuthUser (id : string) (name : string) (email : option string)
              (role : string) (address : option string)
  | PUser (user : option User)
  | PUsers (users : list User)
  | PDashboard (stats : DashboardStats)
  | PStore (store : option Store)
  | PStores (stores : list Store)
  | PStoresWithRating (stores : list StoreWithRating)
  | PRating (rating : Rating)
  | POwnerRatings (ratings : list RatingWithUser) (stats : StoreStats).

Record Response := mkResponse {
  status : Z;
  payload : Payload
}.

Definition json_message (code : Z) (m : string) : Response :=
  mkResponse code (PMessage m).
Definition validation_error (errors : ZodError) : Response :=
  mkResponse 400 (PValidation errors).
Definition internal_error : Response :=
  json_message 500 "Internal server error".

(** The error kinds of the API, read off the HTTP status of a response:
    400 bad request, 401 unauthorized, 403 forbidden, 404 not found,
    409 conflict, 5xx server error. *)
Inductive ErrorKind :=
  | ValidationError
  | Unauthenticated
  | PermissionDenied
  | NotFound
  | Conflict
  | InternalError.

Definition error_kind (r : Response) : option ErrorKind :=
  if bool_decide (status r = 400) then Some ValidationError
  else if bool_decide (status r = 401) then Some Unauthenticated
  else if bool_decide (status r = 403) then Some PermissionDenied
  else if bool_decide (status r = 404) then Some NotFound
  else if bool_decide (status r = 409) then Some Conflict
  else if bool_decide (500 <= status r) then Some InternalError
  else None.

Inductive Middleware :=
  | RequireAuth
  | RequireRole (roles : list string).

(** The middlewares each route is registered with. *)
Definition middlewares (req : Request) : list Middleware :=
  match req with
  | PostLogin _ => []
  | PostLogout => []
  | GetAuthUser => [RequireAuth]
  | PostRegister _ => []
  | PutPassword _ => [RequireAuth]
  | GetAdminStats => [RequireAuth; RequireRole ["admin"]]
  | GetAdminUsers _ _ => [RequireAuth; RequireRole ["admin"]]
  | PostAdminUsers _ => [RequireAuth; RequireRole ["admin"]]
  | PutAdminUserRole _ _ => [RequireAuth; RequireRole ["admin"]]
  | DeleteAdminUser _ => [RequireAuth; RequireRole ["admin"]]
  | GetStores _ _ => [RequireAuth]
  | PostAdminStores _ => [RequireAuth; RequireRole ["admin"]]
  | PutAdminStore _ _ => [RequireAuth; RequireRole ["admin"]]
  | DeleteAdminStore _ => [RequireAuth; RequireRole ["admin"]]
  | PostRatings _ => [RequireAuth; RequireRole ["normal"]]
  | GetOwnerStores => [RequireAuth; RequireRole ["store_owner"]]
  | GetOwnerRatings _ => [RequireAuth; RequireRole ["store_owner"]]
  end.

(** A value that is falsy in a JavaScript condition. *)
Definition falsy (v : option JVal) : bool :=
  match v with
  | None | Some JNull | Some (JBool false) => true
  | Some (JNum q) => Qeq_bool q 0
  | Some (JStr s) => bool_decide (s = "")
  | _ => false
  end.

Definition is_space (c : ascii) : bool :=
  bool_decide (nat_of_ascii c ∈ [9; 10; 11; 12; 13; 32]%nat).

Fixpoint trim_start (s : string) : string :=
  match s with
  | String c s' => if is_space c then trim_start s' else s
  | EmptyString => EmptyString
  end.

Definition js_trim (s : string) : string :=
  String.rev (trim_start (String.rev (trim_start s))).

(** A [try] block: whatever the storage layer throws ends as a 500. *)
Definition catch (m : Storage Response) : Db -> Db * Response :=
  fun d =>
    match m d with
    | (d', inr r) => (d', r)
    | (d', inl _) => (d', internal_error)
    end.

(** A handler that only touches the database. *)
Definition on_db (f : Db -> Db * Response) (w : World) : World * Response :=
  (mkWorld (f (db w)).1 (sessions w), (f (db w)).2).

Section Routes.

Variable bcrypt_hash : string -> string.
Variable bcrypt_compare : string -> string -> bool.
Variable ilike : string -> string -> bool.
Variable text_le : string -> string -> bool.
Variable zod_email : string -> bool.

Definition user_summary (code : Z) (user : User) : Response :=
  mkResponse code
    (PUserSummary (user_id user) (user_name user) (user_email user) (user_role user)).

Definition log_in (sid : string) (user : User) (w : World) : World :=
  mkWorld (db w)
    (<[sid := mkSession (Some (user_id user)) (Some (user_role user))]> (sessions w)).

(** [authenticateLocal], the handler of POST /api/auth/login, for a body
    whose email and password are strings.  A truthy value of another type
    takes the code off the types it is written for: the query compares
    the column with the text of the value, and [bcrypt.compare] rejects
    what is no string, outside any [try].  Such a request leaves the world
    as it was; its answer is not modelled, and stands as a 500 here. *)
Definition authenticateLocal (sid : string) (body : Body) (w : World)
    : World * Response :=
  if falsy (body !! "email") || falsy (body !! "password")
  then (w, json_message 400 "Email and password required")
  else
    match body !! "email", body !! "password" with
    | Some (JStr email), Some (JStr password) =>
        match (getUserByEmail email (db w)).2 with
        | inr user =>
            match stored_password user, user with
            | Some hash, Some u =>
                if bcrypt_compare password hash
                then (log_in sid u w, user_summary 200 u)
                else (w, json_message 401 "Invalid credentials")
            | _, _ => (w, json_message 401 "Invalid credentials")
            end
        | inl _ => (w, internal_error)
        end
    | _, _ => (w, internal_error)
    end.

(** Session-based auth check: the user is read again on every request. *)
Definition requireAuth (session : Session) (d : Db) : Response + User :=
  match truthy (session_userId session) with
  | None => inl (json_message 401 "Unauthorized")
  | Some userId =>
      match (getUser userId d).2 with
      | inr (Some user) => inr user
      | _ => inl (json_message 401 "User not found")
      end
  end.

Definition requireRole (roles : list string) (currentUser : option User)
    : Response + unit :=
  match currentUser with
  | Some user =>
      if bool_decide (user_role user ∈ roles) then inr tt
      else inl (json_message 403 "Insufficient permissions")
  | None => inl (json_message 403 "Insufficient permissions")
  end.

(** Runs a route's middlewares in order; the first refusal is the answer. *)
Fixpoint run_middlewares (ms : list Middleware) (session : Session) (d : Db)
    (currentUser : option User) : Response + option User :=
  match ms with
  | [] => inr currentUser
  | RequireAuth :: ms' =>
      match requireAuth session d with
      | inl r => inl r
      | inr user => run_middlewares ms' session d (Some user)
      end
  | RequireRole roles :: ms' =>
      match requireRole roles currentUser with
      | inl r => inl r
      | inr _ => run_middlewares ms' session d currentUser
      end
  end.

Definition logout (sid : string) (w : World) : World * Response :=
  (mkWorld (db w) (delete sid (sessions w)),
   json_message 200 "Logged out successfully").

Definition display_name (user : User) : string :=
  match truthy (user_name user) with
  | Some n => n
  | None =>
      js_trim (default "" (user_firstName user) +:+ " "
               +:+ default "" (user_lastName user))
  end.

Definition auth_user (user : User) : Response :=
  mkResponse 200
    (PAuthUser (user_id user) (display_name user) (user_email user)
               (user_role user) (user_address user)).

Definition force_normal (userData : InsertUser) : InsertUser :=
  {| iu_email := iu_email userData;
     iu_name := iu_name userData;
     iu_address := iu_address userData;
     iu_password := iu_password userData;
     iu_role := "normal" |}.

(** POST /api/auth/register *)
Definition register (sid : string) (body : Body) (env : Env) (w : World)
    : World * Response :=
  match insertUserSchema zod_email body with
  | inl errors => (w, validation_error errors)
  | inr userData =>
      match (getUserByEmail (iu_email userData) (db w)).2 with
      | inr (Some _) => (w, json_message 400 "User already exists with this email")
      | inr None =>
          match createLocalUser bcrypt_hash (force_normal userData) env (db w) with
          | (d', inr user) =>
              (log_in sid user (mkWorld d' (sessions w)), user_summary 201 user)
          | (d', inl _) => (mkWorld d' (sessions w), internal_error)
          end
      | inl _ => (w, internal_error)
      end
  end.

(** PUT /api/auth/password *)
Definition change_password (user : User) (body : Body) (env : Env)
    : Db -> Db * Response :=
  catch
    match updatePasswordSchema body with
    | inl errors => mret (validation_error errors)
    | inr data =>
        success ← updatePassword bcrypt_hash bcrypt_compare (user_id user)
                    (up_currentPassword data) (up_newPassword data) env;
        if negb success
        then mret (json_message 400 "Current password is incorrect")
        else mret (json_message 200 "Password updated successfully")
    end.

Definition admin_stats : Db -> Db * Response :=
  catch (stats ← getDashboardStats; mret (mkResponse 200 (PDashboard stats))).

Definition admin_users (role search : option string) : Db -> Db * Response :=
  catch (users ← getAllUsers ilike text_le (mkUserFilters role search);
         mret (mkResponse 200 (PUsers users))).

Definition admin_create_user (body : Body) (env : Env) : Db -> Db * Response :=
  catch
    match insertUserSchema zod_email body with
    | inl errors => mret (validation_error errors)
    | inr userData =>
        existingUser ← getUserByEmail (iu_email userData);
        match existingUser with
        | Some _ => mret (json_message 400 "User already exists with this email")
        | None =>
            user ← createLocalUser bcrypt_hash userData env;
            mret (mkResponse 201 (PUser (Some user)))
        end
    end.

Definition admin_set_role (id : string) (body : Body) (env : Env)
    : Db -> Db * Response :=
  catch
    match body !! "role" with
    | Some (JStr role) =>
        if bool_decide (role ∈ roles_enum)
        then user ← updateUserRole id role env;
             mret (mkResponse 200 (PUser user))
        else mret (json_message 400 "Invalid role")
    | _ => mret (json_message 400 "Invalid role")
    end.

Definition admin_delete_user (id : string) : Db -> Db * Response :=
  catch (_ ← deleteUser id; mret (json_message 200 "User deleted successfully")).

Definition with_user_rating (userId : string) (s : StoreWithRating)
    : Storage StoreWithRating :=
  userRating ← getUserRatingForStore userId (num (store_id (swr_store s)));
  mret {| swr_store := swr_store s;
          swr_averageRating := swr_averageRating s;
          swr_totalRatings := swr_totalRatings s;
          swr_userRating := rating_rating <$> userRating |}.

(** GET /api/stores *)
Definition list_stores (user : User) (search address : option string)
    : Db -> Db * Response :=
  catch (stores ← getAllStores ilike text_le (mkStoreFilters search address);
         stores' ← (if bool_decide (user_role user = "normal")
                    then mapM (with_user_rating (user_id user)) stores
                    else mret stores);
         mret (mkResponse 200 (PStoresWithRating stores'))).

Definition admin_create_store (body : Body) (env : Env) : Db -> Db * Response :=
  catch
    match insertStoreSchema zod_email body with
    | inl errors => mret (validation_error errors)
    | inr storeData =>
        store ← createStore storeData env;
        mret (mkResponse 201 (PStore (Some store)))
    end.

Definition admin_update_store (id : number) (body : Body) (env : Env)
    : Db -> Db * Response :=
  catch
    match insertStoreSchema_partial zod_email body with
    | inl errors => mret (validation_error errors)
    | inr storeData =>
        store ← updateStore id storeData env;
        mret (mkResponse 200 (PStore store))
    end.

Definition admin_delete_store (id : number) : Db -> Db * Response :=
  catch (_ ← deleteStore id; mret (json_message 200 "Store deleted successfully")).

(** POST /api/ratings: the body's own [userId] is overwritten by the
    current user's. *)
Definition submit_rating (user : User) (body : Body) (env : Env)
    : Db -> Db * Response :=
  catch
    match insertRatingSchema (<["userId" := JStr (user_id user)]> body) with
    | inl errors => mret (validation_error errors)
    | inr ratingData =>
        rating ← createOrUpdateRating ratingData env;
        mret (mkResponse 200 (PRating rating))
    end.

Definition owner_stores (user : User) : Db -> Db * Response :=
  catch (stores ← getStoresByOwner (user_id user);
         mret (mkResponse 200 (PStores stores))).

(** GET /api/store-owner/ratings/:storeId *)
Definition owner_store_ratings (user : User) (storeId : number)
    : Db -> Db * Response :=
  catch (store ← getStoreById storeId;
         match store with
         | Some s =>
             if bool_decide (store_ownerId s <> Some (user_id user))
             then mret (json_message 403 "Access denied")
             else
               ratings ← getRatingsByStore storeId;
               stats ← getStoreStats storeId;
               mret (mkResponse 200 (POwnerRatings ratings stats))
         | None => mret (json_message 403 "Access denied")
         end).

(** The handler of a route, after its middlewares let the request pass. *)
Definition handler (env : Env) (sid : string) (req : Request)
    (currentUser : option User) (w : World) : World * Response :=
  match req, currentUser with
  | PostLogin body, _ => authenticateLocal sid body w
  | PostLogout, _ => logout sid w
  | PostRegister body, _ => register sid body env w
  | GetAuthUser, Some user => (w, auth_user user)
  | PutPassword body, Some user => on_db (change_password user body env) w
  | GetAdminStats, _ => on_db admin_stats w
  | GetAdminUsers role search, _ => on_db (admin_users role search) w
  | PostAdminUsers body, _ => on_db (admin_create_user body env) w
  | PutAdminUserRole id body, _ => on_db (admin_set_role id body env) w
  | DeleteAdminUser id, _ => on_db (admin_delete_user id) w
  | GetStores search address, Some user => on_db (list_stores user search address) w
  | PostAdminStores body, _ => on_db (admin_create_store body env) w
  | PutAdminStore id body, _ => on_db (admin_update_store id body env) w
  | DeleteAdminStore id, _ => on_db (admin_delete_store id) w
  | PostRatings body, Some user => on_db (submit_rating user body env) w
  | GetOwnerStores, Some user => on_db (owner_stores user) w
  | GetOwnerRatings storeId, Some user => on_db (owner_store_ratings user storeId) w
  | _, None => (w, internal_error)
  end.

(** One request on the session [sid]: middlewares, then the handler. *)
Definition handle (env : Env) (sid : string) (req : Request) (w : World)
    : World * Response :=
  let session := default empty_session (sessions w !! sid) in
  match run_middlewares (middlewares req) session (db w) None with
  | inl refusal => (w, refusal)
  | inr currentUser => handler env sid req currentUser w
  end.

(** A run of requests, each with its environment and session id. *)
Definition run (trace : list (Env * string * Request)) (w : World) : World :=
  foldl (fun w '(env, sid, req) => (handle env sid req w).1) w trace.

End Routes.

(** ** Reachable databases and the constraints of the schema *)

Definition rating_key (r : Rating) : string * Z :=
  (rating_userId r, rating_storeId r).

(** The constraints on [ratings] that the schema declares: the unique
    pair, ids handed out by the sequence, and the two foreign keys. *)
Record db_ok (d : Db) : Prop := mk_db_ok {
  ok_keys : NoDup (map rating_key (ratings d));
  ok_ids : Forall (fun r => rating_id r < ratings_id_seq d) (ratings d);
  ok_store_fk :
    Forall (fun r => exists s, s ∈ stores d /\ store_id s = rating_storeId r) (ratings d);
  ok_user_fk :
    Forall (fun r => exists u, u ∈ users d /\ user_id u = rating_userId r) (ratings d)
}.

Section Reachable.

Variable bcrypt_hash : string -> string.
Variable bcrypt_compare : string -> string -> bool.

(** The writing methods of [IStorage]. *)
Inductive StorageCall :=
  | CallUpsertUser (userData : UpsertUser) (env : Env)
  | CallCreateLocalUser (userData : InsertUser) (env : Env)
  | CallUpdateUserRole (id role : string) (env : Env)
  | CallDeleteUser (id : string)
  | CallUpdatePassword (userId currentPassword newPassword : string) (env : Env)
  | CallCreateStore (storeData : InsertStore) (env : Env)
  | CallUpdateStore (id : number) (storeData : PartialStore) (env : Env)
  | CallDeleteStore (id : number)
  | CallCreateOrUpdateRating (ratingData : InsertRating) (env : Env).

(** The database a call leaves, whether it returns or throws. *)
Definition exec (d : Db) (c : StorageCall) : Db :=
  match c with
  | CallUpsertUser userData env => (upsertUser userData env d).1
  | CallCreateLocalUser userData env => (createLocalUser bcrypt_hash userData env d).1
  | CallUpdateUserRole id role env => (updateUserRole id role env d).1
  | CallDeleteUser id => (deleteUser id d).1
  | CallUpdatePassword userId currentPassword newPassword env =>
      (updatePassword bcrypt_hash bcrypt_compare userId currentPassword newPassword
         env d).1
  | CallCreateStore storeData env => (createStore storeData env d).1
  | CallUpdateStore id storeData env => (updateStore id storeData env d).1
  | CallDeleteStore id => (deleteStore id d).1
  | CallCreateOrUpdateRating ratingData env => (createOrUpdateRating ratingData env d).1
  end.

Definition exec_all (calls : list StorageCall) (d : Db) : Db :=
  foldl exec d calls.

(** A database is reachable when some sequence of storage calls builds
    it from the empty one.  Every call is one atomic statement (or, for
    [updatePassword], a read followed by one), so concurrent requests
    reach the states of some sequential order of their statements. *)
Definition reachable_db (d : Db) : Prop :=
  exists calls, exec_all calls empty_db = d.

(** [n] submissions in the order the database commits them. *)
Definition submit_all (submissions : list (InsertRating * Env)) (d : Db) : Db :=
  exec_all (map (fun s => CallCreateOrUpdateRating s.1 s.2) submissions) d.

(** The database after a request is the one before it, or the one a
    single storage call leaves. *)
Definition one_call (d d' : Db) : Prop := d' = d \/ exists c, d' = exec d c.

End Reachable.

(** ** Stand-ins for the external functions, to run the model *)

Definition demo_hash (plain : string) : string := "$2b$10$" +:+ plain.
Definition demo_compare (plain hash : string) : bool :=
  bool_decide (hash = demo_hash plain).
Definition demo_ilike (_ _ : string) : bool := true.
Definition demo_text_le (a b : string) : bool := String.leb a b.
Definition demo_email (s : string) : bool :=
  existsb (fun c => bool_decide (c = "@"%char)) (String.list_ascii_of_string s).

Definition demo_handle : Env -> string -> Request -> World -> World * Response :=
  handle demo_hash demo_compare demo_ilike demo_text_le demo_email.
Definition demo_run : list (Env * string * Request) -> World -> World :=
  run demo_hash demo_compare demo_ilike demo_text_le demo_email.

Definition body_of (fields : list (string * JVal)) : Body := list_to_map fields.

Definition register_body (name email password role : string) : Body :=
  body_of [("name", JStr name); ("email", JStr email);
           ("address", JStr "1 Main Street"); ("password", JStr password);
           ("role", JStr role)].

Definition rating_body (storeId rating : Z) : Body :=
  body_of [("storeId", JNum (inject_Z storeId)); ("rating", JNum (inject_Z rating))].

(** ** A small cast, to run the model *)

Definition at_time (t : Timestamp) : Env := mkEnv t "k3x9q".

Definition alice_id : string := "local_1000_k3x9q".
Definition bob_id : string := "local_1001_k3x9q".
Definition carol_id : string := "local_1002_k3x9q".
Definition dave_id : string := "local_1003_k3x9q".

Definition alice_row : User :=
  mkUser alice_id (Some "alice@example.org") None None None (Some 1000) (Some 1000)
    (Some "Alice Example of Springfield") (Some "12 Elm Street")
    (Some (demo_hash "Secret#123")) "normal".

Definition carol_row : User :=
  mkUser carol_id (Some "carol@example.org") None None None (Some 1002) (Some 1002)
    (Some "Carol Example of Ogdenville") (Some "5 Ash Street")
    (Some (demo_hash "Secret#789")) "store_owner".

Definition corner_shop : Store :=
  mkStore 1 "Corner Shop" "shop@example.org" "1 High Street" (Some bob_id)
    (Some 1004) (Some 1004).

(** Four users and a store owned by Bob. *)
Definition demo_calls : list StorageCall :=
  [ CallCreateLocalUser
      (mkInsertUser "alice@example.org" "Alice Example of Springfield" "12 Elm Street"
         "Secret#123" "normal") (at_time 1000);
    CallCreateLocalUser
      (mkInsertUser "bob@example.org" "Bob Example of Shelbyville" "3 Oak Street"
         "Secret#456" "store_owner") (at_time 1001);
    CallCreateLocalUser
      (mkInsertUser "carol@example.org" "Carol Example of Ogdenville" "5 Ash Street"
         "Secret#789" "store_owner") (at_time 1002);
    CallCreateLocalUser
      (mkInsertUser "dave@example.org" "Dave Example of Capital City" "7 Fir Street"
         "Secret#000" "admin") (at_time 1003);
    CallCreateStore
      (mkInsertStore "Corner Shop" "shop@example.org" "1 High Street" (Some bob_id))
      (at_time 1004) ].

Definition demo_db : Db := exec_all demo_hash demo_compare demo_calls empty_db.

(** Then Alice rates the store with 4. *)
Definition rated_calls : list StorageCall :=
  demo_calls ++ [CallCreateOrUpdateRating (mkInsertRating alice_id 1 4) (at_time 1005)].

Definition rated_db : Db := exec_all demo_hash demo_compare rated_calls empty_db.

Definition login_body (email password : string) : Body :=
  body_of [("email", JStr email); ("password", JStr password)].

(** Alice, Bob, Carol and Dave log in, each on a session of their own. *)
Definition logged_in : World :=
  demo_run
    [ (at_time 2000, "sess-alice", PostLogin (login_body "alice@example.org" "Secret#123"));
      (at_time 2001, "sess-bob", PostLogin (login_body "bob@example.org" "Secret#456"));
      (at_time 2002, "sess-carol", PostLogin (login_body "carol@example.org" "Secret#789"));
      (at_time 2003, "sess-dave", PostLogin (login_body "dave@example.org" "Secret#000")) ]
    (mkWorld rated_db ∅).

(** Then Dave, an admin, makes Alice an admin. *)
Definition promoted : World :=
  demo_run
    [ (at_time 3000, "sess-dave",
       PutAdminUserRole alice_id (body_of [("role", JStr "admin")])) ]
    logged_in.

(** Or Dave deletes Carol. *)
Definition carol_deleted : World :=
  demo_run [(at_time 3000, "sess-dave", DeleteAdminUser carol_id)] logged_in.

Definition alice_promoted : User :=
  mkUser alice_id (Some "alice@example.org") None None None (Some 1000) (Some 3000)
    (Some "Alice Example of Springfield") (Some "12 Elm Street")
    (Some (demo_hash "Secret#123")) "admin".

Definition wrong_password_body : Body :=
  body_of [("currentPassword", JStr "Wrong#123"); ("newPassword", JStr "Fresh#Pass1")].

Definition erin_asks_for_admin : Body :=
  register_body "Erin Example of North Haverbrook" "erin@example.org" "Secret#321" "admin".

(** The world and the answer after Erin's registration. *)
Definition erin_registered : World :=
  (demo_handle (at_time 7000) "sess-erin" (PostRegister erin_asks_for_admin) logged_in).1.
Definition erin_welcome : Response :=
  (demo_handle (at_time 7000) "sess-erin" (PostRegister erin_asks_for_admin) logged_in).2.

Definition alice_resubmits : list (InsertRating * Env) :=
  [ (mkInsertRating alice_id 1 5, at_time 5000);
    (mkInsertRating alice_id 1 2, at_time 5000);
    (mkInsertRating alice_id 1 3, at_time 5001) ].

(** ** The constraints on [users] and [stores] *)

(** What the schema declares besides the constraints on [ratings]: the
    primary key and the unique email of [users], the primary key of
    [stores] with ids handed out by its sequence, and the foreign key of
    [stores.ownerId]. *)
Record schema_ok (d : Db) : Prop := mk_schema_ok {
  ok_user_ids : NoDup (map user_id (users d));
  ok_emails :
    forall u v, u ∈ users d -> v ∈ users d ->
                is_Some (user_email u) -> user_email u = user_email v -> u = v;
  ok_store_ids : NoDup (map store_id (stores d));
  ok_store_seq : Forall (fun s => store_id s < stores_id_seq d) (stores d);
  ok_owner_fk :
    Forall (fun s => forall o, store_ownerId s = Some o ->
                               exists u, u ∈ users d /\ user_id u = o) (stores d)
}.

(** The routes registered with [app.get]. *)
Definition is_get (req : Request) : bool :=
  match req with
  | GetAuthUser | GetAdminStats | GetAdminUsers _ _ | GetStores _ _
  | GetOwnerStores | GetOwnerRatings _ => true
  | _ => false
  end.

(** ** The star display (the StarRating component) *)

(** Star number [index + 1] is filled when it does not exceed the rating. *)
Definition isFilled (rating : Q) (index : nat) : bool :=
  Qle_bool (inject_Z (Z.of_nat index + 1)) rating.

(** The stars drawn for a rating: one per index below [maxRating]. *)
Definition stars (rating : Q) (maxRating : nat) : list bool :=
  map (isFilled rating) (seq 0 maxRating).

(** A click reports the star's number only on an interactive display that
    was given a callback. *)
Definition handleStarClick {A} (interactive : bool) (onRatingChange : option (Z -> A))
    (starRating : Z) : option A :=
  if interactive then
    match onRatingChange with
    | Some callback => Some (callback starRating)
    | None => None
    end
  else None.

(** ** More of the cast *)

Definition bob_row : User :=
  mkUser bob_id (Some "bob@example.org") None None None (Some 1001) (Some 1001)
    (Some "Bob Example of Shelbyville") (Some "3 Oak Street")
    (Some (demo_hash "Secret#456")) "store_owner".

Definition alice_login : Body := login_body "alice@example.org" "Secret#123".

Definition alice_again : Body :=
  register_body "Alice Again Example Person" "alice@example.org" "Secret#999" "normal".

Definition erin_data : InsertUser :=
  mkInsertUser "erin@example.org" "Erin Example of North Haverbrook" "1 Main Street"
    "Secret#321" "admin".

Definition erin_login : Body := login_body "erin@example.org" "Secret#321".

Definition new_password_body : Body :=
  body_of [("currentPassword", JStr "Secret#123"); ("newPassword", JStr "Fresh#Pass1")].

Definition alice_new_login : Body := login_body "alice@example.org" "Fresh#Pass1".


Definition frank_body : Body :=
  register_body "Frank Example of Cypress Creek" "frank@example.org" "Secret#654" "admin".

Definition frank_row : User :=
  mkUser "local_8000_k3x9q" (Some "frank@example.org") None None None (Some 8000)
    (Some 8000) (Some "Frank Example of Cypress Creek") (Some "1 Main Street")
    (Some (demo_hash "Secret#654")) "admin".

Definition frank_created : Db :=
  (admin_create_user demo_hash demo_email frank_body (at_time 8000) rated_db).1.

(** Alice submits a rating whose body names Bob as the rater. *)
Definition forged_body : Body :=
  body_of [("userId", JStr bob_id); ("storeId", JNum 1); ("rating", JNum 5)].

Definition forged_submission : Db * Response :=
  submit_rating alice_row forged_body (at_time 5000) rated_db.

Definition alice_rates_5 : InsertRating := mkInsertRating alice_id 1 5.

Definition rerated_db : Db :=
  (createOrUpdateRating alice_rates_5 (at_time 5000) rated_db).1.

Definition alice_rating_5 : Rating :=
  mkRating 1 alice_id 1 5 (Some 1005) (Some 5000).

Definition second_shop : InsertStore :=
  mkInsertStore "Second Shop" "second@example.org" "2 High Street" (Some carol_id).







(** A rating in the name of nobody fails on the foreign key and takes a
    value of the id sequence all the same; after 2147483646 of them the
    sequence has one id left. *)
Definition burn : StorageCall :=
  CallCreateOrUpdateRating (mkInsertRating "nobody" 1 1) (at_time 1005).

Definition burn_calls : list StorageCall :=
  demo_calls ++ replicate (Z.to_nat 2147483646) burn.

Definition last_id_db : Db :=
  mkDb (users demo_db) (stores demo_db) (ratings demo_db) (stores_id_seq demo_db)
    2147483647.

(** ** Proofs *)

Ltac storage_unfold :=
  cbv [mbind mret Storage_bind Storage_ret sbind sret sget sput sthrow
       nextval_ratings nextval_stores] in *.

(** *** Rows and keys *)

Section ListFacts.

Lemma exists_row_true {A} (P : A -> Prop) `{!forall x, Decision (P x)} (l : list A) :
  exists_row P l = true <-> exists x, x ∈ l /\ P x.
Proof.
  unfold exists_row. rewrite bool_decide_eq_true. split.
  - intros Hne. destruct (filter P l) as [|x xs] eqn:E; [done|].
    exists x. apply and_comm, (list_elem_of_filter P l x). rewrite E. left.
  - intros (x & Hx & HP) E.
    assert (x ∈ filter P l) as Hin by (apply list_elem_of_filter; done).
    rewrite E in Hin. by apply elem_of_nil in Hin.
Qed.

Lemma exists_row_false {A} (P : A -> Prop) `{!forall x, Decision (P x)} (l : list A) :
  exists_row P l = false <-> filter P l = [].
Proof.
  unfold exists_row. rewrite bool_decide_eq_false. split.
  - intros Hn. destruct (filter P l); [done|]. exfalso. by apply Hn.
  - intros -> Hn. done.
Qed.

Lemma filter_key_nil (uid : string) (sid : Z) (l : list Rating) :
  filter (has_key uid sid) l = [] <-> (uid, sid) ∉ map rating_key l.
Proof.
  induction l as [|r l IH]; simpl.
  - split; [intros _; apply not_elem_of_nil | done].
  - rewrite filter_cons, not_elem_of_cons. destruct (decide (has_key uid sid r)) as [[H1 H2]|Hn].
    + split; [done|]. intros [Hne _]. exfalso. apply Hne.
      unfold rating_key. by rewrite H1, H2.
    + rewrite IH. split; [|tauto]. intros Hl. split; [|done].
      intros Heq. apply Hn. unfold rating_key in Heq. by inversion Heq.
Qed.

(** A key that occurs once in the table selects at most one row. *)
Lemma unique_key_one_row (uid : string) (sid : Z) (l : list Rating) :
  NoDup (map rating_key l) -> (length (filter (has_key uid sid) l) <= 1)%nat.
Proof.
  induction l as [|r l IH]; simpl; [lia|].
  intros Hnd. apply NoDup_cons in Hnd as [Hnotin Hnd].
  rewrite filter_cons. destruct (decide (has_key uid sid r)) as [[H1 H2]|Hn].
  - assert (filter (has_key uid sid) l = []) as ->; [|simpl; lia].
    apply filter_key_nil. unfold rating_key in Hnotin. by rewrite H1, H2 in Hnotin.
  - by apply IH.
Qed.

(** A string that fits its column is stored as it is. *)
Lemma split_chars_fits (n : nat) (s : string) :
  (char_length s <= n)%nat -> split_chars n s = (s, EmptyString).
Proof.
  revert n. induction s as [|c s IH]; intros n Hn; simpl in *; [done|].
  destruct (starts_char c).
  - destruct n as [|n]; [lia|]. rewrite IH by lia. done.
  - rewrite IH by lia. done.
Qed.

Lemma varchar_cut_fits (n : nat) (s : string) :
  (char_length s <= n)%nat -> varchar_cut n s = s.
Proof. intros Hn. unfold varchar_cut. by rewrite split_chars_fits. Qed.

Lemma varchar_ok_fits (n : nat) (s : string) :
  (char_length s <= n)%nat -> varchar_ok n s = true.
Proof. intros Hn. unfold varchar_ok. by rewrite split_chars_fits. Qed.

(** A character takes at least one UTF-16 code unit. *)
Lemma char_length_le_utf16 (s : string) : (char_length s <= utf16_length s)%nat.
Proof.
  induction s as [|c s IH]; simpl; [done|]. unfold utf16_units.
  destruct (starts_char c); [case_bool_decide|]; lia.
Qed.

End ListFacts.

(** *** Every storage call keeps the constraints *)

Section Preservation.

(** A call that leaves [ratings] and its sequence alone, and removes no
    referenced user or store, keeps the constraints. *)
Lemma db_ok_frame (d d' : Db) :
  ratings d' = ratings d ->
  ratings_id_seq d' = ratings_id_seq d ->
  (forall r s, r ∈ ratings d -> s ∈ stores d -> store_id s = rating_storeId r ->
     exists s', s' ∈ stores d' /\ store_id s' = rating_storeId r) ->
  (forall r u, r ∈ ratings d -> u ∈ users d -> user_id u = rating_userId r ->
     exists u', u' ∈ users d' /\ user_id u' = rating_userId r) ->
  db_ok d -> db_ok d'.
Proof.
  intros Hr Hs Hst Hus [K I FS FU]. split; rewrite Hr; [done| by rewrite Hs | |].
  - apply Forall_forall. intros r Hin.
    rewrite Forall_forall in FS. destruct (FS r Hin) as (s & Hs1 & Hs2). eauto.
  - apply Forall_forall. intros r Hin.
    rewrite Forall_forall in FU. destruct (FU r Hin) as (u & Hu1 & Hu2). eauto.
Qed.

Lemma insert_user_users row d :
  let d' := (insert_user row d).1 in
  stores d' = stores d /\ ratings d' = ratings d
  /\ stores_id_seq d' = stores_id_seq d /\ ratings_id_seq d' = ratings_id_seq d
  /\ (users d' = users d \/ users d' = users d ++ [users_row row]).
Proof.
  unfold insert_user. storage_unfold.
  repeat (case_match; simpl; try tauto).
Qed.

Lemma update_user_users id f d :
  let d' := (update_user id f d).1 in
  stores d' = stores d /\ ratings d' = ratings d
  /\ stores_id_seq d' = stores_id_seq d /\ ratings_id_seq d' = ratings_id_seq d
  /\ (users d' = users d
      \/ users d' = map (fun v => if bool_decide (user_id v = id)
                                  then users_update v (f v) else v) (users d)).
Proof.
  unfold update_user. storage_unfold.
  repeat (case_match; simpl; try tauto).
Qed.

Lemma db_ok_insert_user row d : db_ok d -> db_ok (insert_user row d).1.
Proof.
  pose proof (insert_user_users row d) as (Hs & Hr & _ & Hq & Hu). simpl in *.
  apply db_ok_frame; [done|done| |].
  - intros r s _ Hin Heq. exists s. by rewrite Hs.
  - intros r u _ Hin Heq. exists u. split; [|done].
    destruct Hu as [-> | ->]; [done|]. apply elem_of_app. by left.
Qed.

Lemma db_ok_update_user id f d :
  (forall v, user_id v = id -> user_id (f v) = id) ->
  db_ok d -> db_ok (update_user id f d).1.
Proof.
  intros Hf.
  pose proof (update_user_users id f d) as (Hs & Hr & _ & Hq & Hu). simpl in *.
  apply db_ok_frame; [done|done| |].
  - intros r s _ Hin Heq. exists s. by rewrite Hs.
  - intros r u _ Hin Heq. destruct Hu as [-> | ->]; [by exists u|].
    eexists. split.
    + apply (list_elem_of_fmap_2 _ _ u). exact Hin.
    + simpl. case_bool_decide as E; [|done]. simpl. rewrite Hf; [|done]. by rewrite <- E.
Qed.

Lemma db_ok_deleteUser id d : db_ok d -> db_ok (deleteUser id d).1.
Proof.
  unfold deleteUser. storage_unfold.
  destruct (exists_row (λ u : User, user_id u = id) (users d)
            && (exists_row (λ r : Rating, rating_userId r = id) (ratings d)
                || exists_row (λ s : Store, store_ownerId s = Some id) (stores d)))
    eqn:E; simpl; [done|].
  apply db_ok_frame; simpl; [done|done|eauto|].
  intros r u Hr Hu Heq. exists u. split; [|done].
  apply list_elem_of_filter. split; [|done]. intros Hid.
  apply andb_false_iff in E as [E|E].
  - apply exists_row_false in E.
    assert (u ∈ filter (λ u : User, user_id u = id) (users d)) as Hin
      by (apply list_elem_of_filter; done).
    rewrite E in Hin. by apply elem_of_nil in Hin.
  - apply orb_false_iff in E as [E _]. apply exists_row_false in E.
    assert (r ∈ filter (λ r : Rating, rating_userId r = id) (ratings d)) as Hin
      by (apply list_elem_of_filter; split; [congruence|done]).
    rewrite E in Hin. by apply elem_of_nil in Hin.
Qed.

Lemma db_ok_createStore storeData env d : db_ok d -> db_ok (createStore storeData env d).1.
Proof.
  intros Hok. unfold createStore. storage_unfold.
  repeat (case_match; simpl in *; simplify_eq); try done;
    (eapply db_ok_frame; [| | | |exact Hok]; simpl; eauto).
  all: intros rr ss _ Hin Heq; exists ss; split; [|done]; apply elem_of_app; by left.
Qed.

Lemma db_ok_updateStore id storeData env d : db_ok d -> db_ok (updateStore id storeData env d).1.
Proof.
  intros Hok. unfold updateStore, bind_int4. storage_unfold.
  repeat (case_match; simpl in *; simplify_eq); try done;
    (eapply db_ok_frame; [| | | |exact Hok]; simpl; eauto).
  all: intros rr ss _ Hin Heq;
    eexists; split;
    [ apply (list_elem_of_fmap_2 _ _ ss); exact Hin
    | simpl; case_bool_decide; done ].
Qed.

Lemma db_ok_deleteStore id d : db_ok d -> db_ok (deleteStore id d).1.
Proof.
  intros Hok. unfold deleteStore, bind_int4. storage_unfold.
  destruct (pg_int4 id) as [i|]; simpl; [|done].
  destruct (exists_row (λ s : Store, store_id s = i) (stores d)
            && exists_row (λ r : Rating, rating_storeId r = i) (ratings d)) eqn:E;
    simpl; [done|].
  eapply db_ok_frame; [| | | |exact Hok]; simpl; eauto.
  intros r s Hr Hs Heq. exists s. split; [|done].
  apply list_elem_of_filter. split; [|done]. intros Hid.
  apply andb_false_iff in E as [E|E]; apply exists_row_false in E.
  - assert (s ∈ filter (λ s : Store, store_id s = i) (stores d)) as Hin
      by (apply list_elem_of_filter; done).
    rewrite E in Hin. by apply elem_of_nil in Hin.
  - assert (r ∈ filter (λ r : Rating, rating_storeId r = i) (ratings d)) as Hin
      by (apply list_elem_of_filter; split; [congruence|done]).
    rewrite E in Hin. by apply elem_of_nil in Hin.
Qed.

Lemma nextval_ratings_next d :
  ratings_id_seq d <= serial_max ->
  nextval_ratings d
  = (mkDb (users d) (stores d) (ratings d) (stores_id_seq d) (ratings_id_seq d + 1),
     inr (ratings_id_seq d)).
Proof. intros Hq. unfold nextval_ratings. by rewrite bool_decide_eq_true_2. Qed.

Lemma nextval_ratings_exhausted d :
  serial_max < ratings_id_seq d ->
  nextval_ratings d = (d, inl SequenceGeneratorLimitExceeded).
Proof. intros Hq. unfold nextval_ratings. rewrite bool_decide_eq_false_2; [done|lia]. Qed.

Lemma createOrUpdateRating_update data env d sid value r rest :
  pg_int4 (Some (ir_storeId data)) = Some sid ->
  pg_int4 (Some (ir_rating data)) = Some value ->
  ratings_id_seq d <= serial_max ->
  filter (has_key (ir_userId data) sid) (ratings d) = r :: rest ->
  createOrUpdateRating data env d =
    (mkDb (users d) (stores d)
          (map (upsert_row (ir_userId data) sid value (now env)) (ratings d))
          (stores_id_seq d) (ratings_id_seq d + 1),
     inr (set_rating value (now env) r)).
Proof.
  intros Hs Hv Hq Hf. unfold createOrUpdateRating, bind_int4. rewrite Hs, Hv.
  cbv [mbind mret Storage_bind Storage_ret sbind sret sget sput sthrow].
  rewrite (nextval_ratings_next d Hq). simpl. rewrite Hf. reflexivity.
Qed.

Lemma createOrUpdateRating_insert data env d sid value :
  pg_int4 (Some (ir_storeId data)) = Some sid ->
  pg_int4 (Some (ir_rating data)) = Some value ->
  ratings_id_seq d <= serial_max ->
  filter (has_key (ir_userId data) sid) (ratings d) = [] ->
  exists_row (fun r => rating_id r = ratings_id_seq d) (ratings d) = false ->
  exists_row (fun u => user_id u = ir_userId data) (users d) = true ->
  exists_row (fun s => store_id s = sid) (stores d) = true ->
  let rating := mkRating (ratings_id_seq d) (ir_userId data) sid value
                  (Some (now env)) (Some (now env)) in
  createOrUpdateRating data env d =
    (mkDb (users d) (stores d) (ratings d ++ [rating])
          (stores_id_seq d) (ratings_id_seq d + 1),
     inr rating).
Proof.
  intros Hs Hv Hq Hf Hid Hu Hst. unfold createOrUpdateRating, bind_int4. rewrite Hs, Hv.
  cbv [mbind mret Storage_bind Storage_ret sbind sret sget sput sthrow].
  rewrite (nextval_ratings_next d Hq). simpl. rewrite Hf, Hid, Hu, Hst. reflexivity.
Qed.

(** A failed upsert leaves the three tables as they were. *)
Lemma createOrUpdateRating_error data env d e :
  (createOrUpdateRating data env d).2 = inl e ->
  users (createOrUpdateRating data env d).1 = users d
  /\ stores (createOrUpdateRating data env d).1 = stores d
  /\ ratings (createOrUpdateRating data env d).1 = ratings d.
Proof.
  unfold createOrUpdateRating, bind_int4. storage_unfold.
  repeat (case_match; simpl in *; simplify_eq); done.
Qed.

Lemma map_upsert_row_key uid sid value t (l : list Rating) :
  map rating_key (map (upsert_row uid sid value t) l) = map rating_key l.
Proof.
  rewrite map_map. apply map_ext. intros r. unfold upsert_row.
  by case_bool_decide.
Qed.

Lemma db_ok_createOrUpdateRating data env d :
  db_ok d -> db_ok (createOrUpdateRating data env d).1.
Proof.
  intros Hok.
  destruct (pg_int4 (Some (ir_storeId data))) as [sid|] eqn:Hs;
    [|unfold createOrUpdateRating, bind_int4; rewrite Hs; done].
  destruct (pg_int4 (Some (ir_rating data))) as [value|] eqn:Hv;
    [|unfold createOrUpdateRating, bind_int4; rewrite Hs, Hv; done].
  destruct (decide (ratings_id_seq d <= serial_max)) as [Hq|Hq];
    [|unfold createOrUpdateRating, bind_int4; rewrite Hs, Hv;
      cbv [mbind mret Storage_bind Storage_ret sbind sret sget sput sthrow];
      rewrite nextval_ratings_exhausted by lia; done].
  destruct Hok as [K I FS FU].
  destruct (filter (has_key (ir_userId data) sid) (ratings d)) as [|r rest] eqn:Hf.
  - unfold createOrUpdateRating, bind_int4. rewrite Hs, Hv.
    cbv [mbind mret Storage_bind Storage_ret sbind sret sget sput sthrow].
    rewrite (nextval_ratings_next d Hq). simpl.
    rewrite Hf.
    destruct (exists_row (λ r, rating_id r = ratings_id_seq d) (ratings d)); simpl.
    { split; simpl; [done| |done|done].
      eapply Forall_impl; [exact I|]. intros x Hx; simpl in *; lia. }
    destruct (exists_row (λ u, user_id u = ir_userId data) (users d)) eqn:Hu; simpl;
      [destruct (exists_row (λ s, store_id s = sid) (stores d)) eqn:Hst; simpl|].
    + apply exists_row_true in Hu, Hst.
      split; simpl.
      * rewrite map_app. simpl. apply NoDup_app. split; [done|]. split.
        -- intros k Hk Hk'. apply list_elem_of_singleton in Hk'. subst k.
           apply filter_key_nil in Hf. by apply Hf.
        -- apply NoDup_singleton.
      * apply Forall_app. split.
        -- eapply Forall_impl; [exact I|]. intros x Hx; simpl in *; lia.
        -- apply Forall_singleton. simpl. lia.
      * apply Forall_app. split; [done|]. by apply Forall_singleton.
      * apply Forall_app. split; [done|]. by apply Forall_singleton.
    + split; simpl; [done| |done|done].
      eapply Forall_impl; [exact I|]. intros x Hx; simpl in *; lia.
    + split; simpl; [done| |done|done].
      eapply Forall_impl; [exact I|]. intros x Hx; simpl in *; lia.
  - rewrite (createOrUpdateRating_update _ _ _ _ _ _ _ Hs Hv Hq Hf). simpl.
    split; simpl.
    + by rewrite map_upsert_row_key.
    + apply Forall_fmap. eapply Forall_impl; [exact I|]. intros x Hx.
      unfold compose, upsert_row. case_bool_decide; simpl in *; lia.
    + apply Forall_fmap. eapply Forall_impl; [exact FS|]. intros x Hx.
      unfold compose, upsert_row. by case_bool_decide.
    + apply Forall_fmap. eapply Forall_impl; [exact FU|]. intros x Hx.
      unfold compose, upsert_row. by case_bool_decide.
Qed.

Variable bcrypt_hash : string -> string.
Variable bcrypt_compare : string -> string -> bool.

Lemma db_ok_upsertUser userData env d : db_ok d -> db_ok (upsertUser userData env d).1.
Proof.
  intros Hok. unfold upsertUser. storage_unfold. case_match.
  - by apply db_ok_update_user.
  - match goal with
    | |- db_ok (let (_, _) := insert_user ?r d in _).1 =>
        pose proof (db_ok_insert_user r d Hok) as Hin;
        destruct (insert_user r d) as [d' [e|o]]
    end; simpl in *; done.
Qed.

Lemma db_ok_updatePassword userId currentPassword newPassword env d :
  db_ok d ->
  db_ok (updatePassword bcrypt_hash bcrypt_compare userId currentPassword newPassword
           env d).1.
Proof.
  intros Hok. unfold updatePassword, getUser. storage_unfold.
  destruct (stored_password _); simpl; [|done].
  destruct (bcrypt_compare _ _); simpl; [|done].
  match goal with
  | |- db_ok (let (_, _) := update_user ?i ?f d in _).1 =>
      pose proof (db_ok_update_user i f d) as Hup;
      destruct (update_user i f d) as [d' [e|o]]
  end; simpl in *; apply Hup; done.
Qed.

Lemma db_ok_exec d c : db_ok d -> db_ok (exec bcrypt_hash bcrypt_compare d c).
Proof.
  intros Hok. destruct c; simpl.
  - by apply db_ok_upsertUser.
  - by apply db_ok_insert_user.
  - by apply db_ok_update_user.
  - by apply db_ok_deleteUser.
  - by apply db_ok_updatePassword.
  - by apply db_ok_createStore.
  - by apply db_ok_updateStore.
  - by apply db_ok_deleteStore.
  - by apply db_ok_createOrUpdateRating.
Qed.

Lemma db_ok_exec_all calls d :
  db_ok d -> db_ok (exec_all bcrypt_hash bcrypt_compare calls d).
Proof.
  revert d. induction calls as [|c calls IH]; intros d Hok; simpl; [done|].
  apply IH. by apply db_ok_exec.
Qed.

Lemma db_ok_empty : db_ok empty_db.
Proof. split; simpl; constructor. Qed.

Lemma reachable_db_ok d : reachable_db bcrypt_hash bcrypt_compare d -> db_ok d.
Proof. intros [calls <-]. apply db_ok_exec_all, db_ok_empty. Qed.

Lemma reachable_db_exec_all calls d :
  reachable_db bcrypt_hash bcrypt_compare d ->
  reachable_db bcrypt_hash bcrypt_compare (exec_all bcrypt_hash bcrypt_compare calls d).
Proof.
  intros [calls0 <-]. exists (calls0 ++ calls). unfold exec_all. by rewrite foldl_app.
Qed.

(** C1. In every reachable database, and after any further rating
    submissions committed in any order, each (userId, storeId) pair
    selects at most one row of [ratings]. *)
Theorem at_most_one_rating_per_pair d submissions uid sid :
  reachable_db bcrypt_hash bcrypt_compare d ->
  (length (filter (has_key uid sid)
             (ratings (submit_all bcrypt_hash bcrypt_compare submissions d))) <= 1)%nat.
Proof.
  intros Hreach. apply unique_key_one_row, ok_keys.
  apply reachable_db_ok. unfold submit_all. by apply reachable_db_exec_all.
Qed.

End Preservation.

(** *** Whole numbers among the JavaScript numbers *)

Section Numbers.

Lemma Qred_inject_Z z : Qred (inject_Z z) = inject_Z z.
Proof.
  unfold Qred, inject_Z.
  pose proof (Z.ggcd_gcd z 1) as Hg.
  pose proof (Z.ggcd_correct_divisors z 1) as Hd.
  destruct (Z.ggcd z 1) as [g [a b]]. simpl in *.
  rewrite Z.gcd_1_r in Hg. subst g. destruct Hd as [Ha Hb].
  rewrite Z.mul_1_l in Ha, Hb. by subst.
Qed.

Lemma pg_int4_inject_Z z :
  -2147483648 <= z <= 2147483647 -> pg_int4 (Some (inject_Z z)) = Some z.
Proof.
  intros Hz. unfold pg_int4, is_integer. rewrite Qred_inject_Z. simpl.
  by rewrite bool_decide_eq_true_2.
Qed.

Lemma Qle_bool_inject_Z a b : Qle_bool (inject_Z a) (inject_Z b) = bool_decide (a <= b).
Proof.
  unfold Qle_bool. simpl. rewrite !Z.mul_1_r.
  case_bool_decide; [by apply Z.leb_le | by apply Z.leb_gt; lia].
Qed.

Lemma count_or_0_id z : count_or_0 z = z.
Proof. unfold count_or_0. by case_bool_decide. Qed.

Lemma Qred_whole q z : (q == inject_Z z)%Q -> Qred q = inject_Z z.
Proof. intros E. rewrite <- (Qred_inject_Z z). by apply Qred_complete. Qed.

Lemma pg_int4_whole q z :
  (q == inject_Z z)%Q -> -2147483648 <= z <= 2147483647 -> pg_int4 (Some q) = Some z.
Proof.
  intros E Hz. unfold pg_int4, is_integer. rewrite (Qred_whole q z E). simpl.
  by rewrite bool_decide_eq_true_2.
Qed.

Lemma is_integer_whole q : is_integer q = true -> (q == inject_Z (Qnum (Qred q)))%Q.
Proof.
  unfold is_integer. intros H. apply bool_decide_eq_true in H.
  rewrite <- (Qred_correct q) at 1. destruct (Qred q) as [n dd]. simpl in *. by subst.
Qed.

(** The checks of an [integer] column pass exactly the numbers that
    PostgreSQL takes for an [integer] parameter. *)
Lemma int4_checks_pg_int4 q :
  concat (map (fun c => c q) int4_checks) = [] <-> is_Some (pg_int4 (Some q)).
Proof.
  unfold int4_checks, check, pg_int4. simpl. rewrite app_nil_r. split.
  - intros H. destruct (is_integer q) eqn:Ei; [|by repeat case_match].
    destruct (Qle_bool (inject_Z (-2147483648)) q) eqn:E1; [|done].
    destruct (Qle_bool q (inject_Z 2147483647)) eqn:E2; [|done].
    apply Qle_bool_iff in E1, E2. apply is_integer_whole in Ei.
    rewrite Ei in E1, E2. rewrite <- Zle_Qle in E1, E2.
    by rewrite bool_decide_eq_true_2.
  - intros [z Hz]. destruct (is_integer q) eqn:Ei; [|done].
    case_bool_decide as Hr; [|done]. apply is_integer_whole in Ei.
    assert (Qle_bool (inject_Z (-2147483648)) q = true) as ->
      by (apply Qle_bool_iff; rewrite Ei, <- Zle_Qle; lia).
    assert (Qle_bool q (inject_Z 2147483647) = true) as ->
      by (apply Qle_bool_iff; rewrite Ei, <- Zle_Qle; lia).
    done.
Qed.

End Numbers.

(** *** The upsert of a rating *)

Section Upsert.

Lemma insertRatingSchema_valid (body : Body) uid qs sid qv :
  body !! "userId" = Some (JStr uid) ->
  body !! "storeId" = Some (JNum qs) ->
  (qs == inject_Z sid)%Q ->
  -2147483648 <= sid <= 2147483647 ->
  body !! "rating" = Some (JNum qv) ->
  (1 <= qv <= 5)%Q ->
  insertRatingSchema body = inr (mkInsertRating uid qs qv).
Proof.
  intros Hu Hs Es Hrange Hr [H1 H5]. unfold insertRatingSchema. rewrite Hu, Hs, Hr.
  unfold z_number.
  assert (concat (map (fun c => c qs) int4_checks) = []) as ->
    by (apply int4_checks_pg_int4; rewrite (pg_int4_whole qs sid); done).
  simpl. unfold check. apply Qle_bool_iff in H1, H5. by rewrite H1, H5.
Qed.

Lemma filter_key_upsert_row uid sid v t (l : list Rating) :
  filter (has_key uid sid) (map (upsert_row uid sid v t) l)
  = map (set_rating v t) (filter (has_key uid sid) l).
Proof.
  induction l as [|r l IH]; [done|]. simpl. rewrite !filter_cons.
  destruct (decide (has_key uid sid r)) as [Hk|Hk].
  - assert (upsert_row uid sid v t r = set_rating v t r) as ->
      by (unfold upsert_row; by rewrite bool_decide_eq_true_2).
    destruct (decide (has_key uid sid (set_rating v t r))) as [_|Hn];
      [simpl; by rewrite IH | by destruct Hn].
  - assert (upsert_row uid sid v t r = r) as ->
      by (unfold upsert_row; by rewrite bool_decide_eq_false_2).
    destruct (decide (has_key uid sid r)); done.
Qed.

Lemma ratings_of_upsert_row uid sid v t i (l : list Rating) :
  length (filter (fun r => rating_storeId r = i) (map (upsert_row uid sid v t) l))
  = length (filter (fun r => rating_storeId r = i) l).
Proof.
  induction l as [|r l IH]; [done|]. simpl. rewrite !filter_cons.
  assert (rating_storeId (upsert_row uid sid v t r) = rating_storeId r) as E
    by (unfold upsert_row; by case_bool_decide).
  rewrite E. destruct (decide (rating_storeId r = i)); simpl; by rewrite IH.
Qed.

Lemma fresh_rating_id d :
  db_ok d -> exists_row (fun r => rating_id r = ratings_id_seq d) (ratings d) = false.
Proof.
  intros Hok. destruct (exists_row _ _) eqn:E; [|done].
  apply exists_row_true in E as (r & Hin & Hid).
  pose proof (ok_ids d Hok) as I. rewrite Forall_forall in I.
  specialize (I r Hin). simpl in I. lia.
Qed.

Lemma unique_key_filter d uid sid r rest :
  db_ok d -> filter (has_key uid sid) (ratings d) = r :: rest -> rest = [].
Proof.
  intros Hok Hf. pose proof (unique_key_one_row uid sid _ (ok_keys d Hok)) as Hl.
  rewrite Hf in Hl. simpl in Hl. destruct rest; [done|simpl in Hl; lia].
Qed.

(** What one accepted submission does: the row of the pair afterwards,
    and how it relates to the row before, if there was one. *)
Lemma submit_rating_accepted d user sid v (body : Body) env :
  db_ok d ->
  user ∈ users d ->
  (exists s, s ∈ stores d /\ store_id s = sid) ->
  -2147483648 <= sid <= 2147483647 ->
  1 <= v <= 5 ->
  ratings_id_seq d <= 2147483647 ->
  body !! "storeId" = Some (JNum (inject_Z sid)) ->
  body !! "rating" = Some (JNum (inject_Z v)) ->
  exists d' r,
    submit_rating user body env d = (d', mkResponse 200 (PRating r))
    /\ db_ok d' /\ users d' = users d /\ stores d' = stores d
    /\ ratings_id_seq d' = ratings_id_seq d + 1
    /\ filter (has_key (user_id user) sid) (ratings d') = [r]
    /\ rating_rating r = v /\ rating_updatedAt r = Some (now env)
    /\ match filter (has_key (user_id user) sid) (ratings d) with
       | [] => rating_createdAt r = Some (now env)
               /\ length (ratings_of d' sid) = S (length (ratings_of d sid))
       | r0 :: _ => rating_id r = rating_id r0
                    /\ rating_createdAt r = rating_createdAt r0
                    /\ length (ratings_of d' sid) = length (ratings_of d sid)
       end.
Proof.
  intros Hok Hu Hst Hrange Hv Hq Hbs Hbr.
  pose proof (db_ok_createOrUpdateRating
                (mkInsertRating (user_id user) (inject_Z sid) (inject_Z v)) env d Hok)
    as Hok'.
  unfold submit_rating, catch.
  rewrite (insertRatingSchema_valid _ (user_id user) (inject_Z sid) sid (inject_Z v));
    [|apply lookup_insert_eq|by rewrite lookup_insert_ne|reflexivity|done
     |by rewrite lookup_insert_ne
     |change 1%Q with (inject_Z 1); change 5%Q with (inject_Z 5);
      rewrite <- !Zle_Qle; lia].
  cbv [mbind mret Storage_bind Storage_ret sbind sret].
  assert (pg_int4 (Some (inject_Z sid)) = Some sid) as Hps by by apply pg_int4_inject_Z.
  assert (pg_int4 (Some (inject_Z v)) = Some v) as Hpv by (apply pg_int4_inject_Z; lia).
  destruct (filter (has_key (user_id user) sid) (ratings d)) as [|r0 rest] eqn:Hf.
  - assert (exists_row (fun u => user_id u = user_id user) (users d) = true) as Heu
      by (apply exists_row_true; by exists user).
    assert (exists_row (fun s => store_id s = sid) (stores d) = true) as Hes
      by by apply exists_row_true.
    pose proof (createOrUpdateRating_insert
                  (mkInsertRating (user_id user) (inject_Z sid) (inject_Z v)) env d sid v
                  Hps Hpv Hq Hf (fresh_rating_id d Hok) Heu Hes) as E.
    simpl in E. rewrite E in Hok' |- *.
    eexists _, _. split; [reflexivity|]. split; [exact Hok'|]. simpl.
    do 3 (split; [done|]). split.
    { rewrite filter_app, Hf, filter_cons. by rewrite decide_True. }
    do 3 (split; [done|]).
    unfold ratings_of. simpl. rewrite filter_app, length_app, filter_cons.
    rewrite decide_True by done. simpl. lia.
  - assert (rest = []) as -> by exact (unique_key_filter d _ _ _ _ Hok Hf).
    pose proof (createOrUpdateRating_update
                  (mkInsertRating (user_id user) (inject_Z sid) (inject_Z v)) env d sid v
                  r0 [] Hps Hpv Hq Hf) as E.
    simpl in E. rewrite E in Hok' |- *.
    eexists _, _. split; [reflexivity|]. split; [exact Hok'|]. simpl.
    do 3 (split; [done|]). split.
    { by rewrite filter_key_upsert_row, Hf. }
    do 4 (split; [done|]).
    unfold ratings_of. simpl. apply ratings_of_upsert_row.
Qed.

End Upsert.

(** *** The roundings of [numeric] and of [Number] *)

Section Roundings.





Local Open Scope Q_scope.



















End Roundings.

(** *** The aggregate of a store *)

Section Aggregates.

Lemma getStoreStats_eq storeId i d :
  pg_int4 storeId = Some i ->
  getStoreStats storeId d
  = (d, inr {| averageRating := number_or_0 (coalesce0 (sql_avg (ratings_of d i)));
               totalRatings := Z.of_nat (length (ratings_of d i)) |}).
Proof.
  intros Hi. unfold getStoreStats, bind_int4. rewrite Hi. storage_unfold.
  by rewrite count_or_0_id.
Qed.




(** The example of the specification: ratings 4, 5 and 3. *)
Example getStoreStats_4_5_3 :
  let d := mkDb [] [] [mkRating 1 "a" 7 4 None None; mkRating 2 "b" 7 5 None None;
                       mkRating 3 "c" 7 3 None None; mkRating 4 "a" 8 1 None None] 1 5 in
  exists stats, (getStoreStats (num 7) d).2 = inr stats
    /\ (averageRating stats == 4)%Q /\ totalRatings stats = 3.
Proof. eexists. split; [vm_compute; reflexivity|]. split; [vm_compute|]; reflexivity. Qed.

End Aggregates.

(** *** Rating the same store twice *)

Section Resubmission.

Variable bcrypt_hash : string -> string.
Variable bcrypt_compare : string -> string -> bool.

(** C2. Two submissions by the same user for the same store leave one
    row for the pair; it carries the second value, keeps its id and
    [createdAt], and has [updatedAt] set by the second call, and the
    store's [totalRatings] is the same after the second call as before it.
    Every submission takes a value of the id sequence, also a
    resubmission, so the sequence must have two values left. *)
Theorem resubmission_replaces_value (d : Db) (user : User) (sid v1 v2 : Z)
    (body1 body2 : Body) (env1 env2 : Env) :
  reachable_db bcrypt_hash bcrypt_compare d ->
  user ∈ users d ->
  (exists s, s ∈ stores d /\ store_id s = sid) ->
  -2147483648 <= sid <= 2147483647 ->
  1 <= v1 <= 5 ->
  1 <= v2 <= 5 ->
  ratings_id_seq d < 2147483647 ->
  body1 !! "storeId" = Some (JNum (inject_Z sid)) ->
  body1 !! "rating" = Some (JNum (inject_Z v1)) ->
  body2 !! "storeId" = Some (JNum (inject_Z sid)) ->
  body2 !! "rating" = Some (JNum (inject_Z v2)) ->
  exists d1 r1 d2 r2 stats1 stats2,
    submit_rating user body1 env1 d = (d1, mkResponse 200 (PRating r1))
    /\ submit_rating user body2 env2 d1 = (d2, mkResponse 200 (PRating r2))
    /\ filter (has_key (user_id user) sid) (ratings d2) = [r2]
    /\ rating_rating r2 = v2
    /\ rating_id r2 = rating_id r1
    /\ rating_createdAt r2 = rating_createdAt r1
    /\ rating_updatedAt r2 = Some (now env2)
    /\ getStoreStats (num sid) d1 = (d1, inr stats1)
    /\ getStoreStats (num sid) d2 = (d2, inr stats2)
    /\ totalRatings stats2 = totalRatings stats1.
Proof.
  intros Hreach Hu Hst Hrange Hv1 Hv2 Hseq Hs1 Hr1 Hs2 Hr2.
  apply reachable_db_ok in Hreach.
  destruct (submit_rating_accepted d user sid v1 body1 env1)
    as (d1 & r1 & E1 & Hok1 & Hu1 & Hst1 & Hq1 & Hf1 & _); try done; [lia|].
  destruct (submit_rating_accepted d1 user sid v2 body2 env2)
    as (d2 & r2 & E2 & Hok2 & _ & _ & _ & Hf2 & Hval & Hupd & Hrel); try done;
    [by rewrite Hu1|by rewrite Hst1|lia|].
  rewrite Hf1 in Hrel. destruct Hrel as (Hid & Hcr & Hlen).
  exists d1, r1, d2, r2. eexists _, _.
  do 7 (split; [done|]).
  split; [apply getStoreStats_eq, pg_int4_inject_Z; done|].
  split; [apply getStoreStats_eq, pg_int4_inject_Z; done|].
  simpl. by rewrite Hlen.
Qed.

End Resubmission.

(** *** What the rating schema lets through *)

Section Validation.

Lemma z_number_inr checks v q :
  z_number checks v = inr q ->
  v = Some (JNum q) /\ concat (map (fun c => c q) checks) = [].
Proof.
  unfold z_number. intros H. repeat (case_match; simplify_eq). done.
Qed.

Lemma z_number_inl_issues checks v e : z_number checks v = inl e -> e <> [].
Proof.
  unfold z_number, invalid_type. intros H. repeat (case_match; simplify_eq); done.
Qed.

Lemma check_nil {A} (test : A -> bool) m a : check test m a = [] -> test a = true.
Proof. unfold check. by destruct (test a). Qed.

Lemma insertRatingSchema_inr body data :
  insertRatingSchema body = inr data ->
  body !! "rating" = Some (JNum (ir_rating data))
  /\ (1 <= ir_rating data <= 5)%Q
  /\ body !! "storeId" = Some (JNum (ir_storeId data))
  /\ is_Some (pg_int4 (Some (ir_storeId data))).
Proof.
  unfold insertRatingSchema. intros H.
  destruct (z_string [] (body !! "userId")) as [|uid]; [by repeat case_match|].
  destruct (z_number int4_checks (body !! "storeId")) as [|st] eqn:Es;
    [by repeat case_match|].
  destruct (z_number _ (body !! "rating")) as [|q] eqn:E; [done|].
  simplify_eq. simpl. apply z_number_inr in E as [E1 E2], Es as [Es1 Es2].
  split; [done|]. split; [|split; [done|by apply int4_checks_pg_int4]].
  simpl in E2. rewrite app_nil_r in E2. apply app_eq_nil in E2 as [C1 C2].
  apply check_nil in C1, C2. by rewrite <- !Qle_bool_iff.
Qed.

(** A rating that is no number between 1 and 5 is refused by the schema. *)
Lemma insertRatingSchema_inl (body : Body) :
  (forall q, body !! "rating" = Some (JNum q) -> ~ (1 <= q <= 5)%Q) ->
  exists errors, errors <> [] /\ insertRatingSchema body = inl errors.
Proof.
  intros Hbad. unfold insertRatingSchema.
  destruct (z_number _ (body !! "rating")) as [e|q] eqn:E.
  - apply z_number_inl_issues in E.
    destruct (z_string [] (body !! "userId")) as [eu|uid];
      destruct (z_number int4_checks (body !! "storeId")) as [es|st];
      (eexists; split; [|reflexivity]);
      intros Hnil; apply app_eq_nil in Hnil as [_ Hnil];
      apply app_eq_nil in Hnil as [_ Hnil]; done.
  - exfalso. apply z_number_inr in E as [E1 E2]. apply (Hbad q E1).
    simpl in E2. rewrite app_nil_r in E2. apply app_eq_nil in E2 as [C1 C2].
    apply check_nil in C1, C2. by rewrite <- !Qle_bool_iff.
Qed.

(** So is a store id that is no whole number of the [integer] range. *)
Lemma insertRatingSchema_inl_storeId (body : Body) :
  (forall q, body !! "storeId" = Some (JNum q) -> pg_int4 (Some q) = None) ->
  exists errors, errors <> [] /\ insertRatingSchema body = inl errors.
Proof.
  intros Hbad. unfold insertRatingSchema.
  destruct (z_number int4_checks (body !! "storeId")) as [e|q] eqn:E.
  - apply z_number_inl_issues in E.
    destruct (z_string [] (body !! "userId")) as [eu|uid];
      destruct (z_number _ (body !! "rating")) as [er|rt];
      (eexists; split; [|reflexivity]);
      intros Hnil; apply app_eq_nil in Hnil as [_ Hnil];
      apply app_eq_nil in Hnil as [Hnil _]; done.
  - exfalso. apply z_number_inr in E as [E1 E2].
    apply int4_checks_pg_int4 in E2 as [z Hz]. by rewrite (Hbad q E1) in Hz.
Qed.

Lemma pg_int4_Some_range q z :
  pg_int4 (Some q) = Some z -> -2147483648 <= z <= 2147483647.
Proof.
  unfold pg_int4. intros H. repeat (case_match; simplify_eq).
  match goal with Hb : bool_decide _ = true |- _ => by apply bool_decide_eq_true in Hb end.
Qed.

Lemma pg_int4_Some_Qeq q z : pg_int4 (Some q) = Some z -> (q == inject_Z z)%Q.
Proof.
  unfold pg_int4, is_integer. intros H. repeat (case_match; simplify_eq).
  transitivity (Qred q); [symmetry; apply Qred_correct|].
  repeat match goal with
         | Hb : bool_decide _ = true |- _ => apply bool_decide_eq_true in Hb
         end.
  destruct (Qred q) as [n dd]. simpl in *. by subst.
Qed.

(** The value of a row the upsert returns is the integer that was sent. *)
Lemma createOrUpdateRating_value data env d d' r :
  createOrUpdateRating data env d = (d', inr r) ->
  pg_int4 (Some (ir_rating data)) = Some (rating_rating r).
Proof.
  unfold createOrUpdateRating, bind_int4. storage_unfold.
  intros H. repeat (case_match; simpl in *; simplify_eq); done.
Qed.

End Validation.

(** *** Refused submissions *)

Section SubmitRating.

Variable bcrypt_hash : string -> string.
Variable bcrypt_compare : string -> string -> bool.

Lemma no_store_no_rating d uid sid :
  db_ok d ->
  ~ (exists s, s ∈ stores d /\ store_id s = sid) ->
  filter (has_key uid sid) (ratings d) = [].
Proof.
  intros Hok Hno. destruct (filter _ _) as [|r rest] eqn:E; [done|].
  assert (r ∈ filter (has_key uid sid) (ratings d)) as Hin by (rewrite E; left).
  apply list_elem_of_filter in Hin as [[_ Hk] Hin].
  pose proof (ok_store_fk d Hok) as FS. rewrite Forall_forall in FS.
  destruct (FS r Hin) as (s & Hs1 & Hs2). exfalso. apply Hno. exists s.
  split; [done|congruence].
Qed.

(** With no store of that id, the upsert fails: on the value, on the
    sequence, or on the foreign key. *)
Lemma createOrUpdateRating_no_store data env d sid :
  db_ok d ->
  pg_int4 (Some (ir_storeId data)) = Some sid ->
  ~ (exists s, s ∈ stores d /\ store_id s = sid) ->
  exists e, (createOrUpdateRating data env d).2 = inl e.
Proof.
  intros Hok Hs Hno. unfold createOrUpdateRating, bind_int4. rewrite Hs.
  destruct (pg_int4 (Some (ir_rating data))) as [v|]; [|by eexists].
  cbv [mbind mret Storage_bind Storage_ret sbind sret sget sput sthrow].
  destruct (decide (ratings_id_seq d <= serial_max)) as [Hq|Hq];
    [|rewrite nextval_ratings_exhausted by lia; by eexists].
  rewrite (nextval_ratings_next d Hq). cbn [fst snd ratings users stores ratings_id_seq].
  rewrite (no_store_no_rating d _ sid Hok Hno).
  rewrite (fresh_rating_id d Hok).
  assert (exists_row (fun s => store_id s = sid) (stores d) = false) as ->.
  { destruct (exists_row _ _) eqn:E; [|done]. apply exists_row_true in E. done. }
  rewrite andb_false_r. simpl. by eexists.
Qed.

(** C3, as the code has it.  A rating that is no number between 1 and
    5, or a store id that is no whole number of the [integer] range, ends
    as a validation error and nothing is written; a row is only ever
    written with a whole value between 1 and 5; a well-formed submission
    for a store id that references no store ends as an internal error,
    the three tables untouched; and no answer is ever a 404: the status
    is 200, 400 or 500. *)
Theorem submit_rating_refusals (d : Db) (user : User) (body : Body) (env : Env) :
  reachable_db bcrypt_hash bcrypt_compare d ->
  ((forall q, body !! "rating" = Some (JNum q) -> ~ (1 <= q <= 5)%Q) ->
   exists errors,
     errors <> []
     /\ submit_rating user body env d = (d, validation_error errors)
     /\ error_kind (validation_error errors) = Some ValidationError)
  /\ ((forall q, body !! "storeId" = Some (JNum q) ->
                 ~ (exists z, (q == inject_Z z)%Q /\ -2147483648 <= z <= 2147483647)) ->
      exists errors,
        errors <> []
        /\ submit_rating user body env d = (d, validation_error errors)
        /\ error_kind (validation_error errors) = Some ValidationError)
  /\ (forall d' r,
        submit_rating user body env d = (d', mkResponse 200 (PRating r)) ->
        1 <= rating_rating r <= 5
        /\ exists q, body !! "rating" = Some (JNum q)
                     /\ (q == inject_Z (rating_rating r))%Q)
  /\ (forall qs sid qv,
        body !! "storeId" = Some (JNum qs) ->
        (qs == inject_Z sid)%Q ->
        -2147483648 <= sid <= 2147483647 ->
        body !! "rating" = Some (JNum qv) ->
        (1 <= qv <= 5)%Q ->
        ~ (exists s, s ∈ stores d /\ store_id s = sid) ->
        exists d',
          submit_rating user body env d = (d', internal_error)
          /\ error_kind internal_error = Some InternalError
          /\ users d' = users d /\ stores d' = stores d /\ ratings d' = ratings d)
  /\ (forall d' resp,
        submit_rating user body env d = (d', resp) ->
        status resp = 200 \/ status resp = 400 \/ status resp = 500).
Proof.
  intros Hreach. apply reachable_db_ok in Hreach. split; [|split; [|split; [|split]]].
  - intros Hbad.
    destruct (insertRatingSchema_inl (<["userId" := JStr (user_id user)]> body))
      as (errors & Hne & E).
    { intros q Hq. rewrite lookup_insert_ne in Hq by done. by apply Hbad. }
    exists errors. split; [done|]. split; [|reflexivity].
    unfold submit_rating, catch. rewrite E. reflexivity.
  - intros Hbad.
    destruct (insertRatingSchema_inl_storeId (<["userId" := JStr (user_id user)]> body))
      as (errors & Hne & E).
    { intros q Hq. rewrite lookup_insert_ne in Hq by done.
      destruct (pg_int4 (Some q)) as [z|] eqn:Ez; [|done].
      destruct (Hbad q Hq). exists z.
      split; [by apply pg_int4_Some_Qeq|by apply (pg_int4_Some_range q)]. }
    exists errors. split; [done|]. split; [|reflexivity].
    unfold submit_rating, catch. rewrite E. reflexivity.
  - intros d' r. unfold submit_rating, catch.
    destruct (insertRatingSchema _) as [errors|data] eqn:E; [intros; simplify_eq|].
    storage_unfold.
    destruct (createOrUpdateRating data env d) as [d'' [e|r']] eqn:Ec;
      intros H; simplify_eq.
    apply createOrUpdateRating_value in Ec. apply pg_int4_Some_Qeq in Ec.
    apply insertRatingSchema_inr in E as (Hb & [H1 H5] & _).
    rewrite lookup_insert_ne in Hb by done.
    split; [|by eexists].
    rewrite Ec in H1, H5.
    change 1%Q with (inject_Z 1) in H1. change 5%Q with (inject_Z 5) in H5.
    rewrite <- Zle_Qle in H1, H5. done.
  - intros qs sid qv Hs Es Hrange Hr Hv Hno.
    unfold submit_rating, catch.
    rewrite (insertRatingSchema_valid _ (user_id user) qs sid qv);
      [|apply lookup_insert_eq|by rewrite lookup_insert_ne|done|done
       |by rewrite lookup_insert_ne|done].
    cbv [mbind mret Storage_bind Storage_ret sbind sret].
    set (data := mkInsertRating (user_id user) qs qv).
    destruct (createOrUpdateRating_no_store data env d sid Hreach) as [e He];
      [by apply pg_int4_whole|done|].
    pose proof (createOrUpdateRating_error data env d e He) as (Hu' & Hs' & Hr').
    destruct (createOrUpdateRating data env d) as [d' [e'|r]]; simpl in *; [|done].
    exists d'. done.
  - intros d' resp. unfold submit_rating, catch.
    cbv [mbind mret Storage_bind Storage_ret sbind sret].
    destruct (insertRatingSchema _) as [errors|data];
      [intros; simplify_eq; right; by left|].
    destruct (createOrUpdateRating data env d) as [d'' [e|r]]; intros; simplify_eq;
      simpl; [right; by right|by left].
Qed.

End SubmitRating.

(** *** Deleting a store *)

Section DeleteStore.

Variable bcrypt_hash : string -> string.
Variable bcrypt_compare : string -> string -> bool.

Lemma filter_nil_intro {A} (P : A -> Prop) `{!forall x, Decision (P x)} (l : list A) :
  (forall x, x ∈ l -> ~ P x) -> filter P l = [].
Proof.
  intros Hall. destruct (filter P l) as [|x xs] eqn:E; [done|].
  assert (x ∈ filter P l) as Hin by (rewrite E; left).
  apply list_elem_of_filter in Hin as [HP Hin]. by destruct (Hall x Hin).
Qed.

Lemma no_store_no_ratings_of d i :
  db_ok d ->
  ~ (exists s, s ∈ stores d /\ store_id s = i) ->
  ratings_of d i = [].
Proof.
  intros Hok Hno. apply filter_nil_intro. intros r Hin Hk.
  pose proof (ok_store_fk d Hok) as FS. rewrite Forall_forall in FS.
  destruct (FS r Hin) as (s & Hs1 & Hs2). apply Hno. exists s.
  split; [done|congruence].
Qed.

Lemma getRatingsByStore_nil id i d :
  pg_int4 id = Some i -> ratings_of d i = [] ->
  getRatingsByStore id d = (d, inr []).
Proof.
  intros Hi Hnil. unfold getRatingsByStore, bind_int4. rewrite Hi.
  storage_unfold. rewrite Hnil. reflexivity.
Qed.

(** C4, as the code has it.  A store that still has ratings cannot be
    deleted: the foreign key of [ratings.storeId] rejects the statement,
    the handler answers 500 and the store and its ratings stay.  When a
    deletion does go through, no store and no rating with that id is
    left and [getRatingsByStore] returns the empty list. *)
Theorem deleteStore_restricted (d : Db) (id : number) (i : Z) :
  reachable_db bcrypt_hash bcrypt_compare d ->
  pg_int4 id = Some i ->
  ((exists s, s ∈ stores d /\ store_id s = i) ->
   ratings_of d i <> [] ->
   deleteStore id d = (d, inl ForeignKeyViolation)
   /\ admin_delete_store id d = (d, internal_error))
  /\ (forall d',
        deleteStore id d = (d', inr tt) ->
        filter (fun s => store_id s = i) (stores d') = []
        /\ filter (fun r => rating_storeId r = i) (ratings d') = []
        /\ getRatingsByStore id d' = (d', inr [])).
Proof.
  intros Hreach Hi. apply reachable_db_ok in Hreach. split.
  - intros Hst Hr.
    assert (deleteStore id d = (d, inl ForeignKeyViolation)) as E.
    { unfold deleteStore, bind_int4. rewrite Hi. storage_unfold.
      assert (exists_row (fun s => store_id s = i) (stores d) = true) as ->
        by by apply exists_row_true.
      assert (exists_row (fun r => rating_storeId r = i) (ratings d) = true) as ->.
      { destruct (exists_row _ _) eqn:E; [done|]. by apply exists_row_false in E. }
      reflexivity. }
    split; [done|]. unfold admin_delete_store, catch. storage_unfold. by rewrite E.
  - intros d'. unfold deleteStore, bind_int4. rewrite Hi. storage_unfold.
    assert (ratings_of d i = [] \/ exists_row (fun s => store_id s = i) (stores d) = true)
      as Hor.
    { destruct (exists_row (fun s => store_id s = i) (stores d)) eqn:Es; [by right|left].
      apply no_store_no_ratings_of; [done|].
      intros Hex. apply (exists_row_true (fun s => store_id s = i)) in Hex. congruence. }
    destruct (exists_row (fun s => store_id s = i) (stores d)) eqn:Es;
      destruct (exists_row (fun r => rating_storeId r = i) (ratings d)) eqn:Er;
      simpl; intros H; simplify_eq; simpl.
    + apply exists_row_false in Er.
      split; [apply filter_nil_intro; intros x Hx; by apply list_elem_of_filter in Hx as [? _]|].
      split; [done|by apply (getRatingsByStore_nil _ i)].
    + destruct Hor as [Hnil|?]; [|done].
      split; [apply filter_nil_intro; intros x Hx; by apply list_elem_of_filter in Hx as [? _]|].
      split; [done|by apply (getRatingsByStore_nil _ i)].
    + apply exists_row_false in Er.
      split; [apply filter_nil_intro; intros x Hx; by apply list_elem_of_filter in Hx as [? _]|].
      split; [done|by apply (getRatingsByStore_nil _ i)].
Qed.

End DeleteStore.

(** *** Using up the id sequence *)

Section Exhaustion.

Variable bcrypt_hash : string -> string.
Variable bcrypt_compare : string -> string -> bool.

(** A submission that fails on the foreign key of its user still takes
    a value of the sequence. *)
Lemma burn_once d :
  db_ok d ->
  ratings_id_seq d <= 2147483647 ->
  (forall u, u ∈ users d -> user_id u <> "nobody") ->
  exec bcrypt_hash bcrypt_compare d burn
  = mkDb (users d) (stores d) (ratings d) (stores_id_seq d) (ratings_id_seq d + 1).
Proof.
  intros Hok Hq Hno. unfold burn, exec, createOrUpdateRating, bind_int4.
  cbn [ir_storeId ir_rating ir_userId].
  change 1%Q with (inject_Z 1). rewrite (pg_int4_inject_Z 1) by lia.
  cbv [mbind mret Storage_bind Storage_ret sbind sret sget sput sthrow].
  rewrite (nextval_ratings_next d Hq). cbn [fst snd ratings users stores ratings_id_seq].
  assert (filter (has_key "nobody" 1) (ratings d) = []) as ->.
  { apply filter_nil_intro. intros r Hr [Hk _].
    pose proof (ok_user_fk d Hok) as FU. rewrite Forall_forall in FU.
    destruct (FU r Hr) as (u & Hu & Hid). apply (Hno u Hu). congruence. }
  rewrite (fresh_rating_id d Hok).
  assert (exists_row (fun u => user_id u = "nobody") (users d) = false) as ->.
  { destruct (exists_row _ _) eqn:E; [|done].
    apply exists_row_true in E as (u & Hu & Hid). by destruct (Hno u Hu). }
  reflexivity.
Qed.

Lemma burn_many n d :
  db_ok d ->
  ratings_id_seq d + Z.of_nat n <= 2147483648 ->
  (forall u, u ∈ users d -> user_id u <> "nobody") ->
  exec_all bcrypt_hash bcrypt_compare (replicate n burn) d
  = mkDb (users d) (stores d) (ratings d) (stores_id_seq d)
      (ratings_id_seq d + Z.of_nat n).
Proof.
  revert d. induction n as [|n IH]; intros d Hok Hq Hno.
  - cbn [replicate exec_all foldl]. rewrite Z.add_0_r. by destruct d.
  - cbn [replicate exec_all foldl]. rewrite (burn_once d Hok) by (done || lia).
    pose proof (db_ok_exec bcrypt_hash bcrypt_compare d burn Hok) as Hok'.
    rewrite (burn_once d Hok) in Hok' by (done || lia).
    pose proof (IH _ Hok') as E. unfold exec_all in E. rewrite E; cbn [users ratings_id_seq];
      [|lia|done].
    cbn [stores ratings stores_id_seq]. f_equal. lia.
Qed.

End Exhaustion.

(** *** Authentication and authorization *)

Section Gates.

Variable bcrypt_hash : string -> string.
Variable bcrypt_compare : string -> string -> bool.
Variable ilike : string -> string -> bool.
Variable text_le : string -> string -> bool.
Variable zod_email : string -> bool.

Local Abbreviation handle := (handle bcrypt_hash bcrypt_compare ilike text_le zod_email).
Local Abbreviation handler := (handler bcrypt_hash bcrypt_compare ilike text_le zod_email).

Lemma truthy_Some s : s <> "" -> truthy (Some s) = Some s.
Proof. intros Hs. unfold truthy. by rewrite bool_decide_eq_false_2. Qed.

Lemma getUser_Some_id uid d user :
  getUser uid d = (d, inr (Some user)) -> user_id user = uid.
Proof.
  unfold getUser. storage_unfold. intros H. simplify_eq.
  destruct (filter _ _) as [|u us] eqn:E; simplify_eq. simpl in *. simplify_eq.
  assert (user ∈ filter (fun u => user_id u = uid) (users d)) as Hin by (rewrite E; left).
  by apply list_elem_of_filter in Hin as [? _].
Qed.

Lemma requireAuth_user session d uid user :
  session_userId session = Some uid -> uid <> "" ->
  getUser uid d = (d, inr (Some user)) ->
  requireAuth session d = inr user.
Proof.
  intros Hs Hne Hg. unfold requireAuth. rewrite Hs, truthy_Some by done.
  by rewrite Hg.
Qed.

Lemma requireAuth_refuses session d uid :
  session_userId session = Some uid ->
  getUser uid d = (d, inr None) ->
  exists resp, requireAuth session d = inl resp /\ status resp = 401.
Proof.
  intros Hs Hg. unfold requireAuth. rewrite Hs.
  destruct (truthy (Some uid)) as [u|] eqn:E; [|by eexists].
  unfold truthy in E. case_bool_decide; simplify_eq. rewrite Hg. by eexists.
Qed.

Lemma on_db_id (f : Db -> Db * Response) w resp :
  f (db w) = (db w, resp) -> on_db f w = (w, resp).
Proof. intros E. unfold on_db. rewrite E. by destruct w. Qed.

(** C10. On a session whose user id finds no user, every route behind
    [requireAuth] answers 401 and leaves the database and the sessions
    as they were. *)
Theorem dangling_session_unauthenticated (env : Env) (sid : string) (req : Request)
    (w : World) (session : Session) (uid : string) :
  sessions w !! sid = Some session ->
  session_userId session = Some uid ->
  getUser uid (db w) = (db w, inr None) ->
  RequireAuth ∈ middlewares req ->
  exists resp,
    handle env sid req w = (w, resp)
    /\ status resp = 401
    /\ error_kind resp = Some Unauthenticated.
Proof.
  intros Hsess Hs Hg Hreq.
  destruct (requireAuth_refuses session (db w) uid Hs Hg) as (resp & E & Hst).
  exists resp. split; [|split; [done|]].
  - unfold handle. rewrite Hsess. simpl.
    destruct req; simpl in *; try (by apply elem_of_nil in Hreq);
      by rewrite E.
  - unfold error_kind. rewrite Hst. reflexivity.
Qed.

(** C6, as the code has it.  The role gate of a route is decided by the
    role the user has in the database when the request arrives; the
    [userRole] kept in the session plays no part in the answer. *)
Theorem role_gate_reads_current_role (env : Env) (sid : string) (req : Request)
    (w : World) (session : Session) (uid : string) (user : User)
    (roles : list string) :
  sessions w !! sid = Some session ->
  session_userId session = Some uid ->
  uid <> "" ->
  getUser uid (db w) = (db w, inr (Some user)) ->
  middlewares req = [RequireAuth; RequireRole roles] ->
  (user_role user ∉ roles ->
   handle env sid req w = (w, json_message 403 "Insufficient permissions"))
  /\ (user_role user ∈ roles ->
      handle env sid req w = handler env sid req (Some user) w)
  /\ (forall snapshot,
        let w' := mkWorld (db w)
                    (<[sid := mkSession (Some uid) snapshot]> (sessions w)) in
        (handle env sid req w').2 = (handle env sid req w).2
        /\ db (handle env sid req w').1 = db (handle env sid req w).1).
Proof.
  intros Hsess Hs Hne Hg Hm.
  pose proof (requireAuth_user session (db w) uid user Hs Hne Hg) as Ha.
  split; [|split].
  - intros Hnot. unfold handle. rewrite Hsess, Hm. simpl. rewrite Ha.
    by rewrite bool_decide_eq_false_2.
  - intros Hin. unfold handle. rewrite Hsess, Hm. simpl. rewrite Ha.
    by rewrite bool_decide_eq_true_2.
  - intros snapshot w'.
    assert (requireAuth (mkSession (Some uid) snapshot) (db w) = inr user) as Ha'
      by by apply (requireAuth_user _ _ uid).
    unfold handle. subst w'. simpl. rewrite lookup_insert_eq, Hsess, Hm. simpl.
    rewrite Ha, Ha'. destruct (bool_decide (user_role user ∈ roles)); simpl; [|done].
    destruct req; simpl in Hm; simplify_eq; simpl; done.
Qed.

(** C7. A store owner asking for the ratings of a store owned by someone
    else gets the 403 of a permission failure and no data; and whoever
    lacks the store_owner role is refused by the role gate first,
    whatever store is asked for. *)
Theorem owner_ratings_of_foreign_store (env : Env) (sid : string) (w : World)
    (session : Session) (uid : string) (user : User) (storeId : number) :
  sessions w !! sid = Some session ->
  session_userId session = Some uid ->
  uid <> "" ->
  getUser uid (db w) = (db w, inr (Some user)) ->
  (user_role user = "store_owner" ->
   forall s,
     getStoreById storeId (db w) = (db w, inr (Some s)) ->
     store_ownerId s <> Some (user_id user) ->
     handle env sid (GetOwnerRatings storeId) w = (w, json_message 403 "Access denied")
     /\ error_kind (json_message 403 "Access denied") = Some PermissionDenied
     /\ error_kind (json_message 403 "Access denied")
        = error_kind (json_message 403 "Insufficient permissions"))
  /\ (user_role user <> "store_owner" ->
      handle env sid (GetOwnerRatings storeId) w
      = (w, json_message 403 "Insufficient permissions")).
Proof.
  intros Hsess Hs Hne Hg.
  pose proof (requireAuth_user session (db w) uid user Hs Hne Hg) as Ha.
  split.
  - intros Hrole s Hstore Howner. split; [|done].
    unfold handle. rewrite Hsess. simpl. rewrite Ha, Hrole. simpl.
    apply on_db_id. unfold owner_store_ratings, catch. storage_unfold.
    rewrite Hstore. by rewrite bool_decide_eq_true_2.
  - intros Hrole. unfold handle. rewrite Hsess. simpl. rewrite Ha.
    rewrite bool_decide_eq_false_2; [done|].
    intros Hin. apply list_elem_of_singleton in Hin. done.
Qed.

(** C8, as the code has it.  A password change whose current password
    does not verify is answered with status 400 and the message
    "Current password is incorrect"; the database, and so the stored
    hash, is unchanged. *)
Theorem wrong_current_password_rejected (env : Env) (sid : string) (w : World)
    (session : Session) (uid : string) (user : User) (body : Body)
    (data : UpdatePassword) :
  sessions w !! sid = Some session ->
  session_userId session = Some uid ->
  uid <> "" ->
  getUser uid (db w) = (db w, inr (Some user)) ->
  updatePasswordSchema body = inr data ->
  (forall hash, user_password user = Some hash ->
                bcrypt_compare (up_currentPassword data) hash = false) ->
  handle env sid (PutPassword body) w
  = (w, json_message 400 "Current password is incorrect").
Proof.
  intros Hsess Hs Hne Hg Hbody Hwrong.
  pose proof (requireAuth_user session (db w) uid user Hs Hne Hg) as Ha.
  pose proof (getUser_Some_id uid (db w) user Hg) as Hid.
  unfold handle. rewrite Hsess. simpl. rewrite Ha.
  apply on_db_id. unfold change_password, catch. rewrite Hbody.
  unfold updatePassword. storage_unfold. rewrite Hid, Hg. simpl.
  destruct (truthy (user_password user)) as [stored|] eqn:E; [|done].
  assert (user_password user = Some stored) as Hp.
  { unfold truthy in E. destruct (user_password user); [|done].
    by case_bool_decide; simplify_eq. }
  by rewrite (Hwrong stored Hp).
Qed.

(** C9. Registration adds no user with a role other than "normal",
    whatever it answers; and when it answers 201 it has added exactly
    one user, with role "normal", and has stored that user's id and the
    role "normal" in the session, whatever role the body asked for. *)
Theorem register_creates_normal_user (env : Env) (sid : string) (body : Body)
    (w w' : World) (resp : Response) :
  handle env sid (PostRegister body) w = (w', resp) ->
  (forall u, u ∈ users (db w') -> u ∈ users (db w) \/ user_role u = "normal")
  /\ (status resp = 201 ->
      exists user,
        users (db w') = users (db w) ++ [user]
        /\ user_role user = "normal"
        /\ sessions w' !! sid = Some (mkSession (Some (user_id user)) (Some "normal"))
        /\ payload resp
           = PUserSummary (user_id user) (user_name user) (user_email user) "normal").
Proof.
  unfold handle. simpl. unfold register.
  destruct (insertUserSchema zod_email body) as [errors|userData];
    [intros H; simplify_eq; split; [by left|done]|].
  unfold getUserByEmail at 1. storage_unfold. simpl.
  destruct (head _) as [existing|]; [intros H; simplify_eq; split; [by left|done]|].
  unfold createLocalUser, insert_user. storage_unfold. simpl.
  repeat (case_match; simpl); intros Hh; simplify_eq; simpl;
    (split; [|intros Hst; try done]); try (by left).
  - intros u Hu. apply elem_of_app in Hu as [Hu|Hu]; [by left|].
    apply list_elem_of_singleton in Hu. subst u. by right.
  - eexists. split; [reflexivity|]. split; [reflexivity|].
    split; [apply lookup_insert_eq|reflexivity].
Qed.

End Gates.

(** *** Requests seen as storage calls *)

Section Requests.

Variable bcrypt_hash : string -> string.
Variable bcrypt_compare : string -> string -> bool.
Variable ilike : string -> string -> bool.
Variable text_le : string -> string -> bool.
Variable zod_email : string -> bool.

Local Abbreviation handle := (handle bcrypt_hash bcrypt_compare ilike text_le zod_email).
Local Abbreviation handler := (handler bcrypt_hash bcrypt_compare ilike text_le zod_email).
Local Abbreviation exec := (exec bcrypt_hash bcrypt_compare).
Local Abbreviation reachable_db := (reachable_db bcrypt_hash bcrypt_compare).
Local Abbreviation one_call := (one_call bcrypt_hash bcrypt_compare).

Lemma with_user_rating_reads uid s d : (with_user_rating uid s d).1 = d.
Proof.
  unfold with_user_rating, getUserRatingForStore, bind_int4. storage_unfold.
  by repeat (case_match; simpl in *; simplify_eq).
Qed.

Lemma mapM_with_user_rating_reads uid l d :
  (mapM (with_user_rating uid) l d).1 = d.
Proof.
  revert d. induction l as [|s l IH]; intros d; [done|].
  simpl. storage_unfold.
  pose proof (with_user_rating_reads uid s d) as E1.
  destruct (with_user_rating uid s d) as [d1 [e|y]]; simpl in *; subst; [done|].
  pose proof (IH d) as E2.
  destruct (mapM (with_user_rating uid) l d) as [d2 [e|k]]; simpl in *; by subst.
Qed.

Lemma change_password_one_call user body env d :
  one_call d (change_password bcrypt_hash bcrypt_compare user body env d).1.
Proof.
  unfold change_password. destruct (updatePasswordSchema body) as [errors|data];
    [by left|].
  right. exists (CallUpdatePassword (user_id user) (up_currentPassword data)
                   (up_newPassword data) env). simpl.
  unfold catch. storage_unfold.
  by destruct (updatePassword _ _ _ _ _ _ d) as [d' [e|[|]]].
Qed.

Lemma admin_create_user_one_call body env d :
  one_call d (admin_create_user bcrypt_hash zod_email body env d).1.
Proof.
  unfold admin_create_user. destruct (insertUserSchema zod_email body) as [errors|data];
    [by left|].
  unfold catch, getUserByEmail. storage_unfold.
  destruct (head _); [by left|].
  right. exists (CallCreateLocalUser data env). simpl.
  by destruct (createLocalUser bcrypt_hash data env d) as [d' [e|u]].
Qed.

Lemma admin_set_role_one_call id body env d :
  one_call d (admin_set_role id body env d).1.
Proof.
  unfold admin_set_role.
  destruct (body !! "role") as [[| | |role|]|]; try by left.
  case_bool_decide; [|by left].
  right. exists (CallUpdateUserRole id role env). simpl.
  unfold catch. storage_unfold.
  by destruct (updateUserRole id role env d) as [d' [e|u]].
Qed.

Lemma admin_delete_user_one_call id d : one_call d (admin_delete_user id d).1.
Proof.
  right. exists (CallDeleteUser id). simpl. unfold admin_delete_user, catch.
  storage_unfold. by destruct (deleteUser id d) as [d' [e|u]].
Qed.

Lemma list_stores_reads user search address d :
  (list_stores ilike text_le user search address d).1 = d.
Proof.
  unfold list_stores, catch, getAllStores. storage_unfold.
  case_bool_decide; [|done].
  match goal with
  | |- context [mapM (with_user_rating ?uid) ?l d] =>
      pose proof (mapM_with_user_rating_reads uid l d) as E;
      destruct (mapM (with_user_rating uid) l d) as [d' [e|k]]
  end; simpl in *; by subst.
Qed.

Lemma admin_create_store_one_call body env d :
  one_call d (admin_create_store zod_email body env d).1.
Proof.
  unfold admin_create_store. destruct (insertStoreSchema zod_email body) as [errors|data];
    [by left|].
  right. exists (CallCreateStore data env). simpl. unfold catch. storage_unfold.
  by destruct (createStore data env d) as [d' [e|u]].
Qed.

Lemma admin_update_store_one_call id body env d :
  one_call d (admin_update_store zod_email id body env d).1.
Proof.
  unfold admin_update_store.
  destruct (insertStoreSchema_partial zod_email body) as [errors|data]; [by left|].
  right. exists (CallUpdateStore id data env). simpl. unfold catch. storage_unfold.
  by destruct (updateStore id data env d) as [d' [e|u]].
Qed.

Lemma admin_delete_store_one_call id d : one_call d (admin_delete_store id d).1.
Proof.
  right. exists (CallDeleteStore id). simpl. unfold admin_delete_store, catch.
  storage_unfold. by destruct (deleteStore id d) as [d' [e|u]].
Qed.

Lemma submit_rating_one_call user body env d :
  one_call d (submit_rating user body env d).1.
Proof.
  unfold submit_rating. destruct (insertRatingSchema _) as [errors|data]; [by left|].
  right. exists (CallCreateOrUpdateRating data env). simpl. unfold catch.
  storage_unfold. by destruct (createOrUpdateRating data env d) as [d' [e|u]].
Qed.

Lemma owner_store_ratings_reads user storeId d :
  (owner_store_ratings user storeId d).1 = d.
Proof.
  unfold owner_store_ratings, catch, getStoreById, getRatingsByStore, getStoreStats,
    bind_int4. storage_unfold.
  by repeat (case_match; simpl in *; simplify_eq).
Qed.

Lemma register_one_call sid body env w :
  one_call (db w) (db (register bcrypt_hash zod_email sid body env w).1).
Proof.
  unfold register. destruct (insertUserSchema zod_email body) as [errors|data];
    [by left|].
  unfold getUserByEmail at 1. storage_unfold. simpl.
  destruct (head _); [by left|].
  right. exists (CallCreateLocalUser (force_normal data) env). simpl.
  by destruct (createLocalUser bcrypt_hash (force_normal data) env (db w))
    as [d' [e|u]].
Qed.

Lemma authenticateLocal_reads sid body w :
  db (authenticateLocal bcrypt_compare sid body w).1 = db w.
Proof.
  unfold authenticateLocal. by repeat (case_match; simpl in *; simplify_eq).
Qed.

Lemma handler_one_call env sid req cu w :
  one_call (db w) (db (handler env sid req cu w).1).
Proof.
  destruct req, cu as [user|]; simpl; try (by left).
  all: first
    [ left; apply authenticateLocal_reads
    | apply register_one_call
    | apply change_password_one_call
    | apply admin_create_user_one_call
    | apply admin_set_role_one_call
    | apply admin_delete_user_one_call
    | left; apply list_stores_reads
    | apply admin_create_store_one_call
    | apply admin_update_store_one_call
    | apply admin_delete_store_one_call
    | apply submit_rating_one_call
    | left; apply owner_store_ratings_reads
    | idtac ].
Qed.

Lemma handle_one_call env sid req w :
  one_call (db w) (db (handle env sid req w).1).
Proof.
  unfold handle. destruct (run_middlewares _ _ _ _); [by left|].
  apply handler_one_call.
Qed.

(** Every request leaves a reachable database reachable: what the API
    can build is within what the storage calls can build. *)
Lemma handle_reachable env sid req w :
  reachable_db (db w) -> reachable_db (db (handle env sid req w).1).
Proof.
  intros Hreach. destruct (handle_one_call env sid req w) as [-> | [c ->]]; [done|].
  destruct Hreach as [calls <-]. exists (calls ++ [c]).
  unfold exec_all. by rewrite foldl_app.
Qed.

Lemma run_reachable trace w :
  reachable_db (db w) ->
  reachable_db (db (run bcrypt_hash bcrypt_compare ilike text_le zod_email trace w)).
Proof.
  revert w. induction trace as [|[[env sid] req] trace IH]; intros w Hw; [done|].
  simpl. apply IH. by apply handle_reachable.
Qed.

(** So the unique pair also holds after any run of requests. *)
Corollary run_keeps_one_rating_per_pair trace w uid sid :
  reachable_db (db w) ->
  (length (filter (has_key uid sid)
             (ratings (db (run bcrypt_hash bcrypt_compare ilike text_le zod_email
                             trace w)))) <= 1)%nat.
Proof.
  intros Hreach. apply unique_key_one_row, ok_keys.
  apply (reachable_db_ok bcrypt_hash bcrypt_compare). by apply run_reachable.
Qed.

End Requests.

(** ** Facts about keyed tables *)

Section SchemaFacts.

Lemma unique_by_key {A B} (f : A -> B) (l : list A) u v :
  NoDup (map f l) -> u ∈ l -> v ∈ l -> f u = f v -> u = v.
Proof.
  induction l as [|x l IH]; simpl; intros Hnd Hu Hv Heq.
  - by apply elem_of_nil in Hu.
  - apply NoDup_cons in Hnd as [Hx Hnd].
    apply elem_of_cons in Hu as [->|Hu]; apply elem_of_cons in Hv as [->|Hv].
    + done.
    + exfalso. apply Hx. rewrite Heq. by apply (list_elem_of_fmap_2 f).
    + exfalso. apply Hx. rewrite <- Heq. by apply (list_elem_of_fmap_2 f).
    + by apply IH.
Qed.

Lemma head_filter_elem {A} (P : A -> Prop) `{!forall x, Decision (P x)} (l : list A) x :
  head (filter P l) = Some x -> x ∈ l /\ P x.
Proof.
  intros Hh. destruct (filter P l) as [|y ys] eqn:E; simplify_eq. simpl in Hh. simplify_eq.
  assert (x ∈ filter P l) as Hin by (rewrite E; left).
  apply list_elem_of_filter in Hin. tauto.
Qed.

Lemma head_filter_None {A} (P : A -> Prop) `{!forall x, Decision (P x)} (l : list A) :
  head (filter P l) = None <-> filter P l = [].
Proof. destruct (filter P l); simpl; split; done. Qed.

Lemma filter_nil_forall {A} (P : A -> Prop) `{!forall x, Decision (P x)} (l : list A) :
  filter P l = [] <-> forall x, x ∈ l -> ~ P x.
Proof.
  split.
  - intros E x Hx HP. assert (x ∈ filter P l) as Hin by (apply list_elem_of_filter; done).
    rewrite E in Hin. by apply elem_of_nil in Hin.
  - intros Hall. destruct (filter P l) as [|x xs] eqn:E; [done|].
    assert (x ∈ filter P l) as Hin by (rewrite E; left).
    apply list_elem_of_filter in Hin as [HP Hin]. by destruct (Hall x Hin).
Qed.



(** What an insert into [users] does when it goes through. *)
Lemma insert_user_spec row d :
  (exists e, insert_user row d = (d, inl e))
  \/ (insert_user row d
      = (with_users (users d ++ [users_row row]) d, inr (users_row row))
      /\ (forall u, u ∈ users d -> user_id u <> user_id row)
      /\ (is_Some (user_email row) ->
          forall u, u ∈ users d -> user_email u <> user_email row)).
Proof.
  unfold insert_user. storage_unfold.
  destruct (negb _); [left; by eexists|].
  destruct (exists_row (fun u => user_id u = user_id row) (users d)) eqn:E1;
    [left; by eexists|].
  destruct (bool_decide (is_Some (user_email row))) eqn:E2; simpl.
  - destruct (exists_row (fun u => user_email u = user_email row) (users d)) eqn:E3;
      [left; by eexists|].
    right. split; [done|]. apply exists_row_false in E1, E3.
    rewrite filter_nil_forall in E1, E3. split; [done|]. intros _. done.
  - right. split; [done|]. apply exists_row_false in E1.
    rewrite filter_nil_forall in E1. split; [done|].
    intros Hs. apply bool_decide_eq_false in E2. done.
Qed.

(** What an update of the user [id] does when it goes through. *)
Lemma update_user_spec id f d :
  (exists r, update_user id f d = (d, r) /\ (r = inr None \/ exists e, r = inl e))
  \/ (exists u,
        head (filter (fun u => user_id u = id) (users d)) = Some u
        /\ update_user id f d
           = (with_users (map (fun v => if bool_decide (user_id v = id)
                                        then users_update v (f v) else v)
                             (users d)) d,
              inr (Some (users_update u (f u))))
        /\ (is_Some (user_email (f u)) -> user_email (f u) <> user_email u ->
            forall v, v ∈ users d -> user_id v <> id ->
                      user_email v <> user_email (f u))).
Proof.
  unfold update_user. storage_unfold.
  destruct (filter (fun u => user_id u = id) (users d)) as [|u us] eqn:E;
    [left; eexists; split; [done|by left]|].
  destruct (negb _); [left; eexists; split; [done|right; by eexists]|].
  match goal with |- context [if ?b then _ else _] => destruct b eqn:E2 end;
    [left; eexists; split; [done|right; by eexists]|].
  right. exists u. split; [done|]. split; [done|].
  intros Hs Hne v Hv Hid Hem.
  apply andb_false_iff in E2 as [E2|E2].
  - apply bool_decide_eq_false in E2. by apply E2.
  - apply exists_row_false in E2. rewrite filter_nil_forall in E2. by apply (E2 v Hv).
Qed.

End SchemaFacts.

(** ** The storage calls keep the constraints on [users] and [stores] *)

Section SchemaPreservation.

Lemma schema_ok_frame d d' :
  users d' = users d -> stores d' = stores d -> stores_id_seq d' = stores_id_seq d ->
  schema_ok d -> schema_ok d'.
Proof. intros Hu Hs Hq [? ? ? ? ?]. split; rewrite ?Hu, ?Hs, ?Hq; done. Qed.

Lemma schema_ok_empty : schema_ok empty_db.
Proof.
  split; simpl; try constructor.
  intros u v Hu. by apply elem_of_nil in Hu.
Qed.

Lemma schema_ok_insert_user row d : schema_ok d -> schema_ok (insert_user row d).1.
Proof.
  intros Hok. destruct (insert_user_spec row d) as [[e ->]|(-> & Hid & Hem)]; [done|].
  destruct Hok as [I E S Q F]. split; simpl; [| |done|done|].
  - rewrite map_app. apply NoDup_app. split; [done|]. split; [|apply NoDup_singleton].
    intros x Hx Hx'. apply list_elem_of_singleton in Hx'. subst x.
    apply list_elem_of_fmap in Hx as (u & Hu1 & Hu2). by apply (Hid u Hu2).
  - intros u v Hu Hv Hs Heq.
    apply elem_of_app in Hu as [Hu|Hu]; apply elem_of_app in Hv as [Hv|Hv];
      rewrite ?list_elem_of_singleton in *; subst;
      change (user_email (users_row row)) with (user_email row) in *.
    + by apply E.
    + exfalso. assert (is_Some (user_email row)) as Hs' by (by rewrite <- Heq).
      by apply (Hem Hs' u Hu).
    + exfalso. by apply (Hem Hs v Hv).
    + done.
  - eapply Forall_impl; [exact F|]. intros s Hs o Ho. destruct (Hs o Ho) as (u & Hu & Hi).
    exists u. split; [|done]. apply elem_of_app. by left.
Qed.

Lemma schema_ok_update_user id f d :
  (forall v, user_id v = id -> user_id (f v) = id) ->
  schema_ok d -> schema_ok (update_user id f d).1.
Proof.
  intros Hf Hok.
  destruct (update_user_spec id f d) as [(r & -> & _)|(u & Hhead & -> & Hem)]; [done|].
  apply head_filter_elem in Hhead as [Hu Hidu].
  destruct Hok as [I E S Q F].
  set (g := fun v => if bool_decide (user_id v = id) then users_update v (f v) else v).
  assert (forall v, user_id (g v) = user_id v) as Hg.
  { intros v. unfold g. case_bool_decide as Hv; [|done]. simpl. rewrite Hf; done. }
  assert (forall v, v ∈ users d -> user_id v = id -> v = u) as Huniq.
  { intros v Hv Hv'. apply (unique_by_key user_id (users d)); [done|done|done|congruence]. }
  split; simpl; [| |done|done|].
  - rewrite map_map. erewrite map_ext; [exact I|]. intros v. apply Hg.
  - intros u' v' Hu' Hv' Hs Heq.
    apply list_elem_of_fmap in Hu' as (u0 & -> & Hu0).
    apply list_elem_of_fmap in Hv' as (v0 & -> & Hv0).
    fold g in Hs, Heq |- *.
    destruct (decide (user_id u0 = id)) as [Hi|Hi];
      destruct (decide (user_id v0 = id)) as [Hj|Hj].
    + by rewrite (Huniq u0 Hu0 Hi), (Huniq v0 Hv0 Hj).
    + exfalso. pose proof (Huniq u0 Hu0 Hi) as ->.
      assert (g u = users_update u (f u)) as Egu
        by (unfold g; by rewrite bool_decide_eq_true_2).
      assert (g v0 = v0) as Egv by (unfold g; by rewrite bool_decide_eq_false_2).
      rewrite Egu, Egv in *.
      change (user_email (users_update u (f u))) with (user_email (f u)) in *.
      destruct (decide (user_email (f u) = user_email u)) as [Hsame|Hdiff].
      * rewrite Hsame in Hs, Heq. apply Hj. by rewrite <- (E u v0 Hu Hv0 Hs Heq).
      * apply (Hem Hs Hdiff v0 Hv0 Hj). by symmetry.
    + exfalso. pose proof (Huniq v0 Hv0 Hj) as ->.
      assert (g u = users_update u (f u)) as Egu
        by (unfold g; by rewrite bool_decide_eq_true_2).
      assert (g u0 = u0) as Egv by (unfold g; by rewrite bool_decide_eq_false_2).
      rewrite Egu, Egv in *.
      change (user_email (users_update u (f u))) with (user_email (f u)) in *.
      destruct (decide (user_email (f u) = user_email u)) as [Hsame|Hdiff].
      * rewrite Hsame in Heq. apply Hi. by rewrite (E u0 u Hu0 Hu Hs Heq).
      * assert (is_Some (user_email (f u))) as Hs' by (by rewrite <- Heq).
        by apply (Hem Hs' Hdiff u0 Hu0 Hi).
    + assert (g u0 = u0) as Egu by (unfold g; by rewrite bool_decide_eq_false_2).
      assert (g v0 = v0) as Egv by (unfold g; by rewrite bool_decide_eq_false_2).
      rewrite Egu, Egv in *. by apply E.
  - eapply Forall_impl; [exact F|]. intros s Hs o Ho. destruct (Hs o Ho) as (v & Hv & Hi).
    exists (g v). split; [by apply (list_elem_of_fmap_2 g)|]. by rewrite Hg.
Qed.

Lemma schema_ok_deleteUser id d : schema_ok d -> schema_ok (deleteUser id d).1.
Proof.
  intros [I E S Q F]. unfold deleteUser. storage_unfold.
  destruct (exists_row (fun u => user_id u = id) (users d)) eqn:Eu;
    destruct (exists_row (fun r => rating_userId r = id) (ratings d)
              || exists_row (fun s => store_ownerId s = Some id) (stores d)) eqn:Er;
    simpl; try (by split).
  all: split; simpl; [| |done|done|].
  all: try (apply NoDup_fmap_2_strong;
            [intros x y Hx Hy; apply list_elem_of_filter in Hx as [_ Hx];
             apply list_elem_of_filter in Hy as [_ Hy];
             by apply (unique_by_key user_id (users d))
            |apply NoDup_filter; by eapply NoDup_fmap_1]).
  all: try (intros u v Hu Hv; apply list_elem_of_filter in Hu as [_ Hu];
            apply list_elem_of_filter in Hv as [_ Hv]; by apply E).
  - apply orb_false_iff in Er as [_ Er]. apply exists_row_false in Er.
    rewrite filter_nil_forall in Er. rewrite Forall_forall in F |- *.
    intros s Hs o Ho. destruct (F s Hs o Ho) as (u & Hu & Hi). exists u. split; [|done].
    apply list_elem_of_filter. split; [|done]. intros Hid. apply (Er s Hs). congruence.
  - apply exists_row_false in Eu. rewrite filter_nil_forall in Eu.
    rewrite Forall_forall in F |- *.
    intros s Hs o Ho. destruct (F s Hs o Ho) as (u & Hu & Hi). exists u. split; [|done].
    apply list_elem_of_filter. split; [|done]. by apply Eu.
  - apply exists_row_false in Eu. rewrite filter_nil_forall in Eu.
    rewrite Forall_forall in F |- *.
    intros s Hs o Ho. destruct (F s Hs o Ho) as (u & Hu & Hi). exists u. split; [|done].
    apply list_elem_of_filter. split; [|done]. by apply Eu.
Qed.


(** What [createStore] does when it goes through. *)
Lemma createStore_spec storeData env d :
  let store := mkStore (stores_id_seq d) (varchar_cut 60 (is_name storeData))
                 (is_email storeData) (is_address storeData) (is_ownerId storeData)
                 (Some (now env)) (Some (now env)) in
  (exists e, (createStore storeData env d).2 = inl e
             /\ users (createStore storeData env d).1 = users d
             /\ stores (createStore storeData env d).1 = stores d
             /\ ratings (createStore storeData env d).1 = ratings d
             /\ stores_id_seq d <= stores_id_seq (createStore storeData env d).1)
  \/ (createStore storeData env d
      = (mkDb (users d) (stores d ++ [store]) (ratings d) (stores_id_seq d + 1)
           (ratings_id_seq d), inr store)
      /\ (forall s, s ∈ stores d -> store_id s <> stores_id_seq d)
      /\ (forall o, is_ownerId storeData = Some o ->
                    exists u, u ∈ users d /\ user_id u = o)).
Proof.
  unfold createStore. storage_unfold. simpl.
  destruct (negb _); [left; eexists; by repeat split|].
  case_bool_decide; [|left; eexists; by repeat split]. simpl.
  destruct (exists_row (fun s => store_id s = stores_id_seq d) (stores d)) eqn:E1;
    [left; eexists; repeat split; simpl; lia|].
  apply exists_row_false in E1. rewrite filter_nil_forall in E1.
  destruct (is_ownerId storeData) as [o|] eqn:Eo; simpl.
  - destruct (exists_row (fun u => user_id u = o) (users d)) eqn:E2; simpl;
      [|left; eexists; repeat split; simpl; lia].
    right. split; [done|]. split; [done|]. intros o' Ho'. simplify_eq.
    by apply exists_row_true in E2.
  - right. split; [done|]. split; [done|]. intros o' Ho'. done.
Qed.

Lemma schema_ok_createStore storeData env d :
  schema_ok d -> schema_ok (createStore storeData env d).1.
Proof.
  intros Hok. destruct (createStore_spec storeData env d)
    as [(e & _ & Hu & Hs & _ & Hq)|(-> & Hid & Hown)].
  - destruct Hok as [I E S Q F]. split; rewrite ?Hu, ?Hs; try done.
    eapply Forall_impl; [exact Q|]. intros s Hlt. simpl in *. lia.
  - destruct Hok as [I E S Q F]. split; simpl; [done|done| | |].
    + rewrite map_app. apply NoDup_app. split; [done|]. split; [|apply NoDup_singleton].
      intros x Hx Hx'. apply list_elem_of_singleton in Hx'. subst x.
      apply list_elem_of_fmap in Hx as (s & Hs1 & Hs2). by apply (Hid s Hs2).
    + apply Forall_app. split; [|apply Forall_singleton; simpl; lia].
      eapply Forall_impl; [exact Q|]. intros s Hlt. simpl in *. lia.
    + apply Forall_app. split; [done|]. by apply Forall_singleton.
Qed.

Lemma schema_ok_updateStore id storeData env d :
  schema_ok d -> schema_ok (updateStore id storeData env d).1.
Proof.
  intros [I E S Q F]. unfold updateStore, bind_int4. storage_unfold.
  destruct (pg_int4 id) as [i|]; [|by split].
  destruct (filter (fun s => store_id s = i) (stores d)) as [|s0 ss]; [by split|].
  destruct (negb _); [by split|].
  set (g := fun s' => if bool_decide (store_id s' = i)
                      then patch_store (stores_patch storeData) (now env) s' else s').
  assert (forall s, store_id (g s) = store_id s) as Hg
    by (intros s; unfold g; by case_bool_decide).
  assert (NoDup (map store_id (map g (stores d)))) as S'.
  { rewrite map_map. erewrite map_ext; [exact S|]. apply Hg. }
  assert (Forall (fun s => store_id s < stores_id_seq d) (map g (stores d))) as Q'.
  { apply Forall_fmap. eapply Forall_impl; [exact Q|]. intros s Hs. unfold compose.
    by rewrite Hg. }
  destruct (ps_ownerId storeData) as [[o|]|] eqn:Eo; simpl.
  - destruct (exists_row (fun u => user_id u = o) (users d)) eqn:E2; simpl; [|by split].
    apply exists_row_true in E2.
    split; simpl; [done|done|done|done|].
    apply Forall_fmap. eapply Forall_impl; [exact F|]. intros s Hs o' Ho'.
    unfold compose, g in Ho'. case_bool_decide; [|by apply Hs].
    unfold patch_store in Ho'. simpl in Ho'. rewrite Eo in Ho'. simpl in Ho'.
    by simplify_eq.
  - split; simpl; [done|done|done|done|].
    apply Forall_fmap. eapply Forall_impl; [exact F|]. intros s Hs o' Ho'.
    unfold compose, g in Ho'. case_bool_decide; [|by apply Hs].
    unfold patch_store in Ho'. simpl in Ho'. rewrite Eo in Ho'. simpl in Ho'. done.
  - split; simpl; [done|done|done|done|].
    apply Forall_fmap. eapply Forall_impl; [exact F|]. intros s Hs o' Ho'.
    unfold compose, g in Ho'. case_bool_decide; [|by apply Hs].
    unfold patch_store in Ho'. simpl in Ho'. rewrite Eo in Ho'. simpl in Ho'.
    by apply Hs.
Qed.

Lemma schema_ok_deleteStore id d : schema_ok d -> schema_ok (deleteStore id d).1.
Proof.
  intros [I E S Q F]. unfold deleteStore, bind_int4. storage_unfold.
  destruct (pg_int4 id) as [i|]; [|by split].
  destruct (_ && _); simpl; [by split|].
  split; simpl; [done|done| | |].
  - apply NoDup_fmap_2_strong; [|apply NoDup_filter; by eapply NoDup_fmap_1].
    intros x y Hx Hy. apply list_elem_of_filter in Hx as [_ Hx].
    apply list_elem_of_filter in Hy as [_ Hy]. by apply (unique_by_key store_id (stores d)).
  - apply Forall_forall. intros s Hs. apply list_elem_of_filter in Hs as [_ Hs].
    rewrite Forall_forall in Q. by apply Q.
  - apply Forall_forall. intros s Hs. apply list_elem_of_filter in Hs as [_ Hs].
    rewrite Forall_forall in F. by apply F.
Qed.

Lemma schema_ok_createOrUpdateRating data env d :
  schema_ok d -> schema_ok (createOrUpdateRating data env d).1.
Proof.
  intros Hok. unfold createOrUpdateRating, bind_int4. storage_unfold.
  repeat (case_match; simpl in *; simplify_eq); try done;
    (eapply schema_ok_frame; [| | |exact Hok]; done).
Qed.

Variable bcrypt_hash : string -> string.
Variable bcrypt_compare : string -> string -> bool.

Lemma schema_ok_upsertUser userData env d :
  schema_ok d -> schema_ok (upsertUser userData env d).1.
Proof.
  intros Hok. unfold upsertUser. storage_unfold. case_match.
  - by apply schema_ok_update_user.
  - match goal with
    | |- schema_ok (let (_, _) := insert_user ?r d in _).1 =>
        pose proof (schema_ok_insert_user r d Hok) as Hin;
        destruct (insert_user r d) as [d' [e|o]]
    end; simpl in *; done.
Qed.

Lemma schema_ok_updatePassword userId currentPassword newPassword env d :
  schema_ok d ->
  schema_ok (updatePassword bcrypt_hash bcrypt_compare userId currentPassword newPassword
               env d).1.
Proof.
  intros Hok. unfold updatePassword, getUser. storage_unfold.
  destruct (stored_password _); simpl; [|done].
  destruct (bcrypt_compare _ _); simpl; [|done].
  match goal with
  | |- schema_ok (let (_, _) := update_user ?i ?f d in _).1 =>
      pose proof (schema_ok_update_user i f d) as Hup;
      destruct (update_user i f d) as [d' [e|o]]
  end; simpl in *; apply Hup; done.
Qed.

Lemma schema_ok_exec d c : schema_ok d -> schema_ok (exec bcrypt_hash bcrypt_compare d c).
Proof.
  intros Hok. destruct c; simpl.
  - by apply schema_ok_upsertUser.
  - by apply schema_ok_insert_user.
  - by apply schema_ok_update_user.
  - by apply schema_ok_deleteUser.
  - by apply schema_ok_updatePassword.
  - by apply schema_ok_createStore.
  - by apply schema_ok_updateStore.
  - by apply schema_ok_deleteStore.
  - by apply schema_ok_createOrUpdateRating.
Qed.

Lemma reachable_db_schema_ok d :
  reachable_db bcrypt_hash bcrypt_compare d -> schema_ok d.
Proof.
  intros [calls <-]. unfold exec_all.
  assert (forall d0, schema_ok d0 -> schema_ok (foldl (exec bcrypt_hash bcrypt_compare) d0 calls))
    as Hall; [|apply Hall, schema_ok_empty].
  induction calls as [|c calls IH]; intros d0 Hok; simpl; [done|].
  apply IH. by apply schema_ok_exec.
Qed.

(** Every reachable database satisfies what the schema declares for
    [users] and [stores]: user ids are pairwise distinct, two users never
    share an email, store ids are pairwise distinct and below the
    sequence, and every owner of a store is a user. *)
Theorem reachable_schema_ok (d : Db) :
  reachable_db bcrypt_hash bcrypt_compare d ->
  NoDup (map user_id (users d))
  /\ (forall u v, u ∈ users d -> v ∈ users d ->
                  is_Some (user_email u) -> user_email u = user_email v -> u = v)
  /\ NoDup (map store_id (stores d))
  /\ Forall (fun s => store_id s < stores_id_seq d) (stores d)
  /\ Forall (fun s => forall o, store_ownerId s = Some o ->
                                exists u, u ∈ users d /\ user_id u = o) (stores d).
Proof.
  intros Hreach. destruct (reachable_db_schema_ok d Hreach) as [Hids Hemails Hsids Hseq Hfk].
  split; [exact Hids|]. split; [exact Hemails|]. split; [exact Hsids|].
  split; [exact Hseq|exact Hfk].
Qed.

End SchemaPreservation.

(** ** Login, logout and the current user *)

Section Login.

Variable bcrypt_hash : string -> string.
Variable bcrypt_compare : string -> string -> bool.
Variable ilike : string -> string -> bool.
Variable text_le : string -> string -> bool.
Variable zod_email : string -> bool.

Local Abbreviation handle := (handle bcrypt_hash bcrypt_compare ilike text_le zod_email).
Local Abbreviation reachable_db := (reachable_db bcrypt_hash bcrypt_compare).

Lemma world_eta w : mkWorld (db w) (sessions w) = w.
Proof. by destruct w. Qed.

Lemma falsy_string s : s <> "" -> falsy (Some (JStr s)) = false.
Proof. intros Hs. simpl. by rewrite bool_decide_eq_false_2. Qed.

Lemma requireAuth_no_user session d :
  (forall uid, session_userId session = Some uid -> uid = "") ->
  requireAuth session d = inl (json_message 401 "Unauthorized").
Proof.
  intros Hs. unfold requireAuth. destruct (session_userId _) as [uid|]; [|done].
  rewrite (Hs uid eq_refl). reflexivity.
Qed.

Lemma handle_refused_by_requireAuth env sid req w r :
  requireAuth (default empty_session (sessions w !! sid)) (db w) = inl r ->
  RequireAuth ∈ middlewares req ->
  handle env sid req w = (w, r).
Proof.
  intros E Hreq. unfold handle.
  destruct req; simpl in *; try (by apply elem_of_nil in Hreq); by rewrite E.
Qed.

Lemma authenticateLocal_refuses sid body w email password found :
  body !! "email" = Some (JStr email) ->
  body !! "password" = Some (JStr password) ->
  email <> "" -> password <> "" ->
  getUserByEmail email (db w) = (db w, inr found) ->
  (forall hash, stored_password found = Some hash ->
                bcrypt_compare password hash = false) ->
  authenticateLocal bcrypt_compare sid body w = (w, json_message 401 "Invalid credentials").
Proof.
  intros He Hp Hne Hnp Hg Hbad. unfold authenticateLocal. rewrite He, Hp.
  rewrite !falsy_string by done. cbn [orb]. rewrite Hg. cbn [snd].
  destruct (stored_password found) as [hash|] eqn:Es; [|done].
  destruct found as [u|]; [|done]. by rewrite (Hbad hash eq_refl).
Qed.

Lemma authenticateLocal_accepts sid body w email password hash user :
  body !! "email" = Some (JStr email) ->
  body !! "password" = Some (JStr password) ->
  email <> "" -> password <> "" ->
  getUserByEmail email (db w) = (db w, inr (Some user)) ->
  stored_password (Some user) = Some hash ->
  bcrypt_compare password hash = true ->
  authenticateLocal bcrypt_compare sid body w = (log_in sid user w, user_summary 200 user).
Proof.
  intros He Hp Hne Hnp Hg Hs Hc. unfold authenticateLocal. rewrite He, Hp.
  rewrite !falsy_string by done. cbn [orb]. rewrite Hg. cbn [snd].
  by rewrite Hs, Hc.
Qed.

(** A request behind [requireAuth] on a session that holds no user id is
    answered 401 "Unauthorized" and changes nothing. *)
Theorem request_without_login_unauthorized (env : Env) (sid : string) (req : Request)
    (w : World) :
  (forall uid, session_userId (default empty_session (sessions w !! sid)) = Some uid ->
               uid = "") ->
  RequireAuth ∈ middlewares req ->
  handle env sid req w = (w, json_message 401 "Unauthorized").
Proof.
  intros Hs Hreq. apply handle_refused_by_requireAuth; [|exact Hreq].
  by apply requireAuth_no_user.
Qed.

(** Login refuses with 400 when the email or the password is missing or
    empty, and with one and the same 401 "Invalid credentials" when the
    email is unknown, the user has no password, or the password does not
    verify; in each case nothing changes. *)
Theorem login_refusals (env : Env) (sid : string) (body : Body) (w : World) :
  (falsy (body !! "email") || falsy (body !! "password") = true ->
   handle env sid (PostLogin body) w
   = (w, json_message 400 "Email and password required"))
  /\ (forall email password found,
        body !! "email" = Some (JStr email) ->
        body !! "password" = Some (JStr password) ->
        email <> "" -> password <> "" ->
        getUserByEmail email (db w) = (db w, inr found) ->
        (forall hash, stored_password found = Some hash ->
                      bcrypt_compare password hash = false) ->
        handle env sid (PostLogin body) w = (w, json_message 401 "Invalid credentials")).
Proof.
  split.
  - intros Hf. unfold handle. simpl. unfold authenticateLocal. by rewrite Hf.
  - intros email password found He Hp Hne Hnp Hg Hbad.
    change (authenticateLocal bcrypt_compare sid body w
            = (w, json_message 401 "Invalid credentials")).
    by apply (authenticateLocal_refuses sid body w email password found).
Qed.

(** A login with the right password answers 200 with the user's summary
    and stores the user's id and role in the session of the request; the
    database and the other sessions stay. *)
Theorem login_success (env : Env) (sid : string) (body : Body) (w : World)
    (email password hash : string) (user : User) :
  body !! "email" = Some (JStr email) ->
  body !! "password" = Some (JStr password) ->
  email <> "" -> password <> "" ->
  getUserByEmail email (db w) = (db w, inr (Some user)) ->
  stored_password (Some user) = Some hash ->
  bcrypt_compare password hash = true ->
  handle env sid (PostLogin body) w
  = (mkWorld (db w)
       (<[sid := mkSession (Some (user_id user)) (Some (user_role user))]> (sessions w)),
     mkResponse 200
       (PUserSummary (user_id user) (user_name user) (user_email user) (user_role user))).
Proof.
  intros He Hp Hne Hnp Hg Hs Hc.
  change (handle env sid (PostLogin body) w)
    with (authenticateLocal bcrypt_compare sid body w).
  by rewrite (authenticateLocal_accepts sid body w email password hash user).
Qed.


(** Logout drops the session of the request and nothing else; from then
    on that session is refused by [requireAuth]. *)
Theorem logout_ends_session (env env' : Env) (sid : string) (w : World) :
  let w' := (handle env sid PostLogout w).1 in
  db w' = db w
  /\ sessions w' !! sid = None
  /\ (forall sid', sid' <> sid -> sessions w' !! sid' = sessions w !! sid')
  /\ (forall req, RequireAuth ∈ middlewares req ->
                  handle env' sid req w' = (w', json_message 401 "Unauthorized")).
Proof.
  intros w'. subst w'. unfold handle at 1 2 3. simpl.
  split; [done|]. split; [apply lookup_delete_eq|]. split.
  - intros sid' Hne. by apply lookup_delete_ne.
  - intros req Hreq. apply handle_refused_by_requireAuth; [|done].
    apply requireAuth_no_user. unfold handle. simpl. rewrite lookup_delete_eq. simpl. done.
Qed.

End Login.

(** ** What the zod schemas accept *)

Section SchemaAcceptance.

Variable zod_email : string -> bool.

Lemma check_nil_iff {A} (test : A -> bool) m a : check test m a = [] <-> test a = true.
Proof. unfold check. destruct (test a); split; done. Qed.

Lemma z_string_inr_iff checks v s :
  z_string checks v = inr s <-> v = Some (JStr s) /\ concat (map (fun c => c s) checks) = [].
Proof.
  unfold z_string. split.
  - intros Hh. repeat (case_match; simplify_eq). done.
  - intros [-> ->]. done.
Qed.

Lemma z_enum_inr_iff values v s :
  z_enum values v = inr s <-> v = Some (JStr s) /\ s ∈ values.
Proof.
  unfold z_enum. split.
  - intros Hh. repeat (case_match; simplify_eq).
    split; [done|]. by eapply bool_decide_eq_true_1.
  - intros [-> Hin]. by rewrite bool_decide_eq_true_2.
Qed.

Lemma password_checks_nil_iff p :
  concat (map (fun c => c p) password_checks) = []
  <-> (8 <= utf16_length p <= 16)%nat /\ has_uppercase p = true /\ has_special p = true.
Proof.
  unfold password_checks, check, min_length, max_length. simpl.
  repeat case_bool_decide; destruct (has_uppercase p), (has_special p); simpl;
    split; try done; intros; try lia; intuition (try lia; try discriminate).
Qed.

(** What a body that [insertUserSchema] accepts must look like. *)
Lemma insertUserSchema_inr_fields (body : Body) (data : InsertUser) :
  insertUserSchema zod_email body = inr data
  -> body !! "email" = Some (JStr (iu_email data))
     /\ zod_email (iu_email data) = true
     /\ body !! "name" = Some (JStr (iu_name data))
     /\ (20 <= utf16_length (iu_name data) <= 60)%nat
     /\ body !! "address" = Some (JStr (iu_address data))
     /\ (utf16_length (iu_address data) <= 400)%nat
     /\ body !! "password" = Some (JStr (iu_password data))
     /\ (8 <= utf16_length (iu_password data) <= 16)%nat
     /\ has_uppercase (iu_password data) = true
     /\ has_special (iu_password data) = true
     /\ body !! "role" = Some (JStr (iu_role data))
     /\ iu_role data ∈ ["admin"; "normal"; "store_owner"].
Proof.
  unfold insertUserSchema.
  intros Hh.
  destruct (z_string _ (body !! "email")) as [|e] eqn:E1; [by repeat case_match|].
  destruct (z_string _ (body !! "name")) as [|n] eqn:E2; [by repeat case_match|].
  destruct (z_string _ (body !! "address")) as [|a] eqn:E3; [by repeat case_match|].
  destruct (z_string _ (body !! "password")) as [|p] eqn:E4; [by repeat case_match|].
  destruct (z_enum _ (body !! "role")) as [|r] eqn:E5; [done|].
  simplify_eq. simpl.
  apply z_string_inr_iff in E1 as [-> C1], E2 as [-> C2], E3 as [-> C3], E4 as [-> C4].
  apply z_enum_inr_iff in E5 as [-> C5].
  apply password_checks_nil_iff in C4. simpl in C1, C2, C3.
  rewrite app_nil_r in C1, C2, C3. apply app_eq_nil in C2 as [C2 C2'].
  apply check_nil_iff in C1, C2, C2', C3. unfold min_length, max_length in *.
  apply bool_decide_eq_true in C2, C2', C3. tauto.
Qed.

End SchemaAcceptance.

(** ** Accounts: registration, passwords and the admin routes for users *)

Section Accounts.

Variable bcrypt_hash : string -> string.
Variable bcrypt_compare : string -> string -> bool.
Variable ilike : string -> string -> bool.
Variable text_le : string -> string -> bool.
Variable zod_email : string -> bool.

Local Abbreviation handle := (handle bcrypt_hash bcrypt_compare ilike text_le zod_email).
Local Abbreviation reachable_db := (reachable_db bcrypt_hash bcrypt_compare).

Lemma head_filter_map {A} (P : A -> Prop) `{!forall x, Decision (P x)} (g : A -> A)
    (l : list A) :
  (forall x, P (g x) <-> P x) ->
  head (filter P (map g l)) = g <$> head (filter P l).
Proof.
  intros Hg. induction l as [|x l IH]; [done|]. simpl. rewrite !filter_cons.
  destruct (decide (P x)) as [Hx|Hx].
  - rewrite decide_True by by apply Hg. done.
  - rewrite decide_False by by rewrite Hg. done.
Qed.

(** Registering with an email that a user already has is refused with
    400 "User already exists with this email"; nothing changes. *)
Theorem register_existing_email (env : Env) (sid : string) (body : Body) (w : World)
    (data : InsertUser) (u : User) :
  insertUserSchema zod_email body = inr data ->
  u ∈ users (db w) ->
  user_email u = Some (iu_email data) ->
  handle env sid (PostRegister body) w
  = (w, json_message 400 "User already exists with this email").
Proof.
  intros Hd Hu He. unfold handle. simpl. unfold register. rewrite Hd.
  unfold getUserByEmail. storage_unfold. simpl.
  destruct (head _) as [x|] eqn:E; [done|].
  apply head_filter_None in E. rewrite filter_nil_forall in E. by destruct (E u Hu).
Qed.

(** After a registration answered 201, a login with the same email and
    password succeeds and opens a session for the new user. *)
Theorem register_then_login (env env' : Env) (sid sid' : string) (body body' : Body)
    (w w' : World) (resp : Response) (data : InsertUser) :
  (forall p, bcrypt_compare p (bcrypt_hash p) = true) ->
  (forall p, bcrypt_hash p <> "") ->
  zod_email "" = false ->
  insertUserSchema zod_email body = inr data ->
  handle env sid (PostRegister body) w = (w', resp) ->
  status resp = 201 ->
  body' !! "email" = Some (JStr (iu_email data)) ->
  body' !! "password" = Some (JStr (iu_password data)) ->
  exists user,
    user_email user = Some (iu_email data)
    /\ user_role user = "normal"
    /\ handle env' sid' (PostLogin body') w'
       = (mkWorld (db w')
            (<[sid' := mkSession (Some (user_id user)) (Some "normal")]> (sessions w')),
          mkResponse 200
            (PUserSummary (user_id user) (user_name user) (user_email user) "normal")).
Proof.
  intros Hcmp Hhash Hempty Hd Hreg Hst Hbe Hbp.
  pose proof Hd as Hd'. apply insertUserSchema_inr_fields in Hd'
    as (_ & Hem & _ & _ & _ & _ & _ & Hlen & _).
  assert (iu_email data <> "") as Hne by (intros E; rewrite E in Hem; congruence).
  assert (iu_password data <> "") as Hnp
    by (intros E; rewrite E in Hlen; simpl in Hlen; lia).
  revert Hreg. unfold handle at 1. simpl. unfold register. rewrite Hd.
  unfold getUserByEmail at 1. storage_unfold. simpl.
  destruct (head _) as [x|] eqn:E; [intros; simplify_eq; by simpl in Hst|].
  apply head_filter_None in E.
  unfold createLocalUser, insert_user. storage_unfold. simpl.
  repeat (case_match; simpl); intros Hh; simplify_eq; simpl in Hst; try done.
  set (u := users_row
              (mkUser (local_id env) (Some (iu_email data)) None None None (Some (now env))
                 (Some (now env)) (Some (iu_name data)) (Some (iu_address data))
                 (Some (bcrypt_hash (iu_password data))) "normal")).
  exists u. split; [reflexivity|]. split; [reflexivity|].
  match goal with |- handle env' sid' (PostLogin body') ?w0 = _ =>
    change (handle env' sid' (PostLogin body') w0)
      with (authenticateLocal bcrypt_compare sid' body' w0)
  end.
  rewrite (authenticateLocal_accepts bcrypt_compare sid' body' _ (iu_email data)
             (iu_password data) (bcrypt_hash (iu_password data)) u);
    [reflexivity|try done..].
  - unfold getUserByEmail. storage_unfold. simpl. rewrite filter_app, E. simpl.
    rewrite filter_cons. simpl. rewrite decide_True by done. reflexivity.
  - simpl. by rewrite bool_decide_eq_false_2.
Qed.


(** A new row whose name is the old one, and whose role is the old one
    or fits the column, is stored as it is. *)
Lemma users_update_fits (old new : User) :
  user_name new = user_name old ->
  user_role new = user_role old \/ (char_length (user_role new) <= 20)%nat ->
  users_update old new = new.
Proof.
  intros Hn Hr. unfold users_update, with_name_role.
  rewrite (bool_decide_eq_true_2 _ Hn).
  assert ((if bool_decide (user_role new = user_role old) then user_role new
           else varchar_cut 20 (user_role new)) = user_role new) as ->.
  { case_bool_decide; [done|]. destruct Hr as [Hr|Hr]; [done|]. by apply varchar_cut_fits. }
  by destruct new.
Qed.

Lemma update_user_keeps_widths id f d u rest :
  filter (fun u => user_id u = id) (users d) = u :: rest ->
  (forall v, user_name (f v) = user_name v) ->
  user_email (f u) = user_email u ->
  (forall v, user_role (f v) = user_role v \/ (char_length (user_role (f v)) <= 20)%nat) ->
  update_user id f d
  = (with_users (map (fun v => if bool_decide (user_id v = id) then f v else v) (users d)) d,
     inr (Some (f u))).
Proof.
  intros Hf Hn He Hr. unfold update_user. storage_unfold. rewrite Hf.
  rewrite (bool_decide_eq_true_2 _ (Hn u)).
  assert (bool_decide (user_role (f u) = user_role u) || varchar_ok 20 (user_role (f u))
          = true) as ->.
  { destruct (Hr u) as [Hu|Hu]; [by rewrite (bool_decide_eq_true_2 _ Hu)|].
    rewrite (varchar_ok_fits _ _ Hu). apply orb_true_r. }
  simpl.
  rewrite (bool_decide_eq_false_2 (_ /\ _)) by (intros [_ Hne]; done).
  rewrite (users_update_fits u (f u)) by done. simpl.
  assert (map (fun v => if bool_decide (user_id v = id) then users_update v (f v) else v)
            (users d)
          = map (fun v => if bool_decide (user_id v = id) then f v else v) (users d)) as ->;
    [|reflexivity].
  apply map_ext. intros v. case_bool_decide; [|done]. by apply users_update_fits.
Qed.

Lemma getUser_filter uid d user :
  getUser uid d = (d, inr (Some user)) ->
  exists rest, filter (fun u => user_id u = uid) (users d) = user :: rest.
Proof.
  unfold getUser. storage_unfold. intros Hh. simplify_eq.
  destruct (filter _ _) as [|x xs]; simplify_eq. simpl in *. simplify_eq. by eexists.
Qed.

Lemma handle_PutPassword env sid w session uid user body :
  sessions w !! sid = Some session ->
  session_userId session = Some uid ->
  uid <> "" ->
  getUser uid (db w) = (db w, inr (Some user)) ->
  handle env sid (PutPassword body) w
  = on_db (change_password bcrypt_hash bcrypt_compare user body env) w.
Proof.
  intros Hsess Hs Hne Hg.
  pose proof (requireAuth_user session (db w) uid user Hs Hne Hg) as Ha.
  unfold handle. rewrite Hsess. simpl. by rewrite Ha.
Qed.

Lemma change_password_accepts user body env d data hash :
  getUser (user_id user) d = (d, inr (Some user)) ->
  updatePasswordSchema body = inr data ->
  stored_password (Some user) = Some hash ->
  bcrypt_compare (up_currentPassword data) hash = true ->
  change_password bcrypt_hash bcrypt_compare user body env d
  = (with_users
       (map (fun v => if bool_decide (user_id v = user_id user)
                      then set_password (bcrypt_hash (up_newPassword data)) (now env) v
                      else v) (users d))
       d,
     json_message 200 "Password updated successfully").
Proof.
  intros Hg Hbody Hst Hc.
  destruct (getUser_filter (user_id user) d user Hg) as [rest Hf].
  unfold change_password, catch. rewrite Hbody.
  unfold updatePassword. storage_unfold. rewrite Hg. cbn [fst snd].
  rewrite Hst, Hc. cbn [negb].
  rewrite (update_user_keeps_widths (user_id user) _ d user rest Hf);
    [reflexivity|done|done|by left].
Qed.


(** After such a change the new password logs in, and a password that
    does not verify against the new hash does not. *)
Theorem password_change_then_login (env env' : Env) (sid sid' : string) (w : World)
    (session : Session) (uid email : string) (user : User) (body login : Body)
    (data : UpdatePassword) (hash password : string) :
  sessions w !! sid = Some session ->
  session_userId session = Some uid ->
  uid <> "" ->
  getUser uid (db w) = (db w, inr (Some user)) ->
  updatePasswordSchema body = inr data ->
  stored_password (Some user) = Some hash ->
  bcrypt_compare (up_currentPassword data) hash = true ->
  bcrypt_hash (up_newPassword data) <> "" ->
  email <> "" -> password <> "" ->
  getUserByEmail email (db w) = (db w, inr (Some user)) ->
  login !! "email" = Some (JStr email) ->
  login !! "password" = Some (JStr password) ->
  let w' := (handle env sid (PutPassword body) w).1 in
  status (handle env' sid' (PostLogin login) w').2
  = if bcrypt_compare password (bcrypt_hash (up_newPassword data)) then 200 else 401.
Proof.
  intros Hsess Hs Hne Hg Hbody Hst Hc Hh Hem Hpw Hge Hle Hlp w'. subst w'.
  pose proof (getUser_Some_id uid (db w) user Hg) as Hid. subst uid.
  rewrite (handle_PutPassword env sid w session (user_id user) user body) by done.
  unfold on_db.
  rewrite (change_password_accepts user body env (db w) data hash) by done.
  cbn [fst snd].
  set (g := fun v => if bool_decide (user_id v = user_id user)
                     then set_password (bcrypt_hash (up_newPassword data)) (now env) v
                     else v).
  assert (getUserByEmail email
            (with_users (map g (users (db w))) (db w))
          = (with_users (map g (users (db w))) (db w), inr (Some (g user)))) as Hge'.
  { unfold getUserByEmail in *. storage_unfold. simpl. simplify_eq.
    rewrite (head_filter_map (fun u => user_email u = Some email) g).
    - match goal with H : head _ = Some user |- _ => rewrite H end. done.
    - intros x. unfold g. by case_bool_decide. }
  assert (g user = set_password (bcrypt_hash (up_newPassword data)) (now env) user) as Eg
    by (unfold g; by rewrite bool_decide_eq_true_2).
  match goal with |- status (handle env' sid' (PostLogin login) ?w0).2 = _ =>
    change (handle env' sid' (PostLogin login) w0)
      with (authenticateLocal bcrypt_compare sid' login w0)
  end.
  destruct (bcrypt_compare password (bcrypt_hash (up_newPassword data))) eqn:Ec.
  - erewrite (authenticateLocal_accepts bcrypt_compare sid' login _ email password
                (bcrypt_hash (up_newPassword data)) (g user)); try done.
    rewrite Eg. simpl. by rewrite bool_decide_eq_false_2.
  - rewrite (authenticateLocal_refuses bcrypt_compare sid' login _ email password
               (Some (g user))); try done.
    intros h Hh'. rewrite Eg in Hh'. simpl in Hh'.
    rewrite bool_decide_eq_false_2 in Hh' by done. by simplify_eq.
Qed.


Lemma roles_enum_width role : role ∈ roles_enum -> (char_length role <= 20)%nat.
Proof.
  unfold roles_enum. intros Hin.
  repeat (apply elem_of_cons in Hin as [->|Hin]; [vm_compute; lia|]).
  by apply elem_of_nil in Hin.
Qed.


(** Deleting a user from the admin route: a user who has rated a store or
    owns one cannot be deleted, the answer is 500 and nothing changes; any
    other user is removed, and [getUser] no longer finds the id. *)
Theorem admin_delete_user_cases (id : string) (d : Db) (u : User) :
  u ∈ users d ->
  user_id u = id ->
  ((exists r, r ∈ ratings d /\ rating_userId r = id)
   \/ (exists s, s ∈ stores d /\ store_ownerId s = Some id) ->
   admin_delete_user id d = (d, internal_error))
  /\ ((forall r, r ∈ ratings d -> rating_userId r <> id) ->
      (forall s, s ∈ stores d -> store_ownerId s <> Some id) ->
      exists d',
        admin_delete_user id d = (d', json_message 200 "User deleted successfully")
        /\ getUser id d' = (d', inr None)
        /\ stores d' = stores d /\ ratings d' = ratings d
        /\ (forall v, v ∈ users d' <-> v ∈ users d /\ user_id v <> id)).
Proof.
  clear bcrypt_hash bcrypt_compare ilike text_le zod_email.
  intros Hu Hid.
  assert (exists_row (fun u => user_id u = id) (users d) = true) as Eu
    by (apply exists_row_true; by exists u).
  split.
  - intros Href. unfold admin_delete_user, catch, deleteUser. storage_unfold. rewrite Eu.
    assert (exists_row (fun r => rating_userId r = id) (ratings d)
            || exists_row (fun s => store_ownerId s = Some id) (stores d) = true) as ->.
    { apply orb_true_iff. destruct Href as [Hr|Hs]; [left|right]; by apply exists_row_true. }
    reflexivity.
  - intros Hr Hs. unfold admin_delete_user, catch, deleteUser. storage_unfold. rewrite Eu.
    assert (exists_row (fun r => rating_userId r = id) (ratings d) = false) as ->
      by by apply exists_row_false, filter_nil_forall.
    assert (exists_row (fun s => store_ownerId s = Some id) (stores d) = false) as ->
      by by apply exists_row_false, filter_nil_forall.
    simpl. eexists. split; [reflexivity|]. split; [|split; [done|split; [done|]]].
    + unfold getUser. storage_unfold. simpl. f_equal. f_equal. f_equal.
      apply head_filter_None, filter_nil_forall.
      intros x Hx. by apply list_elem_of_filter in Hx as [? _].
    + intros v. simpl. rewrite list_elem_of_filter. tauto.
Qed.

(** A user created from the admin route gets the role the body asks for,
    the email of the body, which no user had before, and the bcrypt hash
    of the password; the row is appended to [users]. *)
Theorem admin_create_user_created (body : Body) (env : Env) (d d' : Db) (u : User) :
  admin_create_user bcrypt_hash zod_email body env d
  = (d', mkResponse 201 (PUser (Some u))) ->
  exists data,
    insertUserSchema zod_email body = inr data
    /\ user_role u = iu_role data
    /\ user_email u = Some (iu_email data)
    /\ user_password u = Some (bcrypt_hash (iu_password data))
    /\ users d' = users d ++ [u]
    /\ (forall v, v ∈ users d -> user_email v <> Some (iu_email data)).
Proof.
  unfold admin_create_user, catch.
  destruct (insertUserSchema zod_email body) as [errors|data] eqn:Hd;
    [intros; simplify_eq|].
  unfold getUserByEmail at 1. storage_unfold. simpl.
  destruct (head _) as [x|] eqn:E; [intros; simplify_eq|].
  apply head_filter_None in E. rewrite filter_nil_forall in E.
  unfold createLocalUser, insert_user. storage_unfold. simpl.
  repeat (case_match; simpl); intros Hh; simplify_eq.
  exists data. split; [reflexivity|]. split; [|do 3 (split; [reflexivity|]); done].
  apply insertUserSchema_inr_fields in Hd as (_ & _ & _ & _ & _ & _ & _ & _ & _ & _ & _ & Hr).
  simpl. by apply varchar_cut_fits, roles_enum_width.
Qed.

End Accounts.

(** ** Ratings: whose rows a submission touches *)

Section RatingsMore.

Lemma insertRatingSchema_userId (body : Body) uid data :
  insertRatingSchema (<["userId" := JStr uid]> body) = inr data -> ir_userId data = uid.
Proof.
  unfold insertRatingSchema. rewrite lookup_insert_eq. simpl.
  intros Hh. repeat (case_match; simplify_eq). done.
Qed.

Lemma elem_of_upsert_row_other uid sid value t (l : list Rating) r :
  rating_userId r <> uid ->
  r ∈ map (upsert_row uid sid value t) l <-> r ∈ l.
Proof.
  intros Hr. rewrite list_elem_of_fmap. split.
  - intros (x & -> & Hx). unfold upsert_row in *. case_bool_decide as Hk; [|done].
    destruct Hk as [Hk _]. by destruct Hr.
  - intros Hin. exists r. split; [|done]. unfold upsert_row.
    rewrite bool_decide_eq_false_2; [done|]. by intros [? _].
Qed.

(** A rating is always written under the id of the current user, whatever
    [userId] the body carries, and no rating of another user is added,
    changed or removed. *)
Theorem submit_rating_own_rows_only (user : User) (body : Body) (env : Env)
    (d d' : Db) (resp : Response) :
  submit_rating user body env d = (d', resp) ->
  (forall r, resp = mkResponse 200 (PRating r) -> rating_userId r = user_id user)
  /\ (forall r, rating_userId r <> user_id user -> r ∈ ratings d' <-> r ∈ ratings d).
Proof.
  unfold submit_rating, catch.
  destruct (insertRatingSchema _) as [errors|data] eqn:Hd;
    [storage_unfold; intros Hh; simplify_eq; split; [intros r Hr; by inversion Hr|done]|].
  apply insertRatingSchema_userId in Hd.
  unfold createOrUpdateRating, bind_int4. storage_unfold.
  destruct (pg_int4 (Some (ir_storeId data))) as [sid|];
    [|intros Hh; simplify_eq; split; [intros r Hr; by inversion Hr|done]].
  destruct (pg_int4 (Some (ir_rating data))) as [value|];
    [|intros Hh; simplify_eq; split; [intros r Hr; by inversion Hr|done]].
  case_bool_decide as Hq;
    [|intros Hh; simplify_eq; split; [intros r Hr; by inversion Hr|done]].
  simpl.
  destruct (filter (has_key (ir_userId data) sid) (ratings d)) as [|r0 rest] eqn:Hf.
  - repeat (case_match; simpl in *; simplify_eq); intros Hh; simplify_eq; simpl;
      try (split; [intros r Hr; by inversion Hr|done]).
    split; [intros r Hr; by inversion Hr|].
    intros r Hr. rewrite elem_of_app, list_elem_of_singleton. split; [|tauto].
    intros [?|Heq]; [done|]. subst r. by destruct Hr.
  - intros Hh. simplify_eq. simpl. split.
    + intros r Hr. inversion Hr. simpl.
      assert (r0 ∈ filter (has_key (ir_userId data) sid) (ratings d)) as Hin
        by (rewrite Hf; left).
      apply list_elem_of_filter in Hin as [[Hk _] _]. by rewrite Hk.
    + intros r Hr. apply elem_of_upsert_row_other. congruence.
Qed.

(** What [createOrUpdateRating] returns is what [getUserRatingForStore]
    finds for that user and store right after. *)
Theorem rating_written_then_read (data : InsertRating) (env : Env) (d d' : Db)
    (r : Rating) :
  createOrUpdateRating data env d = (d', inr r) ->
  getUserRatingForStore (ir_userId data) (Some (ir_storeId data)) d' = (d', inr (Some r)).
Proof.
  unfold createOrUpdateRating, getUserRatingForStore, bind_int4. storage_unfold.
  destruct (pg_int4 (Some (ir_storeId data))) as [sid|]; [|intros; simplify_eq].
  destruct (pg_int4 (Some (ir_rating data))) as [value|]; [|intros; simplify_eq].
  case_bool_decide as Hq; [|intros; simplify_eq].
  simpl.
  destruct (filter (has_key (ir_userId data) sid) (ratings d)) as [|r0 rest] eqn:Hf.
  - repeat (case_match; simpl in *; simplify_eq); intros Hh; simplify_eq. simpl.
    rewrite filter_app, Hf, filter_cons. by rewrite decide_True.
  - intros Hh. simplify_eq. simpl. by rewrite filter_key_upsert_row, Hf.
Qed.

End RatingsMore.

(** ** Stores: creation and the owner dashboard *)

Section StoresMore.

Variable bcrypt_hash : string -> string.
Variable bcrypt_compare : string -> string -> bool.
Variable ilike : string -> string -> bool.
Variable text_le : string -> string -> bool.
Variable zod_email : string -> bool.

Local Abbreviation handle := (handle bcrypt_hash bcrypt_compare ilike text_le zod_email).
Local Abbreviation reachable_db := (reachable_db bcrypt_hash bcrypt_compare).

Lemma pg_int4_num z z' : pg_int4 (num z) = Some z' -> z' = z.
Proof.
  unfold num, pg_int4, is_integer. rewrite Qred_inject_Z. simpl.
  intros Hh. repeat (case_match; simplify_eq). done.
Qed.



(** Creating a store in a reachable database: with no owner or an
    existing one the store gets the next id of the sequence, is appended
    and is what [getStoreById] finds for that id; with an owner id that
    finds no user the insert is rejected and no store is added. *)
Theorem createStore_in_reachable (storeData : InsertStore) (env : Env) (d : Db) :
  reachable_db d ->
  (char_length (is_name storeData) <= 60)%nat ->
  -2147483648 <= stores_id_seq d <= 2147483647 ->
  ((forall o, is_ownerId storeData = Some o -> exists u, u ∈ users d /\ user_id u = o) ->
   exists store d',
     createStore storeData env d = (d', inr store)
     /\ store_id store = stores_id_seq d
     /\ store_name store = is_name storeData
     /\ store_ownerId store = is_ownerId storeData
     /\ stores d' = stores d ++ [store]
     /\ getStoreById (num (store_id store)) d' = (d', inr (Some store)))
  /\ (forall o, is_ownerId storeData = Some o ->
                (forall u, u ∈ users d -> user_id u <> o) ->
                (createStore storeData env d).2 = inl ForeignKeyViolation
                /\ stores (createStore storeData env d).1 = stores d).
Proof.
  intros Hreach Hname Hrange.
  pose proof (reachable_db_schema_ok _ _ _ Hreach) as [I E S Q F].
  assert (exists_row (fun s => store_id s = stores_id_seq d) (stores d) = false) as Hfresh.
  { apply exists_row_false, filter_nil_forall. intros s Hs Heq.
    rewrite Forall_forall in Q. specialize (Q s Hs). simpl in Q. lia. }
  assert (varchar_ok 60 (is_name storeData) = true) as Hw by by apply varchar_ok_fits.
  split.
  - intros Hown. unfold createStore. storage_unfold. simpl. rewrite Hw. simpl.
    rewrite (varchar_cut_fits 60 _ Hname).
    rewrite bool_decide_eq_true_2 by (unfold serial_max; lia). simpl.
    rewrite Hfresh. simpl.
    assert (forall d1,
              getStoreById (num (stores_id_seq d)) d1
              = (d1, inr (head (filter (fun s => store_id s = stores_id_seq d) (stores d1)))))
      as Hget.
    { intros d1. unfold getStoreById, bind_int4, num.
      rewrite pg_int4_inject_Z by done. reflexivity. }
    apply exists_row_false in Hfresh.
    destruct (is_ownerId storeData) as [o|] eqn:Eo.
    + assert (exists_row (fun u => user_id u = o) (users d) = true) as ->
        by (apply exists_row_true; by apply Hown).
      simpl. eexists _, _. split; [reflexivity|]. do 4 (split; [reflexivity|]).
      cbn [store_id]. rewrite Hget. simpl.
      rewrite filter_app, Hfresh, filter_cons. simpl. by rewrite decide_True.
    + simpl. eexists _, _. split; [reflexivity|]. do 4 (split; [reflexivity|]).
      cbn [store_id]. rewrite Hget. simpl.
      rewrite filter_app, Hfresh, filter_cons. simpl. by rewrite decide_True.
  - intros o Ho Hno. unfold createStore. storage_unfold. simpl. rewrite Hw. simpl.
    rewrite bool_decide_eq_true_2 by (unfold serial_max; lia). simpl.
    rewrite Hfresh, Ho. simpl.
    assert (exists_row (fun u => user_id u = o) (users d) = false) as ->
      by by apply exists_row_false, filter_nil_forall.
    done.
Qed.

(** A store owner is shown exactly the stores whose owner id is their own. *)
Theorem owner_sees_own_stores (env : Env) (sid : string) (w : World)
    (session : Session) (uid : string) (user : User) :
  sessions w !! sid = Some session ->
  session_userId session = Some uid ->
  uid <> "" ->
  getUser uid (db w) = (db w, inr (Some user)) ->
  user_role user = "store_owner" ->
  exists l,
    handle env sid GetOwnerStores w = (w, mkResponse 200 (PStores l))
    /\ (forall s, s ∈ l <-> s ∈ stores (db w) /\ store_ownerId s = Some uid).
Proof.
  intros Hsess Hs Hne Hg Hrole.
  pose proof (requireAuth_user session (db w) uid user Hs Hne Hg) as Ha.
  pose proof (getUser_Some_id uid (db w) user Hg) as Hid.
  eexists. split.
  - unfold handle. rewrite Hsess. simpl. rewrite Ha, Hrole. simpl.
    apply on_db_id. unfold owner_stores, catch, getStoresByOwner. storage_unfold.
    reflexivity.
  - intros s. rewrite list_elem_of_filter, Hid. tauto.
Qed.

End StoresMore.

(** ** Listings of ratings and stores *)

Section Listings.

Variable bcrypt_hash : string -> string.
Variable bcrypt_compare : string -> string -> bool.
Variable ilike : string -> string -> bool.
Variable text_le : string -> string -> bool.
Variable zod_email : string -> bool.

Local Abbreviation handle := (handle bcrypt_hash bcrypt_compare ilike text_le zod_email).
Local Abbreviation reachable_db := (reachable_db bcrypt_hash bcrypt_compare).




Lemma getAllStores_reads (filters : StoreFilters) (d : Db) :
  exists l,
    getAllStores ilike text_le filters d = (d, inr l)
    /\ map swr_store l ≡ₚ filter (fun s => store_matches ilike filters s) (stores d)
    /\ Forall (fun e => swr_userRating e = None) l.
Proof.
  unfold getAllStores. storage_unfold. eexists. split; [reflexivity|]. split.
  - rewrite map_map. simpl. rewrite map_id. apply merge_sort_Permutation.
  - by apply Forall_fmap, Forall_forall.
Qed.

(** [getAllStores] lists every store that matches the filters exactly
    once, and the aggregate it attaches to a store is the one
    [getStoreStats] computes for that store. *)
Theorem getAllStores_listing (filters : StoreFilters) (d : Db) :
  exists l,
    getAllStores ilike text_le filters d = (d, inr l)
    /\ map swr_store l ≡ₚ filter (fun s => store_matches ilike filters s) (stores d)
    /\ Forall (fun e =>
                 swr_userRating e = None
                 /\ forall stats,
                      (getStoreStats (num (store_id (swr_store e))) d).2 = inr stats ->
                      swr_averageRating e = averageRating stats
                      /\ swr_totalRatings e = totalRatings stats) l.
Proof.
  exists (map (fun s =>
                 {| swr_store := s;
                    swr_averageRating :=
                      number_or_0 (coalesce0 (sql_avg (ratings_of d (store_id s))));
                    swr_totalRatings := count_or_0 (sql_count (ratings_of d (store_id s)));
                    swr_userRating := None |})
            (merge_sort (fun a b => text_le (store_name a) (store_name b))
               (filter (fun s => store_matches ilike filters s) (stores d)))).
  split; [reflexivity|]. split.
  - rewrite map_map. simpl. rewrite map_id. apply merge_sort_Permutation.
  - apply Forall_fmap, Forall_forall. intros s _. simpl. split; [done|].
    intros stats. unfold getStoreStats, bind_int4.
    destruct (pg_int4 (num (store_id s))) as [i|] eqn:Ei; [|intros; simplify_eq].
    apply pg_int4_num in Ei. subst i. storage_unfold. simpl. intros Hh. by simplify_eq.
Qed.

End Listings.

(** ** What a request may change *)

Section RequestsMore.

Variable bcrypt_hash : string -> string.
Variable bcrypt_compare : string -> string -> bool.
Variable ilike : string -> string -> bool.
Variable text_le : string -> string -> bool.
Variable zod_email : string -> bool.

Local Abbreviation handle := (handle bcrypt_hash bcrypt_compare ilike text_le zod_email).
Local Abbreviation exec := (exec bcrypt_hash bcrypt_compare).

Lemma mapM_reads {A B} (f : A -> Storage B) (g : A -> B) (l : list A) (d : Db) :
  (forall x, x ∈ l -> f x d = (d, inr (g x))) ->
  mapM f l d = (d, inr (map g l)).
Proof.
  induction l as [|x l IH]; intros Hf; [done|].
  simpl. storage_unfold. rewrite (Hf x) by left.
  rewrite IH; [done|]. intros y Hy. apply Hf. by right.
Qed.

Lemma sbind_returns {A B} (m : Storage A) (k : A -> Storage B) d d' a :
  m d = (d', inr a) -> (m ≫= k) d = k a d'.
Proof. intros E. unfold mbind, Storage_bind, sbind. by rewrite E. Qed.

(** GET /api/stores: every store that matches is listed once; for a user
    with role "normal" each entry carries the user's own rating of that
    store, if there is one, and for any other role it carries none. *)
Theorem list_stores_own_rating (user : User) (search address : option string) (d : Db) :
  Forall (fun s => -2147483648 <= store_id s <= 2147483647) (stores d) ->
  exists l,
    list_stores ilike text_le user search address d
    = (d, mkResponse 200 (PStoresWithRating l))
    /\ map swr_store l
       ≡ₚ filter (fun s => store_matches ilike (mkStoreFilters search address) s) (stores d)
    /\ Forall (fun e =>
                 swr_userRating e
                 = if bool_decide (user_role user = "normal")
                   then rating_rating
                          <$> head (filter (has_key (user_id user) (store_id (swr_store e)))
                                      (ratings d))
                   else None) l.
Proof.
  intros Hrange.
  destruct (getAllStores_reads ilike text_le (mkStoreFilters search address) d)
    as (l & Hl & Hperm & Hall).
  set (g := fun e : StoreWithRating =>
              {| swr_store := swr_store e;
                 swr_averageRating := swr_averageRating e;
                 swr_totalRatings := swr_totalRatings e;
                 swr_userRating :=
                   rating_rating
                     <$> head (filter (has_key (user_id user) (store_id (swr_store e)))
                                 (ratings d)) |}).
  assert (forall e, e ∈ l -> with_user_rating (user_id user) e d = (d, inr (g e))) as Hw.
  { intros e He. unfold with_user_rating, getUserRatingForStore, bind_int4, num.
    assert (swr_store e ∈ stores d) as Hin.
    { assert (swr_store e ∈ map swr_store l) as Hm by by apply (list_elem_of_fmap_2 swr_store).
      rewrite Hperm in Hm. by apply list_elem_of_filter in Hm as [_ ?]. }
    rewrite Forall_forall in Hrange.
    rewrite pg_int4_inject_Z by by apply Hrange. reflexivity. }
  unfold list_stores, catch.
  rewrite (sbind_returns _ _ d d l Hl).
  destruct (bool_decide (user_role user = "normal")) eqn:Er.
  - rewrite (sbind_returns _ _ d d (map g l) (mapM_reads _ g l d Hw)).
    eexists. split; [reflexivity|]. split.
    + rewrite map_map. simpl. by rewrite <- Hperm.
    + apply Forall_fmap, Forall_forall. intros e _. reflexivity.
  - exists l. split; [reflexivity|]. split; [done|].
    exact Hall.
Qed.

Lemma on_db_fst (f : Db -> Db * Response) w : (f (db w)).1 = db w -> (on_db f w).1 = w.
Proof. intros E. unfold on_db. simpl. rewrite E. by destruct w. Qed.

(** A GET request changes neither the database nor any session. *)
Theorem get_requests_change_nothing (env : Env) (sid : string) (req : Request)
    (w : World) :
  is_get req = true ->
  (handle env sid req w).1 = w.
Proof.
  intros Hget. unfold handle.
  destruct (run_middlewares _ _ _ _) as [refusal|cu]; [done|].
  destruct req; simpl in Hget; try discriminate; destruct cu as [user|];
    cbn [handler fst]; try done; apply on_db_fst.
  all: first [ apply list_stores_reads | apply owner_store_ratings_reads | reflexivity ].
Qed.

(** A request never touches the session of anyone else, and only login,
    registration and logout touch the session store at all. *)
Theorem sessions_of_others_untouched (env : Env) (sid sid' : string) (req : Request)
    (w : World) :
  sid' <> sid ->
  sessions (handle env sid req w).1 !! sid' = sessions w !! sid'
  /\ match req with
     | PostLogin _ | PostRegister _ | PostLogout => True
     | _ => sessions (handle env sid req w).1 = sessions w
     end.
Proof.
  intros Hne. unfold handle.
  destruct (run_middlewares _ _ _ _) as [refusal|cu];
    [split; [done|by destruct req]|].
  destruct req; destruct cu as [user|]; simpl; try (split; done).
  all: try (split; [|done]).
  all: first
    [ unfold authenticateLocal; repeat (case_match; simpl; try done);
      by rewrite lookup_insert_ne
    | by rewrite lookup_delete_ne
    | unfold register; repeat (case_match; simpl; try done);
      by rewrite lookup_insert_ne ].
Qed.

(** A request changes the database by at most one storage call, so a
    trace of n requests amounts to at most n storage calls in a row. *)
Theorem trace_is_at_most_one_call_each (trace : list (Env * string * Request))
    (w : World) :
  exists calls,
    (length calls <= length trace)%nat
    /\ db (run bcrypt_hash bcrypt_compare ilike text_le zod_email trace w)
       = exec_all bcrypt_hash bcrypt_compare calls (db w).
Proof.
  revert w. induction trace as [|[[env sid] req] trace IH]; intros w.
  - by exists [].
  - destruct (IH (handle env sid req w).1) as (calls & Hlen & Hdb).
    destruct (handle_one_call bcrypt_hash bcrypt_compare ilike text_le zod_email
                env sid req w) as [E | [c E]].
    + exists calls. split; [simpl; lia|]. simpl. by rewrite Hdb, E.
    + exists (c :: calls). split; [simpl; lia|]. simpl. by rewrite Hdb, E.
Qed.

End RequestsMore.

(** ** Stars, the list of users and store updates *)

Section Stars.

Lemma isFilled_floor rating index :
  isFilled rating index = bool_decide (Z.of_nat index + 1 <= Qfloor rating).
Proof.
  unfold isFilled. pose proof (Qfloor_le rating) as Hlo. pose proof (Qlt_floor rating) as Hhi.
  case_bool_decide as Hle.
  - apply Qle_bool_iff. apply Qle_trans with (inject_Z (Qfloor rating)); [|done].
    by rewrite <- Zle_Qle.
  - destruct (Qle_bool _ rating) eqn:E; [|done]. exfalso. apply Hle.
    apply Qle_bool_iff in E.
    assert (inject_Z (Z.of_nat index + 1) < inject_Z (Qfloor rating + 1))%Q as Hlt
      by (eapply Qle_lt_trans; done).
    rewrite <- Zlt_Qlt in Hlt. lia.
Qed.

Lemma filled_prefix_count (k : Z) (n : nat) :
  length (filter (fun b => b = true)
            (map (fun i => bool_decide (Z.of_nat i + 1 <= k)) (seq 0 n)))
  = Nat.min n (Z.to_nat k).
Proof.
  induction n as [|n IH]; [done|].
  rewrite seq_S, map_app, filter_app, length_app, IH.
  change (map (fun i => bool_decide (Z.of_nat i + 1 <= k)) [(0 + n)%nat])
    with [bool_decide (Z.of_nat (0 + n) + 1 <= k)].
  rewrite filter_cons, filter_nil.
  case_bool_decide as Hle.
  - rewrite decide_True by done. cbn [length]. lia.
  - rewrite decide_False by done. cbn [length]. lia.
Qed.

(** The number of filled stars is the rating rounded down, at least
    none and at most [maxRating]; and they come first: a filled star has
    only filled stars before it. *)
Theorem stars_filled_count (rating : Q) (maxRating : nat) :
  length (stars rating maxRating) = maxRating
  /\ length (filter (fun b => b = true) (stars rating maxRating))
     = Nat.min maxRating (Z.to_nat (Qfloor rating))
  /\ (forall i j, (i <= j)%nat -> stars rating maxRating !! j = Some true ->
                  stars rating maxRating !! i = Some true).
Proof.
  unfold stars. split; [by rewrite length_map, length_seq|]. split.
  - erewrite map_ext; [apply filled_prefix_count|]. intros i. apply isFilled_floor.
  - intros i j Hij Hj. rewrite list_lookup_fmap in Hj |- *.
    destruct (seq 0 maxRating !! j) as [j'|] eqn:Ej; [|done].
    apply lookup_seq in Ej as [-> Hlt]. simpl in Hj.
    rewrite (lookup_seq_lt 0 maxRating i) by lia. simpl. f_equal.
    injection Hj as Hj. rewrite isFilled_floor in Hj |- *.
    apply bool_decide_eq_true in Hj. apply bool_decide_eq_true_2. lia.
Qed.

End Stars.

Section AdminListings.

Variable ilike : string -> string -> bool.
Variable text_le : string -> string -> bool.

(** [getAllUsers] returns every user that matches the filters exactly
    once; with a role filter all of them have that role, and without
    filters all users are returned. *)
Theorem getAllUsers_listing (filters : UserFilters) (d : Db) :
  exists l,
    getAllUsers ilike text_le filters d = (d, inr l)
    /\ l ≡ₚ filter (fun u => user_matches ilike filters u) (users d)
    /\ (forall role, uf_role filters = Some role -> role <> "" ->
                     Forall (fun u => user_role u = role) l)
    /\ (uf_role filters = None -> uf_search filters = None -> l ≡ₚ users d).
Proof.
  eexists. split; [reflexivity|]. split; [apply merge_sort_Permutation|]. split.
  - intros role Hr Hne. rewrite merge_sort_Permutation.
    apply Forall_forall. intros u Hu. apply list_elem_of_filter in Hu as [Hm _].
    unfold user_matches in Hm. rewrite Hr in Hm. simpl in Hm.
    rewrite bool_decide_eq_false_2 in Hm by done.
    apply Is_true_true, andb_true_iff in Hm as [Hm _]. by apply bool_decide_eq_true in Hm.
  - intros Hr Hs. rewrite merge_sort_Permutation.
    assert (filter (fun u => user_matches ilike filters u) (users d) = users d) as ->; [|done].
    induction (users d) as [|u l IH]; [done|]. rewrite filter_cons.
    rewrite decide_True; [by rewrite IH|]. unfold user_matches. by rewrite Hr, Hs.
Qed.

End AdminListings.

Section UpdateStore.


End UpdateStore.

(** ** The model at work: concrete runs *)

Lemma at_most_one_rating_per_pair_witness :
  reachable_db demo_hash demo_compare rated_db
  /\ (length (filter (has_key alice_id 1)
                (ratings (submit_all demo_hash demo_compare alice_resubmits
                            rated_db))) <= 1)%nat.
Proof.
  assert (reachable_db demo_hash demo_compare rated_db) as Hreach
    by (exists rated_calls; vm_compute; reflexivity).
  split; [exact Hreach|].
  exact (at_most_one_rating_per_pair demo_hash demo_compare rated_db _ alice_id 1 Hreach).
Defined.

Lemma resubmission_replaces_value_witness :
  reachable_db demo_hash demo_compare demo_db
  /\ alice_row ∈ users demo_db
  /\ (exists s, s ∈ stores demo_db /\ store_id s = 1)
  /\ ratings_id_seq demo_db < 2147483647
  /\ exists d1 r1 d2 r2 stats1 stats2,
      submit_rating alice_row (rating_body 1 2) (at_time 5000) demo_db
      = (d1, mkResponse 200 (PRating r1))
      /\ submit_rating alice_row (rating_body 1 5) (at_time 6000) d1
         = (d2, mkResponse 200 (PRating r2))
      /\ filter (has_key (user_id alice_row) 1) (ratings d2) = [r2]
      /\ rating_rating r2 = 5
      /\ rating_id r2 = rating_id r1
      /\ rating_createdAt r2 = rating_createdAt r1
      /\ rating_updatedAt r2 = Some (now (at_time 6000))
      /\ getStoreStats (num 1) d1 = (d1, inr stats1)
      /\ getStoreStats (num 1) d2 = (d2, inr stats2)
      /\ totalRatings stats2 = totalRatings stats1.
Proof.
  assert (reachable_db demo_hash demo_compare demo_db) as Hreach
    by (exists demo_calls; vm_compute; reflexivity).
  assert (alice_row ∈ users demo_db) as Hu by (vm_compute; left).
  assert (exists s, s ∈ stores demo_db /\ store_id s = 1) as Hs
    by (exists corner_shop; split; [vm_compute; left|reflexivity]).
  assert (ratings_id_seq demo_db < 2147483647) as Hq by (vm_compute; reflexivity).
  split; [exact Hreach|]. split; [exact Hu|]. split; [exact Hs|]. split; [exact Hq|].
  apply (resubmission_replaces_value demo_hash demo_compare demo_db alice_row 1 2 5
           (rating_body 1 2) (rating_body 1 5) (at_time 5000) (at_time 6000));
    [exact Hreach|exact Hu|exact Hs|lia|lia|lia|exact Hq|vm_compute; reflexivity ..].
Defined.

Lemma exec_all_app h c (xs ys : list StorageCall) (d : Db) :
  exec_all h c (xs ++ ys) d = exec_all h c ys (exec_all h c xs d).
Proof. unfold exec_all. apply foldl_app. Qed.

Lemma demo_db_reachable : reachable_db demo_hash demo_compare demo_db.
Proof. exists demo_calls. vm_compute. reflexivity. Qed.

Lemma demo_db_no_nobody u : u ∈ users demo_db -> user_id u <> "nobody".
Proof.
  assert (user_id <$> users demo_db = [alice_id; bob_id; carol_id; dave_id]) as Eu
    by (vm_compute; reflexivity).
  intros Hu Hid. apply (list_elem_of_fmap_2 user_id) in Hu. rewrite Eu, Hid in Hu.
  repeat (apply elem_of_cons in Hu as [Hu|Hu]; [discriminate Hu|]).
  by apply elem_of_nil in Hu.
Qed.

Lemma demo_db_unfold : exec_all demo_hash demo_compare demo_calls empty_db = demo_db.
Proof. vm_compute. reflexivity. Qed.

Lemma demo_db_first_id : ratings_id_seq demo_db = 1.
Proof. vm_compute. reflexivity. Qed.

(** Every refused submission takes one value of the sequence: the demo
    database after [n] of them. *)
Lemma demo_db_burned (n : Z) :
  0 <= n <= 2147483647 ->
  exec_all demo_hash demo_compare (demo_calls ++ replicate (Z.to_nat n) burn) empty_db
  = mkDb (users demo_db) (stores demo_db) (ratings demo_db) (stores_id_seq demo_db) (1 + n).
Proof.
  intros Hn. rewrite exec_all_app, demo_db_unfold.
  rewrite (burn_many demo_hash demo_compare (Z.to_nat n) demo_db
             (reachable_db_ok _ _ _ demo_db_reachable)).
  - rewrite demo_db_first_id, Z2Nat.id by lia. reflexivity.
  - rewrite demo_db_first_id, Z2Nat.id by lia. lia.
  - exact demo_db_no_nobody.
Qed.

Lemma last_id_db_reachable : reachable_db demo_hash demo_compare last_id_db.
Proof. exists burn_calls. exact (demo_db_burned 2147483646 ltac:(lia)). Qed.

(** With one id left, a first rating is written and its resubmission is
    refused: the row keeps the first value. *)
Lemma last_id_resubmission_fails :
  reachable_db demo_hash demo_compare last_id_db
  /\ alice_row ∈ users last_id_db
  /\ corner_shop ∈ stores last_id_db
  /\ status (submit_rating alice_row (rating_body 1 2) (at_time 5000) last_id_db).2 = 200
  /\ (submit_rating alice_row (rating_body 1 5) (at_time 6000)
        (submit_rating alice_row (rating_body 1 2) (at_time 5000) last_id_db).1).2
     = internal_error
  /\ map rating_rating
       (filter (has_key alice_id 1)
          (ratings (submit_rating alice_row (rating_body 1 5) (at_time 6000)
                      (submit_rating alice_row (rating_body 1 2) (at_time 5000)
                         last_id_db).1).1))
     = [2].
Proof.
  split; [exact last_id_db_reachable|].
  split; [vm_compute; left|]. split; [vm_compute; left|].
  vm_compute. repeat split.
Qed.

Lemma missing_store_answers_500 :
  filter (fun s => store_id s = 99) (stores (db logged_in)) = []
  /\ (demo_handle (at_time 5000) "sess-alice" (PostRatings (rating_body 99 3)) logged_in).2
     = internal_error
  /\ error_kind internal_error = Some InternalError
  /\ error_kind internal_error <> Some NotFound.
Proof. vm_compute. repeat split; congruence. Qed.

(** A rating of 2.5 passes the schema and fails at the integer column. *)
Example fractional_rating_answers_500 :
  demo_handle (at_time 5000) "sess-alice"
    (PostRatings (body_of [("storeId", JNum 1); ("rating", JNum (5 # 2))])) logged_in
  = (logged_in, internal_error).
Proof. vm_compute. reflexivity. Qed.

Lemma submit_rating_refusals_witness :
  reachable_db demo_hash demo_compare rated_db
  /\ ((forall q, rating_body 99 3 !! "rating" = Some (JNum q) -> ~ (1 <= q <= 5)%Q) ->
      exists errors,
        errors <> []
        /\ submit_rating alice_row (rating_body 99 3) (at_time 5000) rated_db
           = (rated_db, validation_error errors)
        /\ error_kind (validation_error errors) = Some ValidationError)
  /\ ((forall q, rating_body 99 3 !! "storeId" = Some (JNum q) ->
                 ~ (exists z, (q == inject_Z z)%Q /\ -2147483648 <= z <= 2147483647)) ->
      exists errors,
        errors <> []
        /\ submit_rating alice_row (rating_body 99 3) (at_time 5000) rated_db
           = (rated_db, validation_error errors)
        /\ error_kind (validation_error errors) = Some ValidationError)
  /\ (forall d' r,
        submit_rating alice_row (rating_body 99 3) (at_time 5000) rated_db
        = (d', mkResponse 200 (PRating r)) ->
        1 <= rating_rating r <= 5
        /\ exists q, rating_body 99 3 !! "rating" = Some (JNum q)
                     /\ (q == inject_Z (rating_rating r))%Q)
  /\ (forall qs sid qv,
        rating_body 99 3 !! "storeId" = Some (JNum qs) ->
        (qs == inject_Z sid)%Q ->
        -2147483648 <= sid <= 2147483647 ->
        rating_body 99 3 !! "rating" = Some (JNum qv) ->
        (1 <= qv <= 5)%Q ->
        ~ (exists s, s ∈ stores rated_db /\ store_id s = sid) ->
        exists d',
          submit_rating alice_row (rating_body 99 3) (at_time 5000) rated_db
          = (d', internal_error)
          /\ error_kind internal_error = Some InternalError
          /\ users d' = users rated_db /\ stores d' = stores rated_db
          /\ ratings d' = ratings rated_db)
  /\ (forall d' resp,
        submit_rating alice_row (rating_body 99 3) (at_time 5000) rated_db = (d', resp) ->
        status resp = 200 \/ status resp = 400 \/ status resp = 500).
Proof.
  assert (reachable_db demo_hash demo_compare rated_db) as Hreach
    by (exists rated_calls; vm_compute; reflexivity).
  split; [exact Hreach|].
  exact (submit_rating_refusals demo_hash demo_compare rated_db alice_row
           (rating_body 99 3) (at_time 5000) Hreach).
Defined.

(** A store id that is no whole number is refused before the database
    is asked. *)
Example fractional_store_id_answers_400 :
  status (demo_handle (at_time 5000) "sess-alice"
            (PostRatings (body_of [("storeId", JNum (3 # 2)); ("rating", JNum 3)]))
            logged_in).2 = 400
  /\ status (demo_handle (at_time 5000) "sess-alice"
               (PostRatings (body_of [("storeId", JNum (inject_Z 4294967296));
                                      ("rating", JNum 3)]))
               logged_in).2 = 400.
Proof. vm_compute. split; reflexivity. Qed.

Lemma rated_store_is_not_deleted :
  length (ratings_of (db logged_in) 1) = 1%nat
  /\ (demo_handle (at_time 5000) "sess-dave" (DeleteAdminStore (num 1)) logged_in).2
     = internal_error
  /\ stores (db (demo_handle (at_time 5000) "sess-dave" (DeleteAdminStore (num 1))
                   logged_in).1) = [corner_shop]
  /\ length (ratings_of
               (db (demo_handle (at_time 5000) "sess-dave" (DeleteAdminStore (num 1))
                      logged_in).1) 1) = 1%nat.
Proof. vm_compute. repeat split. Qed.

Lemma deleteStore_restricted_witness :
  reachable_db demo_hash demo_compare rated_db
  /\ pg_int4 (num 1) = Some 1
  /\ ((exists s, s ∈ stores rated_db /\ store_id s = 1) ->
      ratings_of rated_db 1 <> [] ->
      deleteStore (num 1) rated_db = (rated_db, inl ForeignKeyViolation)
      /\ admin_delete_store (num 1) rated_db = (rated_db, internal_error))
  /\ (forall d',
        deleteStore (num 1) rated_db = (d', inr tt) ->
        filter (fun s => store_id s = 1) (stores d') = []
        /\ filter (fun r => rating_storeId r = 1) (ratings d') = []
        /\ getRatingsByStore (num 1) d' = (d', inr [])).
Proof.
  assert (reachable_db demo_hash demo_compare rated_db) as Hreach
    by (exists rated_calls; vm_compute; reflexivity).
  assert (pg_int4 (num 1) = Some 1) as Hi by (vm_compute; reflexivity).
  split; [exact Hreach|]. split; [exact Hi|].
  exact (deleteStore_restricted demo_hash demo_compare rated_db (num 1) 1 Hreach Hi).
Defined.



Lemma promoted_session_passes_admin_gate :
  sessions promoted !! "sess-alice" = Some (mkSession (Some alice_id) (Some "normal"))
  /\ (demo_handle (at_time 4000) "sess-alice" GetAdminStats logged_in).2
     = json_message 403 "Insufficient permissions"
  /\ status (demo_handle (at_time 4000) "sess-alice" GetAdminStats promoted).2 = 200
  /\ (demo_handle (at_time 4000) "sess-alice" (PostRatings (rating_body 1 5)) promoted).2
     = json_message 403 "Insufficient permissions".
Proof. vm_compute. repeat split. Qed.

Lemma role_gate_reads_current_role_witness :
  sessions promoted !! "sess-alice" = Some (mkSession (Some alice_id) (Some "normal"))
  /\ session_userId (mkSession (Some alice_id) (Some "normal")) = Some alice_id
  /\ alice_id <> ""
  /\ getUser alice_id (db promoted) = (db promoted, inr (Some alice_promoted))
  /\ middlewares GetAdminStats = [RequireAuth; RequireRole ["admin"]]
  /\ (user_role alice_promoted ∉ ["admin"] ->
      demo_handle (at_time 4000) "sess-alice" GetAdminStats promoted
      = (promoted, json_message 403 "Insufficient permissions"))
  /\ (user_role alice_promoted ∈ ["admin"] ->
      demo_handle (at_time 4000) "sess-alice" GetAdminStats promoted
      = handler demo_hash demo_compare demo_ilike demo_text_le demo_email
          (at_time 4000) "sess-alice" GetAdminStats (Some alice_promoted) promoted)
  /\ (forall snapshot,
        let w' := mkWorld (db promoted)
                    (<["sess-alice" := mkSession (Some alice_id) snapshot]>
                       (sessions promoted)) in
        (demo_handle (at_time 4000) "sess-alice" GetAdminStats w').2
        = (demo_handle (at_time 4000) "sess-alice" GetAdminStats promoted).2
        /\ db (demo_handle (at_time 4000) "sess-alice" GetAdminStats w').1
           = db (demo_handle (at_time 4000) "sess-alice" GetAdminStats promoted).1).
Proof.
  assert (sessions promoted !! "sess-alice"
          = Some (mkSession (Some alice_id) (Some "normal"))) as H1
    by (vm_compute; reflexivity).
  assert (alice_id <> "") as H3 by discriminate.
  assert (getUser alice_id (db promoted) = (db promoted, inr (Some alice_promoted))) as H4
    by (vm_compute; reflexivity).
  split; [exact H1|]. split; [reflexivity|]. split; [exact H3|]. split; [exact H4|].
  split; [reflexivity|].
  exact (role_gate_reads_current_role demo_hash demo_compare demo_ilike demo_text_le
           demo_email (at_time 4000) "sess-alice" GetAdminStats promoted
           (mkSession (Some alice_id) (Some "normal")) alice_id alice_promoted ["admin"]
           H1 eq_refl H3 H4 eq_refl).
Defined.

Lemma owner_ratings_of_foreign_store_witness :
  sessions logged_in !! "sess-carol"
  = Some (mkSession (Some carol_id) (Some "store_owner"))
  /\ session_userId (mkSession (Some carol_id) (Some "store_owner")) = Some carol_id
  /\ carol_id <> ""
  /\ getUser carol_id (db logged_in) = (db logged_in, inr (Some carol_row))
  /\ (user_role carol_row = "store_owner" ->
      forall s,
        getStoreById (num 1) (db logged_in) = (db logged_in, inr (Some s)) ->
        store_ownerId s <> Some (user_id carol_row) ->
        demo_handle (at_time 4000) "sess-carol" (GetOwnerRatings (num 1)) logged_in
        = (logged_in, json_message 403 "Access denied")
        /\ error_kind (json_message 403 "Access denied") = Some PermissionDenied
        /\ error_kind (json_message 403 "Access denied")
           = error_kind (json_message 403 "Insufficient permissions"))
  /\ (user_role carol_row <> "store_owner" ->
      demo_handle (at_time 4000) "sess-carol" (GetOwnerRatings (num 1)) logged_in
      = (logged_in, json_message 403 "Insufficient permissions")).
Proof.
  assert (sessions logged_in !! "sess-carol"
          = Some (mkSession (Some carol_id) (Some "store_owner"))) as H1
    by (vm_compute; reflexivity).
  assert (carol_id <> "") as H3 by discriminate.
  assert (getUser carol_id (db logged_in) = (db logged_in, inr (Some carol_row))) as H4
    by (vm_compute; reflexivity).
  split; [exact H1|]. split; [reflexivity|]. split; [exact H3|]. split; [exact H4|].
  exact (owner_ratings_of_foreign_store demo_hash demo_compare demo_ilike demo_text_le
           demo_email (at_time 4000) "sess-carol" logged_in
           (mkSession (Some carol_id) (Some "store_owner")) carol_id carol_row (num 1)
           H1 eq_refl H3 H4).
Defined.

(** Carol, a store owner, asks for the ratings of Bob's store. *)
Example carol_asks_for_bobs_ratings :
  demo_handle (at_time 4000) "sess-carol" (GetOwnerRatings (num 1)) logged_in
  = (logged_in, json_message 403 "Access denied")
  /\ status (demo_handle (at_time 4000) "sess-bob" (GetOwnerRatings (num 1)) logged_in).2
     = 200.
Proof. vm_compute. split; reflexivity. Qed.

Lemma wrong_password_answers_400 :
  demo_handle (at_time 4000) "sess-alice" (PutPassword wrong_password_body) logged_in
  = (logged_in, json_message 400 "Current password is incorrect")
  /\ status (json_message 400 "Current password is incorrect") <> 403
  /\ error_kind (json_message 400 "Current password is incorrect")
     = Some ValidationError
  /\ error_kind (json_message 400 "Current password is incorrect")
     <> Some PermissionDenied.
Proof. vm_compute. repeat split; congruence. Qed.

Lemma wrong_current_password_rejected_witness :
  sessions logged_in !! "sess-alice" = Some (mkSession (Some alice_id) (Some "normal"))
  /\ session_userId (mkSession (Some alice_id) (Some "normal")) = Some alice_id
  /\ alice_id <> ""
  /\ getUser alice_id (db logged_in) = (db logged_in, inr (Some alice_row))
  /\ updatePasswordSchema wrong_password_body
     = inr (mkUpdatePassword "Wrong#123" "Fresh#Pass1")
  /\ (forall hash, user_password alice_row = Some hash ->
                   demo_compare "Wrong#123" hash = false)
  /\ demo_handle (at_time 4000) "sess-alice" (PutPassword wrong_password_body) logged_in
     = (logged_in, json_message 400 "Current password is incorrect").
Proof.
  assert (sessions logged_in !! "sess-alice"
          = Some (mkSession (Some alice_id) (Some "normal"))) as H1
    by (vm_compute; reflexivity).
  assert (alice_id <> "") as H3 by discriminate.
  assert (getUser alice_id (db logged_in) = (db logged_in, inr (Some alice_row))) as H4
    by (vm_compute; reflexivity).
  assert (updatePasswordSchema wrong_password_body
          = inr (mkUpdatePassword "Wrong#123" "Fresh#Pass1")) as H5
    by (vm_compute; reflexivity).
  assert (forall hash, user_password alice_row = Some hash ->
                       demo_compare "Wrong#123" hash = false) as H6
    by (intros hash Hh; injection Hh as <-; vm_compute; reflexivity).
  split; [exact H1|]. split; [reflexivity|]. split; [exact H3|]. split; [exact H4|].
  split; [exact H5|]. split; [exact H6|].
  exact (wrong_current_password_rejected demo_hash demo_compare demo_ilike demo_text_le
           demo_email (at_time 4000) "sess-alice" logged_in
           (mkSession (Some alice_id) (Some "normal")) alice_id alice_row
           wrong_password_body (mkUpdatePassword "Wrong#123" "Fresh#Pass1")
           H1 eq_refl H3 H4 H5 H6).
Defined.

Lemma register_creates_normal_user_witness :
  demo_handle (at_time 7000) "sess-erin" (PostRegister erin_asks_for_admin) logged_in
  = (erin_registered, erin_welcome)
  /\ (forall u, u ∈ users (db erin_registered) ->
                u ∈ users (db logged_in) \/ user_role u = "normal")
  /\ (status erin_welcome = 201 ->
      exists user,
        users (db erin_registered) = users (db logged_in) ++ [user]
        /\ user_role user = "normal"
        /\ sessions erin_registered !! "sess-erin"
           = Some (mkSession (Some (user_id user)) (Some "normal"))
        /\ payload erin_welcome
           = PUserSummary (user_id user) (user_name user) (user_email user) "normal").
Proof.
  assert (demo_handle (at_time 7000) "sess-erin" (PostRegister erin_asks_for_admin)
            logged_in = (erin_registered, erin_welcome)) as H1
    by (vm_compute; reflexivity).
  split; [exact H1|].
  exact (register_creates_normal_user demo_hash demo_compare demo_ilike demo_text_le
           demo_email (at_time 7000) "sess-erin" erin_asks_for_admin logged_in
           erin_registered erin_welcome H1).
Defined.

(** Erin asked for the admin role and is answered 201 as a normal user. *)
Example erin_is_registered_as_normal :
  status erin_welcome = 201
  /\ map user_role (users (db erin_registered))
     = ["normal"; "store_owner"; "store_owner"; "admin"; "normal"].
Proof. vm_compute. split; reflexivity. Qed.

Lemma dangling_session_unauthenticated_witness :
  sessions carol_deleted !! "sess-carol"
  = Some (mkSession (Some carol_id) (Some "store_owner"))
  /\ session_userId (mkSession (Some carol_id) (Some "store_owner")) = Some carol_id
  /\ getUser carol_id (db carol_deleted) = (db carol_deleted, inr None)
  /\ RequireAuth ∈ middlewares GetOwnerStores
  /\ exists resp,
      demo_handle (at_time 4000) "sess-carol" GetOwnerStores carol_deleted
      = (carol_deleted, resp)
      /\ status resp = 401
      /\ error_kind resp = Some Unauthenticated.
Proof.
  assert (sessions carol_deleted !! "sess-carol"
          = Some (mkSession (Some carol_id) (Some "store_owner"))) as H1
    by (vm_compute; reflexivity).
  assert (getUser carol_id (db carol_deleted) = (db carol_deleted, inr None)) as H3
    by (vm_compute; reflexivity).
  assert (RequireAuth ∈ middlewares GetOwnerStores) as H4 by (simpl; left).
  split; [exact H1|]. split; [reflexivity|]. split; [exact H3|]. split; [exact H4|].
  exact (dangling_session_unauthenticated demo_hash demo_compare demo_ilike demo_text_le
           demo_email (at_time 4000) "sess-carol" GetOwnerStores carol_deleted
           (mkSession (Some carol_id) (Some "store_owner")) carol_id H1 eq_refl H3 H4).
Defined.

(** ** More concrete runs *)

Lemma reachable_schema_ok_witness :
  reachable_db demo_hash demo_compare rated_db
  /\ NoDup (map user_id (users rated_db))
  /\ (forall u v, u ∈ users rated_db -> v ∈ users rated_db ->
                  is_Some (user_email u) -> user_email u = user_email v -> u = v)
  /\ NoDup (map store_id (stores rated_db))
  /\ Forall (fun s => store_id s < stores_id_seq rated_db) (stores rated_db)
  /\ Forall (fun s => forall o, store_ownerId s = Some o ->
                                exists u, u ∈ users rated_db /\ user_id u = o)
       (stores rated_db).
Proof.
  assert (reachable_db demo_hash demo_compare rated_db) as Hreach
    by (exists rated_calls; vm_compute; reflexivity).
  split; [exact Hreach|].
  exact (reachable_schema_ok demo_hash demo_compare rated_db Hreach).
Defined.

Lemma request_without_login_unauthorized_witness :
  (forall uid,
     session_userId (default empty_session (sessions logged_in !! "sess-nobody")) = Some uid ->
     uid = "")
  /\ RequireAuth ∈ middlewares (GetStores None None)
  /\ demo_handle (at_time 4000) "sess-nobody" (GetStores None None) logged_in
     = (logged_in, json_message 401 "Unauthorized").
Proof.
  assert (forall uid,
            session_userId (default empty_session (sessions logged_in !! "sess-nobody"))
            = Some uid -> uid = "") as H1
    by (intros uid Hu; vm_compute in Hu; discriminate Hu).
  assert (RequireAuth ∈ middlewares (GetStores None None)) as H2 by (simpl; left).
  split; [exact H1|]. split; [exact H2|].
  exact (request_without_login_unauthorized demo_hash demo_compare demo_ilike demo_text_le
           demo_email (at_time 4000) "sess-nobody" (GetStores None None) logged_in H1 H2).
Defined.

(** A wrong password and an unknown email get the same answer. *)
Example login_refused_alike :
  demo_handle (at_time 2000) "s" (PostLogin (login_body "alice@example.org" "Wrong#123"))
    (mkWorld rated_db ∅)
  = (mkWorld rated_db ∅, json_message 401 "Invalid credentials")
  /\ demo_handle (at_time 2000) "s" (PostLogin (login_body "nobody@example.org" "Secret#123"))
       (mkWorld rated_db ∅)
     = (mkWorld rated_db ∅, json_message 401 "Invalid credentials")
  /\ demo_handle (at_time 2000) "s" (PostLogin (login_body "alice@example.org" ""))
       (mkWorld rated_db ∅)
     = (mkWorld rated_db ∅, json_message 400 "Email and password required").
Proof. vm_compute. repeat split. Qed.

Lemma login_success_witness :
  alice_login !! "email" = Some (JStr "alice@example.org")
  /\ alice_login !! "password" = Some (JStr "Secret#123")
  /\ "alice@example.org" <> "" /\ "Secret#123" <> ""
  /\ getUserByEmail "alice@example.org" (db logged_in) = (db logged_in, inr (Some alice_row))
  /\ stored_password (Some alice_row) = Some (demo_hash "Secret#123")
  /\ demo_compare "Secret#123" (demo_hash "Secret#123") = true
  /\ demo_handle (at_time 4000) "sess-alice-2" (PostLogin alice_login) logged_in
     = (mkWorld (db logged_in)
          (<["sess-alice-2" := mkSession (Some (user_id alice_row))
                                 (Some (user_role alice_row))]> (sessions logged_in)),
        mkResponse 200
          (PUserSummary (user_id alice_row) (user_name alice_row) (user_email alice_row)
             (user_role alice_row))).
Proof.
  assert (alice_login !! "email" = Some (JStr "alice@example.org")) as H1
    by (vm_compute; reflexivity).
  assert (alice_login !! "password" = Some (JStr "Secret#123")) as H2
    by (vm_compute; reflexivity).
  assert ("alice@example.org" <> "") as H3 by discriminate.
  assert ("Secret#123" <> "") as H4 by discriminate.
  assert (getUserByEmail "alice@example.org" (db logged_in)
          = (db logged_in, inr (Some alice_row))) as H5 by (vm_compute; reflexivity).
  assert (stored_password (Some alice_row) = Some (demo_hash "Secret#123")) as H6
    by (vm_compute; reflexivity).
  assert (demo_compare "Secret#123" (demo_hash "Secret#123") = true) as H7
    by (vm_compute; reflexivity).
  do 7 (split; [assumption|]).
  exact (login_success demo_hash demo_compare demo_ilike demo_text_le demo_email
           (at_time 4000) "sess-alice-2" alice_login logged_in
           "alice@example.org" "Secret#123" (demo_hash "Secret#123") alice_row
           H1 H2 H3 H4 H5 H6 H7).
Defined.


(** Dave logs out; his session is gone, Alice's is not. *)
Example dave_logs_out :
  let w' := (demo_handle (at_time 4000) "sess-dave" PostLogout logged_in).1 in
  (demo_handle (at_time 4001) "sess-dave" GetAdminStats w').2
  = json_message 401 "Unauthorized"
  /\ status (demo_handle (at_time 4001) "sess-alice" GetAuthUser w').2 = 200.
Proof. vm_compute. split; reflexivity. Qed.

Lemma register_existing_email_witness :
  insertUserSchema demo_email alice_again
  = inr (mkInsertUser "alice@example.org" "Alice Again Example Person" "1 Main Street"
           "Secret#999" "normal")
  /\ alice_row ∈ users (db logged_in)
  /\ user_email alice_row = Some "alice@example.org"
  /\ demo_handle (at_time 7000) "sess-new" (PostRegister alice_again) logged_in
     = (logged_in, json_message 400 "User already exists with this email").
Proof.
  assert (insertUserSchema demo_email alice_again
          = inr (mkInsertUser "alice@example.org" "Alice Again Example Person"
                   "1 Main Street" "Secret#999" "normal")) as H1
    by (vm_compute; reflexivity).
  assert (alice_row ∈ users (db logged_in)) as H2 by (vm_compute; left).
  split; [exact H1|]. split; [exact H2|]. split; [reflexivity|].
  exact (register_existing_email demo_hash demo_compare demo_ilike demo_text_le demo_email
           (at_time 7000) "sess-new" alice_again logged_in _ alice_row H1 H2 eq_refl).
Defined.

Lemma register_then_login_witness :
  (forall p, demo_compare p (demo_hash p) = true)
  /\ (forall p, demo_hash p <> "")
  /\ demo_email "" = false
  /\ insertUserSchema demo_email erin_asks_for_admin = inr erin_data
  /\ demo_handle (at_time 7000) "sess-erin" (PostRegister erin_asks_for_admin) logged_in
     = (erin_registered, erin_welcome)
  /\ status erin_welcome = 201
  /\ erin_login !! "email" = Some (JStr (iu_email erin_data))
  /\ erin_login !! "password" = Some (JStr (iu_password erin_data))
  /\ exists user,
      user_email user = Some (iu_email erin_data)
      /\ user_role user = "normal"
      /\ demo_handle (at_time 7500) "sess-erin-2" (PostLogin erin_login) erin_registered
         = (mkWorld (db erin_registered)
              (<["sess-erin-2" := mkSession (Some (user_id user)) (Some "normal")]>
                 (sessions erin_registered)),
            mkResponse 200
              (PUserSummary (user_id user) (user_name user) (user_email user) "normal")).
Proof.
  assert (forall p, demo_compare p (demo_hash p) = true) as H1
    by (intros p; unfold demo_compare; by apply bool_decide_eq_true_2).
  assert (forall p, demo_hash p <> "") as H2 by (intros p; discriminate).
  assert (demo_email "" = false) as H3 by reflexivity.
  assert (insertUserSchema demo_email erin_asks_for_admin = inr erin_data) as H4
    by (vm_compute; reflexivity).
  assert (demo_handle (at_time 7000) "sess-erin" (PostRegister erin_asks_for_admin) logged_in
          = (erin_registered, erin_welcome)) as H5 by (vm_compute; reflexivity).
  assert (status erin_welcome = 201) as H6 by (vm_compute; reflexivity).
  assert (erin_login !! "email" = Some (JStr (iu_email erin_data))) as H7
    by (vm_compute; reflexivity).
  assert (erin_login !! "password" = Some (JStr (iu_password erin_data))) as H8
    by (vm_compute; reflexivity).
  do 8 (split; [assumption|]).
  exact (register_then_login demo_hash demo_compare demo_ilike demo_text_le demo_email
           (at_time 7000) (at_time 7500) "sess-erin" "sess-erin-2" erin_asks_for_admin
           erin_login logged_in erin_registered erin_welcome erin_data
           H1 H2 H3 H4 H5 H6 H7 H8).
Defined.


Lemma password_change_then_login_witness :
  sessions logged_in !! "sess-alice" = Some (mkSession (Some alice_id) (Some "normal"))
  /\ session_userId (mkSession (Some alice_id) (Some "normal")) = Some alice_id
  /\ alice_id <> ""
  /\ getUser alice_id (db logged_in) = (db logged_in, inr (Some alice_row))
  /\ updatePasswordSchema new_password_body
     = inr (mkUpdatePassword "Secret#123" "Fresh#Pass1")
  /\ stored_password (Some alice_row) = Some (demo_hash "Secret#123")
  /\ demo_compare (up_currentPassword (mkUpdatePassword "Secret#123" "Fresh#Pass1"))
       (demo_hash "Secret#123") = true
  /\ demo_hash (up_newPassword (mkUpdatePassword "Secret#123" "Fresh#Pass1")) <> ""
  /\ "alice@example.org" <> "" /\ "Fresh#Pass1" <> ""
  /\ getUserByEmail "alice@example.org" (db logged_in)
     = (db logged_in, inr (Some alice_row))
  /\ alice_new_login !! "email" = Some (JStr "alice@example.org")
  /\ alice_new_login !! "password" = Some (JStr "Fresh#Pass1")
  /\ let w' := (demo_handle (at_time 4000) "sess-alice" (PutPassword new_password_body)
                  logged_in).1 in
     status (demo_handle (at_time 4500) "sess-alice-2" (PostLogin alice_new_login) w').2
     = if demo_compare "Fresh#Pass1"
            (demo_hash (up_newPassword (mkUpdatePassword "Secret#123" "Fresh#Pass1")))
       then 200 else 401.
Proof.
  assert (sessions logged_in !! "sess-alice"
          = Some (mkSession (Some alice_id) (Some "normal"))) as H1
    by (vm_compute; reflexivity).
  assert (alice_id <> "") as H3 by discriminate.
  assert (getUser alice_id (db logged_in) = (db logged_in, inr (Some alice_row))) as H4
    by (vm_compute; reflexivity).
  assert (updatePasswordSchema new_password_body
          = inr (mkUpdatePassword "Secret#123" "Fresh#Pass1")) as H5
    by (vm_compute; reflexivity).
  assert (stored_password (Some alice_row) = Some (demo_hash "Secret#123")) as H6
    by (vm_compute; reflexivity).
  assert (demo_compare (up_currentPassword (mkUpdatePassword "Secret#123" "Fresh#Pass1"))
            (demo_hash "Secret#123") = true) as H7 by (vm_compute; reflexivity).
  assert (demo_hash (up_newPassword (mkUpdatePassword "Secret#123" "Fresh#Pass1")) <> "")
    as H8 by discriminate.
  assert ("alice@example.org" <> "") as H9 by discriminate.
  assert ("Fresh#Pass1" <> "") as H10 by discriminate.
  assert (getUserByEmail "alice@example.org" (db logged_in)
          = (db logged_in, inr (Some alice_row))) as H11 by (vm_compute; reflexivity).
  assert (alice_new_login !! "email" = Some (JStr "alice@example.org")) as H12
    by (vm_compute; reflexivity).
  assert (alice_new_login !! "password" = Some (JStr "Fresh#Pass1")) as H13
    by (vm_compute; reflexivity).
  split; [exact H1|]. split; [reflexivity|].
  do 11 (split; [assumption|]).
  exact (password_change_then_login demo_hash demo_compare demo_ilike demo_text_le
           demo_email (at_time 4000) (at_time 4500) "sess-alice" "sess-alice-2" logged_in
           (mkSession (Some alice_id) (Some "normal")) alice_id "alice@example.org"
           alice_row new_password_body alice_new_login
           (mkUpdatePassword "Secret#123" "Fresh#Pass1") (demo_hash "Secret#123")
           "Fresh#Pass1" H1 eq_refl H3 H4 H5 H6 H7 H8 H9 H10 H11 H12 H13).
Defined.

(** After Alice's change, her old password is refused and the new one
    logs in. *)
Example alice_changes_password :
  let w' := (demo_handle (at_time 4000) "sess-alice" (PutPassword new_password_body)
               logged_in).1 in
  status (demo_handle (at_time 4500) "s" (PostLogin alice_login) w').2 = 401
  /\ status (demo_handle (at_time 4500) "s" (PostLogin alice_new_login) w').2 = 200.
Proof. vm_compute. split; reflexivity. Qed.


Lemma admin_delete_user_cases_witness :
  alice_row ∈ users rated_db
  /\ user_id alice_row = alice_id
  /\ ((exists r, r ∈ ratings rated_db /\ rating_userId r = alice_id)
      \/ (exists s, s ∈ stores rated_db /\ store_ownerId s = Some alice_id) ->
      admin_delete_user alice_id rated_db = (rated_db, internal_error))
  /\ ((forall r, r ∈ ratings rated_db -> rating_userId r <> alice_id) ->
      (forall s, s ∈ stores rated_db -> store_ownerId s <> Some alice_id) ->
      exists d',
        admin_delete_user alice_id rated_db
        = (d', json_message 200 "User deleted successfully")
        /\ getUser alice_id d' = (d', inr None)
        /\ stores d' = stores rated_db /\ ratings d' = ratings rated_db
        /\ (forall v, v ∈ users d' <-> v ∈ users rated_db /\ user_id v <> alice_id)).
Proof.
  assert (alice_row ∈ users rated_db) as H1.
  { assert (head (users rated_db) = Some alice_row) as E by (vm_compute; reflexivity).
    destruct (users rated_db) as [|u l]; [discriminate E|].
    injection E as ->. left. }
  split; [exact H1|]. split; [reflexivity|].
  exact (admin_delete_user_cases alice_id rated_db alice_row H1 eq_refl).
Defined.

(** Alice has rated the corner shop and cannot be deleted; Carol, who has
    rated nothing and owns nothing, can. *)
Example alice_stays_carol_goes :
  admin_delete_user alice_id rated_db = (rated_db, internal_error)
  /\ (admin_delete_user carol_id rated_db).2 = json_message 200 "User deleted successfully"
  /\ map user_id (users (admin_delete_user carol_id rated_db).1) = [alice_id; bob_id; dave_id].
Proof. vm_compute. repeat split. Qed.

Lemma admin_create_user_created_witness :
  admin_create_user demo_hash demo_email frank_body (at_time 8000) rated_db
  = (frank_created, mkResponse 201 (PUser (Some frank_row)))
  /\ exists data,
      insertUserSchema demo_email frank_body = inr data
      /\ user_role frank_row = iu_role data
      /\ user_email frank_row = Some (iu_email data)
      /\ user_password frank_row = Some (demo_hash (iu_password data))
      /\ users frank_created = users rated_db ++ [frank_row]
      /\ (forall v, v ∈ users rated_db -> user_email v <> Some (iu_email data)).
Proof.
  assert (admin_create_user demo_hash demo_email frank_body (at_time 8000) rated_db
          = (frank_created, mkResponse 201 (PUser (Some frank_row)))) as H1
    by (vm_compute; reflexivity).
  split; [exact H1|].
  exact (admin_create_user_created demo_hash demo_email frank_body (at_time 8000) rated_db
           frank_created frank_row H1).
Defined.

Lemma submit_rating_own_rows_only_witness :
  submit_rating alice_row forged_body (at_time 5000) rated_db
  = (forged_submission.1, forged_submission.2)
  /\ (forall r, forged_submission.2 = mkResponse 200 (PRating r) ->
                rating_userId r = user_id alice_row)
  /\ (forall r, rating_userId r <> user_id alice_row ->
                r ∈ ratings forged_submission.1 <-> r ∈ ratings rated_db).
Proof.
  assert (submit_rating alice_row forged_body (at_time 5000) rated_db
          = (forged_submission.1, forged_submission.2)) as H1
    by (vm_compute; reflexivity).
  split; [exact H1|].
  exact (submit_rating_own_rows_only alice_row forged_body (at_time 5000) rated_db
           forged_submission.1 forged_submission.2 H1).
Defined.

(** The body names Bob, the row is Alice's. *)
Example forged_user_id_is_ignored :
  forged_submission.2 = mkResponse 200 (PRating alice_rating_5)
  /\ rating_userId alice_rating_5 = alice_id
  /\ ratings forged_submission.1 = [alice_rating_5].
Proof. vm_compute. repeat split. Qed.

Lemma rating_written_then_read_witness :
  createOrUpdateRating alice_rates_5 (at_time 5000) rated_db = (rerated_db, inr alice_rating_5)
  /\ getUserRatingForStore (ir_userId alice_rates_5) (Some (ir_storeId alice_rates_5))
       rerated_db
     = (rerated_db, inr (Some alice_rating_5)).
Proof.
  assert (createOrUpdateRating alice_rates_5 (at_time 5000) rated_db
          = (rerated_db, inr alice_rating_5)) as H1 by (vm_compute; reflexivity).
  split; [exact H1|].
  exact (rating_written_then_read alice_rates_5 (at_time 5000) rated_db rerated_db
           alice_rating_5 H1).
Defined.

Lemma createStore_in_reachable_witness :
  reachable_db demo_hash demo_compare rated_db
  /\ (char_length (is_name second_shop) <= 60)%nat
  /\ -2147483648 <= stores_id_seq rated_db <= 2147483647
  /\ ((forall o, is_ownerId second_shop = Some o ->
                 exists u, u ∈ users rated_db /\ user_id u = o) ->
      exists store d',
        createStore second_shop (at_time 9000) rated_db = (d', inr store)
        /\ store_id store = stores_id_seq rated_db
        /\ store_name store = is_name second_shop
        /\ store_ownerId store = is_ownerId second_shop
        /\ stores d' = stores rated_db ++ [store]
        /\ getStoreById (num (store_id store)) d' = (d', inr (Some store)))
  /\ (forall o, is_ownerId second_shop = Some o ->
                (forall u, u ∈ users rated_db -> user_id u <> o) ->
                (createStore second_shop (at_time 9000) rated_db).2
                = inl ForeignKeyViolation
                /\ stores (createStore second_shop (at_time 9000) rated_db).1
                   = stores rated_db).
Proof.
  assert (reachable_db demo_hash demo_compare rated_db) as H1
    by (exists rated_calls; vm_compute; reflexivity).
  assert ((char_length (is_name second_shop) <= 60)%nat) as H2 by (vm_compute; lia).
  assert (-2147483648 <= stores_id_seq rated_db <= 2147483647) as H3.
  { assert (stores_id_seq rated_db = 2) as E by (vm_compute; reflexivity).
    rewrite E. lia. }
  split; [exact H1|]. split; [exact H2|]. split; [exact H3|].
  exact (createStore_in_reachable demo_hash demo_compare second_shop (at_time 9000)
           rated_db H1 H2 H3).
Defined.

Lemma owner_sees_own_stores_witness :
  sessions logged_in !! "sess-bob" = Some (mkSession (Some bob_id) (Some "store_owner"))
  /\ session_userId (mkSession (Some bob_id) (Some "store_owner")) = Some bob_id
  /\ bob_id <> ""
  /\ getUser bob_id (db logged_in) = (db logged_in, inr (Some bob_row))
  /\ user_role bob_row = "store_owner"
  /\ exists l,
      demo_handle (at_time 4000) "sess-bob" GetOwnerStores logged_in
      = (logged_in, mkResponse 200 (PStores l))
      /\ (forall s, s ∈ l <-> s ∈ stores (db logged_in) /\ store_ownerId s = Some bob_id).
Proof.
  assert (sessions logged_in !! "sess-bob"
          = Some (mkSession (Some bob_id) (Some "store_owner"))) as H1
    by (vm_compute; reflexivity).
  assert (bob_id <> "") as H3 by discriminate.
  assert (getUser bob_id (db logged_in) = (db logged_in, inr (Some bob_row))) as H4
    by (vm_compute; reflexivity).
  split; [exact H1|]. split; [reflexivity|]. split; [exact H3|]. split; [exact H4|].
  split; [reflexivity|].
  exact (owner_sees_own_stores demo_hash demo_compare demo_ilike demo_text_le demo_email
           (at_time 4000) "sess-bob" logged_in (mkSession (Some bob_id) (Some "store_owner"))
           bob_id bob_row H1 eq_refl H3 H4 eq_refl).
Defined.


Lemma list_stores_own_rating_witness :
  Forall (fun s => -2147483648 <= store_id s <= 2147483647) (stores rated_db)
  /\ exists l,
      list_stores demo_ilike demo_text_le alice_row None None rated_db
      = (rated_db, mkResponse 200 (PStoresWithRating l))
      /\ map swr_store l
         ≡ₚ filter (fun s => store_matches demo_ilike (mkStoreFilters None None) s)
              (stores rated_db)
      /\ Forall (fun e =>
                   swr_userRating e
                   = if bool_decide (user_role alice_row = "normal")
                     then rating_rating
                            <$> head (filter (has_key (user_id alice_row)
                                                (store_id (swr_store e)))
                                        (ratings rated_db))
                     else None) l.
Proof.
  assert (Forall (fun s => -2147483648 <= store_id s <= 2147483647) (stores rated_db))
    as H1.
  { assert (stores rated_db = [corner_shop]) as E by (vm_compute; reflexivity).
    rewrite E. apply Forall_singleton. simpl. lia. }
  split; [exact H1|].
  exact (list_stores_own_rating demo_ilike demo_text_le alice_row None None rated_db H1).
Defined.

Lemma get_requests_change_nothing_witness :
  is_get (GetOwnerRatings (num 1)) = true
  /\ (demo_handle (at_time 4000) "sess-bob" (GetOwnerRatings (num 1)) logged_in).1
     = logged_in.
Proof.
  split; [reflexivity|].
  exact (get_requests_change_nothing demo_hash demo_compare demo_ilike demo_text_le
           demo_email (at_time 4000) "sess-bob" (GetOwnerRatings (num 1)) logged_in
           eq_refl).
Defined.

Lemma sessions_of_others_untouched_witness :
  "sess-bob" <> "sess-alice"
  /\ sessions (demo_handle (at_time 5000) "sess-alice" (PostRatings (rating_body 1 5))
                 logged_in).1 !! "sess-bob"
     = sessions logged_in !! "sess-bob"
  /\ sessions (demo_handle (at_time 5000) "sess-alice" (PostRatings (rating_body 1 5))
                 logged_in).1
     = sessions logged_in.
Proof.
  assert ("sess-bob" <> "sess-alice") as H1 by discriminate.
  split; [exact H1|].
  exact (sessions_of_others_untouched demo_hash demo_compare demo_ilike demo_text_le
           demo_email (at_time 5000) "sess-alice" "sess-bob" (PostRatings (rating_body 1 5))
           logged_in H1).
Defined.


(** A rating of 3.7 out of five fills three stars: the first three. *)
Example stars_3_7_of_5 :
  stars (37 # 10) 5 = [true; true; true; false; false].
Proof. vm_compute. reflexivity. Qed.

(** A star that is not interactive ignores a click. *)
Example click_on_read_only_star :
  handleStarClick false (Some (fun n : Z => n)) 4 = None
  /\ handleStarClick true (Some (fun n : Z => n)) 4 = Some 4
  /\ handleStarClick true (None : option (Z -> Z)) 4 = None.
Proof. repeat split. Qed.
